(** * Pydra-External: capture-file ingestion and analysis pipeline

    A shallow embedding of the parts of the capture pipeline that the
    specification makes claims about:

    - [formats/integrity.py]   the [Integrity] grade;
    - [formats/capturefile.py] dtype selection, the content hash, the
      stutter and oscillation heuristics, polling-rate inference and the
      alias-resolved column accessors;
    - [formats/presentmon.py], [formats/frameview.py], [formats/ocat.py]
      the inspection battery and the integrity state machine;
    - [core/fileloader.py]     fingerprint based format detection;
    - [gui/plotobject.py]      the per-section statistics cache and the
      list of data sources;

    and of the code around them:

    - [gui/metadata.py]        the store of per-file records;
    - [core/configuration.py]  the settings and their defaults;
    - [core/utilities.py]      the marks on edited properties;
    - [formats/fraps.py]       the FRAPS parser.

    Numeric series are modelled over exact rationals [Q]: the finite
    values of a float column are rationals, and the non-finite ones
    (NaN, infinities) are made explicit wherever the code can produce
    them.  The cast to float32 that opens the stutter heuristic is
    modelled bit for bit ([cast_float32]); double precision arithmetic
    is taken as exact.  Dictionaries are [gmap]s, sets are [gset]s. *)

From Stdlib Require Import ZArith QArith Qround Qabs Lia List Bool String Ascii.
From stdpp Require Import base option list gmap strings sorting.
Import ListNotations.

Local Open Scope Z_scope.

(* ===================================================================== *)
(** * Part I: the embedding                                               *)
(* ===================================================================== *)

(** ** formats/integrity.py *)

Inductive Integrity : Type :=
| Initialized
| Pending
| Ideal
| Dirty
| Partial
| Mangled
| Invalid.

#[global] Instance Integrity_eq_dec : EqDecision Integrity.
Proof. solve_decision. Defined.

(** [Integrity.id]: the numerical integrity value. *)
Definition id_of (i : Integrity) : Z :=
  match i with
  | Initialized => -2
  | Pending => -1
  | Ideal => 0
  | Dirty => 1
  | Partial => 2
  | Mangled => 3
  | Invalid => 99
  end.

(** [Integrity.valid]: [0 <= self.id() < 99]. *)
Definition valid (i : Integrity) : bool :=
  (0 <=? id_of i) && (id_of i <? 99).

(** ** Numeric helpers shared by the numpy-style reductions *)

Definition Qminimum (a b : Q) : Q := if Qle_bool a b then a else b.
Definition Qmaximum (a b : Q) : Q := if Qle_bool a b then b else a.

(** [numpy.min] and [numpy.max] of finite values; [None] on no values,
    where numpy raises [ValueError] for an array and pandas gives NaN for a
    series. *)
Definition np_min (data : list Q) : option Q :=
  match data with
  | [] => None
  | x :: rest => Some (fold_left Qminimum rest x)
  end.

Definition np_max (data : list Q) : option Q :=
  match data with
  | [] => None
  | x :: rest => Some (fold_left Qmaximum rest x)
  end.

Definition Qsum (data : list Q) : Q := fold_right Qplus (0#1)%Q data.

(** ** formats/capturefile.py: [CaptureFile.return_optimal_dtype] *)

Inductive dtype : Type :=
| category
| uint8 | uint16 | uint32
| int8 | int16 | int32
| float32
| uint64 | int64 | float64.

#[global] Instance dtype_eq_dec : EqDecision dtype.
Proof. solve_decision. Defined.

(** What a call can do: return a dtype, return [None], or leave through an
    exception ([IndexError] on an empty array, [UnboundLocalError] when
    [_type] was never bound). *)
Inductive dtype_result : Type :=
| Selected (t : dtype)
| ReturnsNone
| RaisesIndexError
| RaisesUnboundLocalError.

(** The array handed to [return_optimal_dtype]: either of dtype [object]
    or numeric. *)
Inductive ndarray : Type :=
| ObjectArray (items : list string)
| NumericArray (items : list Q).

Definition INT64_MIN : Z := - 2 ^ 63.
Definition INT64_MAX : Z := 2 ^ 63 - 1.

(** [x.astype(int64)]: truncation toward zero; a value outside the int64
    range converts to the "integer indefinite" value [INT64_MIN]. *)
Definition astype_int64 (x : Q) : Z :=
  let t := Z.quot (Qnum x) (Z.pos (Qden x)) in
  if (INT64_MIN <=? t) && (t <=? INT64_MAX) then t else INT64_MIN.

(** [(_first - _first.astype(int64)) == 0] *)
Definition first_is_integral (first : Q) : bool :=
  Qeq_bool (first - inject_Z (astype_int64 first)) 0.

Definition Qlt_bool (a b : Q) : bool := negb (Qle_bool b a).

Definition return_optimal_dtype (data : ndarray) : dtype_result :=
  match data with
  | ObjectArray _ => Selected category
  | NumericArray items =>
    match hd_error items, np_min items, np_max items with
    | Some _first, Some _min, Some _max =>
      if first_is_integral _first then
        if Qle_bool 0 _min then
          if Qlt_bool _max (inject_Z 256) then Selected uint8
          else if Qlt_bool _max (inject_Z 65536) then Selected uint16
          else if Qlt_bool _max (inject_Z 4294967296) then Selected uint32
          else RaisesUnboundLocalError
        else if Qlt_bool (inject_Z (-129)) _min || Qlt_bool _max (inject_Z 128)
             then Selected int8
        else if Qlt_bool (inject_Z (-32769)) _min || Qlt_bool _max (inject_Z 32768)
             then Selected int16
        else if Qlt_bool (inject_Z (-2147483649)) _min
                || Qlt_bool _max (inject_Z 2147483648)
             then Selected int32
        else ReturnsNone
      else Selected float32
    | _, _, _ => RaisesIndexError
    end
  end.

(** The representable range of the integer dtypes. *)
Definition dtype_range (t : dtype) : option (Z * Z) :=
  match t with
  | uint8 => Some (0, 255)
  | uint16 => Some (0, 65535)
  | uint32 => Some (0, 4294967295)
  | int8 => Some (-128, 127)
  | int16 => Some (-32768, 32767)
  | int32 => Some (-2147483648, 2147483647)
  | uint64 => Some (0, 18446744073709551615)
  | int64 => Some (INT64_MIN, INT64_MAX)
  | category | float32 | float64 => None
  end.

(** Storage width of a dtype in bits ([category] has none). *)
Definition width (t : dtype) : Z :=
  match t with
  | uint8 | int8 => 8
  | uint16 | int16 => 16
  | uint32 | int32 | float32 => 32
  | uint64 | int64 | float64 => 64
  | category => 0
  end.

Definition is_unsigned (t : dtype) : bool :=
  match t with uint8 | uint16 | uint32 | uint64 => true | _ => false end.

Definition is_signed (t : dtype) : bool :=
  match t with int8 | int16 | int32 | int64 => true | _ => false end.

Definition covers (t : dtype) (x : Q) : Prop :=
  match dtype_range t with
  | Some (lo, hi) => (inject_Z lo <= x /\ x <= inject_Z hi)%Q
  | None => False
  end.

(** ** formats/capturefile.py: the content hash *)

(** [hashlib]'s interface to a hash algorithm: a constructor, [update] and
    [hexdigest].  [_HASH_ALGORITHM = sha3_256] is one such object. *)
Record HashAlgorithm : Type := {
  hash_state : Type;
  hash_new : hash_state;
  hash_update : hash_state -> list Byte.byte -> hash_state;
  hash_hexdigest : hash_state -> string
}.

Definition _HASH_BLOCK_SIZE : nat := Z.to_nat 65536.

(** [file.read(n)] on a binary file of which [remaining] is still unread:
    the next [n] bytes, fewer at the end of the file; and what is left. *)
Definition file_read (n : nat) (remaining : list Byte.byte)
  : list Byte.byte * list Byte.byte :=
  (take n remaining, drop n remaining).

(** The generator loop of [iterable_file_blocks]
    [[
      block = file.read(SIZE)
      while len(block) > 0:
          yield block
          block = file.read(SIZE)
    ]]
    with [block] already read.  [None] means the fuel ran out before the
    loop ended. *)
Fixpoint yield_blocks (fuel : nat) (block remaining : list Byte.byte)
  : option (list (list Byte.byte)) :=
  match fuel with
  | O => None
  | S fuel' =>
    if (0 <? length block)%nat then
      let '(next, remaining') := file_read _HASH_BLOCK_SIZE remaining in
      match yield_blocks fuel' next remaining' with
      | Some blocks => Some (block :: blocks)
      | None => None
      end
    else Some []
  end.

(** [CaptureFile.iterable_file_blocks], on a file holding [content]. *)
Definition iterable_file_blocks (content : list Byte.byte)
  : option (list (list Byte.byte)) :=
  let '(block, remaining) := file_read _HASH_BLOCK_SIZE content in
  yield_blocks (S (length content)) block remaining.

(** [CaptureFile.calculate_file_hash] *)
Definition calculate_file_hash (alg : HashAlgorithm)
    (file_blocks : list (list Byte.byte)) : string :=
  let algorithm :=
    fold_left (fun algorithm block => hash_update alg algorithm block)
              file_blocks (hash_new alg) in
  hash_hexdigest alg algorithm.

(** [CaptureFile.compute_file_hash] *)
Definition compute_file_hash (alg : HashAlgorithm) (content : list Byte.byte)
  : option string :=
  match iterable_file_blocks content with
  | Some blocks => Some (calculate_file_hash alg blocks)
  | None => None
  end.

(** The digest of a byte string hashed in one go:
    [sha3_256(content).hexdigest()]. *)
Definition one_shot_digest (alg : HashAlgorithm) (content : list Byte.byte)
  : string :=
  hash_hexdigest alg (hash_update alg (hash_new alg) content).

(** A toy algorithm with the interface of a [hashlib] object, used to run
    the definitions: the state is the message so far, the digest its
    length in unary. *)
Definition toy_algorithm : HashAlgorithm := {|
  hash_state := list Byte.byte;
  hash_new := [];
  hash_update := fun s block => s ++ block;
  hash_hexdigest := fun s => String.concat "" (map (fun _ => "1"%string) s)
|}.

(** ** The interpreter's [hash] of a tuple of ints

    [PresentMon.evaluate_integrity] keys the inspection on
    [hash((self.height, self.offset))].  This is CPython's tuple hash on a
    64-bit build, with the unsigned 64-bit wrap-around written out. *)

Definition u64 (x : Z) : Z := x mod 2 ^ 64.

Definition to_signed64 (x : Z) : Z :=
  if x <? 2 ^ 63 then x else x - 2 ^ 64.

Definition _PyHASH_XXPRIME_1 : Z := 11400714785074694791.
Definition _PyHASH_XXPRIME_2 : Z := 14029467366897019727.
Definition _PyHASH_XXPRIME_5 : Z := 2870177450012600261.
Definition _PyHASH_MODULUS : Z := 2 ^ 61 - 1.

Definition _PyHASH_XXROTATE (x : Z) : Z :=
  u64 (Z.lor (Z.shiftl x 31) (Z.shiftr x 33)).

(** [hash(n)] for a Python int. *)
Definition int_hash (n : Z) : Z :=
  let h := Z.sgn n * (Z.abs n mod _PyHASH_MODULUS) in
  if h =? -1 then -2 else h.

(** The tuple hash proper, over the hashes of the items. *)
Definition tuple_hash_lanes (lanes : list Z) : Z :=
  let step acc lane :=
    let acc := u64 (acc + u64 lane * _PyHASH_XXPRIME_2) in
    let acc := _PyHASH_XXROTATE acc in
    u64 (acc * _PyHASH_XXPRIME_1) in
  let acc := fold_left step lanes _PyHASH_XXPRIME_5 in
  let acc :=
    u64 (acc + Z.lxor (Z.of_nat (length lanes))
                      (Z.lxor _PyHASH_XXPRIME_5 3527539)) in
  if acc =? 2 ^ 64 - 1 then 1546275796 else to_signed64 acc.

(** [hash(t)] for a tuple [t] of ints. *)
Definition tuple_hash (items : list Z) : Z :=
  tuple_hash_lanes (map int_hash items).

(** ** The capture file object

    One record for [CaptureFile] and the slots its [PresentMon] subclass
    adds.  [signals] is the log of the [(path, value)] tuples the Qt
    signaller emitted, oldest first. *)

(** A table: named columns (duplicates allowed) over [df_rows] rows. *)
Record DataFrame : Type := {
  df_columns : list (string * list Q);
  df_rows : nat
}.

Definition empty_frame : DataFrame := {| df_columns := []; df_rows := 0 |}.

Definition column_names (data : DataFrame) : list string :=
  map fst (df_columns data).

Record InspectionItem : Type := {
  passed : bool;
  violations : Z;
  description : string
}.

(** [InspectionItem.default_result] *)
Definition default_result : InspectionItem :=
  {| passed := false; violations := -1;
     description := "Field inspection failed" |}.

(** The values of the inspection dictionary: items, and the separator
    strings the versioned inspections add (["section_1": "-----"]). *)
Inductive inspection_value : Type :=
| Item (item : InspectionItem)
| Text (text : string).

(** The concrete parser classes of the PresentMon family, and the others. *)
Inductive parser_class : Type :=
| FrameView
| OCAT
| OtherParser.

#[global] Instance parser_class_eq_dec : EqDecision parser_class.
Proof. solve_decision. Defined.

Record CaptureFile : Type := {
  parser : parser_class;
  version : string;
  HEADER_ALIASES : gmap string (gmap string string);
  headers : list string;
  data : DataFrame;
  height : Z;
  offset : Z;
  integrity : Integrity;
  signals : list Integrity;
  fallbacks_in_use : gmap string string;
  zero_col : option (list Q);
  duplicate_headers : option (list string);
  uses_saved_properties : option bool;
  integrity_hash : Z;
  inspection : gmap string inspection_value
}.

Definition with_integrity_field (value : Integrity) (emit : bool) (f : CaptureFile)
  : CaptureFile :=
  {| parser := parser f; version := version f;
     HEADER_ALIASES := HEADER_ALIASES f; headers := headers f;
     data := data f; height := height f; offset := offset f;
     integrity := value;
     signals := (if emit then signals f ++ [value] else signals f);
     fallbacks_in_use := fallbacks_in_use f; zero_col := zero_col f;
     duplicate_headers := duplicate_headers f;
     uses_saved_properties := uses_saved_properties f;
     integrity_hash := integrity_hash f; inspection := inspection f |}.

(** [CaptureFile.__setattr__] for the name ["integrity"]: the assignment
    always happens; the signal is emitted when the value changes. *)
Definition set_integrity (value : Integrity) (f : CaptureFile) : CaptureFile :=
  with_integrity_field value (negb (bool_decide (value = integrity f))) f.

Definition with_parsed (d : DataFrame) (h : list string) (n : Z) (f : CaptureFile)
  : CaptureFile :=
  {| parser := parser f; version := version f;
     HEADER_ALIASES := HEADER_ALIASES f; headers := h; data := d;
     height := n; offset := offset f; integrity := integrity f;
     signals := signals f; fallbacks_in_use := fallbacks_in_use f;
     zero_col := zero_col f; duplicate_headers := duplicate_headers f;
     uses_saved_properties := uses_saved_properties f;
     integrity_hash := integrity_hash f; inspection := inspection f |}.

Definition with_window (new_offset new_height : Z) (f : CaptureFile)
  : CaptureFile :=
  {| parser := parser f; version := version f;
     HEADER_ALIASES := HEADER_ALIASES f; headers := headers f;
     data := data f; height := new_height; offset := new_offset;
     integrity := integrity f; signals := signals f;
     fallbacks_in_use := fallbacks_in_use f; zero_col := zero_col f;
     duplicate_headers := duplicate_headers f;
     uses_saved_properties := uses_saved_properties f;
     integrity_hash := integrity_hash f; inspection := inspection f |}.

Definition with_data (d : DataFrame) (f : CaptureFile)
  : CaptureFile :=
  {| parser := parser f; version := version f;
     HEADER_ALIASES := HEADER_ALIASES f; headers := headers f; data := d;
     height := height f; offset := offset f; integrity := integrity f;
     signals := signals f; fallbacks_in_use := fallbacks_in_use f;
     zero_col := zero_col f; duplicate_headers := duplicate_headers f;
     uses_saved_properties := uses_saved_properties f;
     integrity_hash := integrity_hash f; inspection := inspection f |}.

Definition with_zero_col (col : option (list Q)) (f : CaptureFile)
  : CaptureFile :=
  {| parser := parser f; version := version f;
     HEADER_ALIASES := HEADER_ALIASES f; headers := headers f;
     data := data f; height := height f; offset := offset f;
     integrity := integrity f; signals := signals f;
     fallbacks_in_use := fallbacks_in_use f; zero_col := col;
     duplicate_headers := duplicate_headers f;
     uses_saved_properties := uses_saved_properties f;
     integrity_hash := integrity_hash f; inspection := inspection f |}.

Definition with_duplicate_headers (d : option (list string)) (f : CaptureFile)
  : CaptureFile :=
  {| parser := parser f; version := version f;
     HEADER_ALIASES := HEADER_ALIASES f; headers := headers f;
     data := data f; height := height f; offset := offset f;
     integrity := integrity f; signals := signals f;
     fallbacks_in_use := fallbacks_in_use f; zero_col := zero_col f;
     duplicate_headers := d;
     uses_saved_properties := uses_saved_properties f;
     integrity_hash := integrity_hash f; inspection := inspection f |}.

Definition with_uses_saved_properties (u : option bool) (f : CaptureFile)
  : CaptureFile :=
  {| parser := parser f; version := version f;
     HEADER_ALIASES := HEADER_ALIASES f; headers := headers f;
     data := data f; height := height f; offset := offset f;
     integrity := integrity f; signals := signals f;
     fallbacks_in_use := fallbacks_in_use f; zero_col := zero_col f;
     duplicate_headers := duplicate_headers f; uses_saved_properties := u;
     integrity_hash := integrity_hash f; inspection := inspection f |}.

Definition with_fallbacks_in_use (m : gmap string string) (f : CaptureFile)
  : CaptureFile :=
  {| parser := parser f; version := version f;
     HEADER_ALIASES := HEADER_ALIASES f; headers := headers f;
     data := data f; height := height f; offset := offset f;
     integrity := integrity f; signals := signals f; fallbacks_in_use := m;
     zero_col := zero_col f; duplicate_headers := duplicate_headers f;
     uses_saved_properties := uses_saved_properties f;
     integrity_hash := integrity_hash f; inspection := inspection f |}.

Definition with_integrity_hash (h : Z) (f : CaptureFile)
  : CaptureFile :=
  {| parser := parser f; version := version f;
     HEADER_ALIASES := HEADER_ALIASES f; headers := headers f;
     data := data f; height := height f; offset := offset f;
     integrity := integrity f; signals := signals f;
     fallbacks_in_use := fallbacks_in_use f; zero_col := zero_col f;
     duplicate_headers := duplicate_headers f;
     uses_saved_properties := uses_saved_properties f; integrity_hash := h;
     inspection := inspection f |}.

Definition with_inspection (i : gmap string inspection_value) (f : CaptureFile)
  : CaptureFile :=
  {| parser := parser f; version := version f;
     HEADER_ALIASES := HEADER_ALIASES f; headers := headers f;
     data := data f; height := height f; offset := offset f;
     integrity := integrity f; signals := signals f;
     fallbacks_in_use := fallbacks_in_use f; zero_col := zero_col f;
     duplicate_headers := duplicate_headers f;
     uses_saved_properties := uses_saved_properties f;
     integrity_hash := integrity_hash f; inspection := i |}.

(** [CaptureFile.__init__]: the object as the base constructor leaves it.
    The first assignment of [integrity] finds no previous value and emits
    nothing. *)
Definition new_capture_file (cls : parser_class) (ver : string)
    (aliases : gmap string (gmap string string)) : CaptureFile :=
  {| parser := cls; version := ver; HEADER_ALIASES := aliases;
     headers := []; data := empty_frame; height := 0; offset := 0;
     integrity := Initialized; signals := [];
     fallbacks_in_use := ∅; zero_col := None;
     duplicate_headers := None; uses_saved_properties := None;
     integrity_hash := 0; inspection := ∅ |}.

(** [CaptureFile.frames] *)
Definition frames (f : CaptureFile) : Z := height f - offset f.

(** ** formats/presentmon.py, frameview.py, ocat.py: inspection *)

(** The locals of [PresentMon.inspect_capture] when its [finally] builds
    the dictionary: each is the outcome of one check, or [default_result]
    if the battery stopped before reaching it. *)
Record presentmon_checks : Type := {
  application_consistency : InspectionItem;
  swapchain_consistency : InspectionItem;
  runtime_consistency : InspectionItem;
  runtime_validity : InspectionItem;
  present_flags : InspectionItem;
  sync_policy_consistency : InspectionItem;
  sync_policy_validity : InspectionItem;
  tearing_validity : InspectionItem;
  dropped_frame_validity : InspectionItem;
  present_mode_consistency : InspectionItem;
  present_mode_validity : InspectionItem;
  disp_change_validity : InspectionItem;
  render_queue_depth : InspectionItem
}.

(** The locals of [FrameView.second_gen_inspection]. *)
Record second_gen_checks : Type := {
  pc_latency_validity : InspectionItem;
  gpu_consistency : InspectionItem;
  cpu_consistency : InspectionItem;
  resolution_consistency : InspectionItem;
  resolution_validity : InspectionItem;
  pid_consistency : InspectionItem
}.

(** The locals of [OCAT.ocat_inspection]. *)
Record ocat_checks : Type := {
  ocat_resolution_consistency : InspectionItem;
  ocat_resolution_validity : InspectionItem;
  ocat_pid_consistency : InspectionItem
}.

(** What the column-level checks found on one run of the battery. *)
Record battery_outcome : Type := {
  base_checks : presentmon_checks;
  versioned_checks : second_gen_checks;
  ocat_versioned_checks : ocat_checks
}.

(** Python's [a | b] on dictionaries: the entries of [a] updated with
    those of [b]. *)
Definition dict_merge {V : Type} (a b : gmap string V) : gmap string V :=
  b ∪ a.

(** [PresentMon.inspect_capture] *)
Definition presentmon_inspect_capture (c : presentmon_checks)
  : gmap string inspection_value :=
  list_to_map [
    ("Application Consistency", Item (application_consistency c));
    ("Swapchain Address Consistency", Item (swapchain_consistency c));
    ("Runtime Consistency", Item (runtime_consistency c));
    ("Runtime Validity", Item (runtime_validity c));
    ("Present Flag Consistency", Item (present_flags c));
    ("Sync Policy Consistency", Item (sync_policy_consistency c));
    ("No Active Sync Policy", Item (sync_policy_validity c));
    ("Tearing is Possible", Item (tearing_validity c));
    ("No Dropped Frames", Item (dropped_frame_validity c));
    ("Present Mode Consistency", Item (present_mode_consistency c));
    ("Hardware-Based Present Mode", Item (present_mode_validity c));
    ("Display Change Validity", Item (disp_change_validity c));
    ("Render Queue Depth", Item (render_queue_depth c))
  ]%string.

(** [FrameView.second_gen_inspection] *)
Definition second_gen_inspection (c : second_gen_checks)
  : gmap string inspection_value :=
  list_to_map [
    ("Valid System Latency", Item (pc_latency_validity c));
    ("GPU Consistency", Item (gpu_consistency c));
    ("CPU Consistency", Item (cpu_consistency c));
    ("Resolution Consistency", Item (resolution_consistency c));
    ("Resolution Validity", Item (resolution_validity c));
    ("Process ID Consistency", Item (pid_consistency c));
    ("section_1", Text "-----")
  ]%string.

(** [OCAT.ocat_inspection] *)
Definition ocat_inspection (c : ocat_checks) : gmap string inspection_value :=
  list_to_map [
    ("Resolution Consistency", Item (ocat_resolution_consistency c));
    ("Resolution Validity", Item (ocat_resolution_validity c));
    ("Process ID Consistency", Item (ocat_pid_consistency c));
    ("section_1", Text "-----")
  ]%string.

Definition _SECOND_GENERATION : list string := ["1.1"; "1.2"; "1.4"]%string.

(** [FrameView.inspect_capture] and [OCAT.inspect_capture]: the basic
    battery, merged under the versioned one.  This is the dictionary
    alone: the call of [register_fallbacks] that
    [FrameView.inspect_capture] starts with, and which on a file of
    version 1.4 may add or drop the fallback header of
    "System Latency", is left out. *)
Definition inspect_capture (o : battery_outcome) (f : CaptureFile)
  : gmap string inspection_value :=
  let inspection_results := presentmon_inspect_capture (base_checks o) in
  match parser f with
  | FrameView =>
    if bool_decide (version f ∈ _SECOND_GENERATION)
    then dict_merge (second_gen_inspection (versioned_checks o))
                    inspection_results
    else inspection_results
  | OCAT =>
    dict_merge (ocat_inspection (ocat_versioned_checks o)) inspection_results
  | OtherParser => inspection_results
  end.

Definition frameview_major_1_0 : list string := [
  "Application Consistency"; "Swapchain Address Consistency";
  "Runtime Consistency"; "No Dropped Frames"; "Present Mode Consistency";
  "Hardware-Based Present Mode" ]%string.

Definition frameview_major_1_1 : list string :=
  frameview_major_1_0 ++ [
  "GPU Consistency"; "CPU Consistency"; "Resolution Consistency";
  "Resolution Validity"; "Process ID Consistency" ]%string.

(** The class attribute [MAJOR_INSPECTION_ITEMS]; [None] where the class
    has no such attribute. *)
Definition MAJOR_INSPECTION_ITEMS (cls : parser_class)
  : option (gmap string (list string)) :=
  match cls with
  | FrameView =>
    Some (list_to_map [
      ("1.0", frameview_major_1_0); ("1.1", frameview_major_1_1);
      ("1.2", frameview_major_1_1); ("1.4", frameview_major_1_1) ]%string)
  | OCAT =>
    Some (list_to_map [
      ("1.6.1", [
        "Resolution Consistency"; "Resolution Validity";
        "Application Consistency"; "Swapchain Address Consistency";
        "Runtime Consistency"; "Process ID Consistency";
        "No Dropped Frames"; "Present Mode Consistency";
        "Hardware-Based Present Mode" ]) ]%string)
  | OtherParser => None
  end.

(** [PresentMon.passed_inspection]: every value that is an
    [InspectionItem] passed. *)
Definition value_passed (v : inspection_value) : bool :=
  match v with
  | Item item => passed item
  | Text _ => true
  end.

Definition passed_inspection (f : CaptureFile) : bool :=
  forallb (fun kv => value_passed (snd kv)) (map_to_list (inspection f)).

(** [self.inspection.get(field).passed]; [None] is the [AttributeError]
    raised when the key is missing or holds a string. *)
Definition major_item (f : CaptureFile) (field : string) : option bool :=
  match inspection f !! field with
  | Some (Item item) => Some (passed item)
  | Some (Text _) | None => None
  end.

(** The list comprehension over [self.MAJOR_INSPECTION_ITEMS[self.version]];
    [None] when it raises. *)
Definition major_items (f : CaptureFile) : option (list bool) :=
  table ← MAJOR_INSPECTION_ITEMS (parser f);
  fields ← table !! version f;
  mapM (major_item f) fields.

(** [PresentMon.update_integrity_by_inspection] *)
Definition update_integrity_by_inspection (recheck : bool) (f : CaptureFile)
  : CaptureFile :=
  if negb (bool_decide (integrity f = Pending) || recheck) then f
  else if passed_inspection f then set_integrity Ideal f
  else match major_items f with
       | Some items =>
         set_integrity
           (if bool_decide (false ∈ items) then Mangled else Dirty) f
       | None => f
       end.

(** [PresentMon.evaluate_integrity].  [o] is what the checks find on this
    run and [properties_raise] whether [define_properties] raises. *)
Definition evaluate_integrity (o : battery_outcome) (properties_raise : bool)
    (f : CaptureFile) : CaptureFile :=
  let current_hash := tuple_hash [height f; offset f] in
  if current_hash =? integrity_hash f then f
  else
    let f := with_integrity_hash current_hash f in
    let f := with_inspection (inspect_capture o f) f in
    if properties_raise then f
    else update_integrity_by_inspection true f.

(** ** formats/presentmon.py: reading and parsing *)

(** What [read_csv] does on the file: it returns a table (and
    [dropped_errors] tells whether its "Dropped" column holds the string
    "Error"), or it raises. *)
Inductive csv_read : Type :=
| ReadFrame (frame : DataFrame) (dropped_errors : bool)
| ReadRaises.

Record read_env : Type := {
  first_read : csv_read;
  (** the [low_memory=False] reread of [process_mixed_dtypes];
      [None] when it raises *)
  reread : option DataFrame;
  compress_dataframe : DataFrame -> DataFrame
}.

(** [PresentMon.process_mixed_dtypes]: the table it returns, or [None]
    when it leaves through an exception, and the file. *)
Definition process_mixed_dtypes (env : read_env) (f : CaptureFile)
  : option DataFrame * CaptureFile :=
  let f := set_integrity Mangled f in
  match reread env with
  | Some frame => (Some frame, f)
  | None => (None, set_integrity Invalid f)
  end.

(** [PresentMon.read_log].  The [return] of its [finally] clause discards
    any exception in flight. *)
Definition read_log (env : read_env) (f : CaptureFile)
  : DataFrame * CaptureFile :=
  match first_read env with
  | ReadFrame frame dropped_errors =>
    if bool_decide ("Dropped"%string ∈ column_names frame) then
      if dropped_errors then
        match process_mixed_dtypes env f with
        | (Some frame', f') => (compress_dataframe env frame', f')
        | (None, f') => (compress_dataframe env frame, f')
        end
      else (compress_dataframe env frame, f)
    else (compress_dataframe env frame, set_integrity Invalid f)
  | ReadRaises => (compress_dataframe env empty_frame, set_integrity Invalid f)
  end.

(** [PresentMon.parse_file]: [(file_data, headers, height)] and the file. *)
Definition parse_file (env : read_env) (f : CaptureFile)
  : (DataFrame * list string * Z) * CaptureFile :=
  let '(file_data, f) := read_log env f in
  if bool_decide (integrity f = Invalid) then ((file_data, [], 0), f)
  else ((file_data, column_names file_data, Z.of_nat (df_rows file_data)), f).

(** [PresentMon.__init__] *)
Definition presentmon_init (cls : parser_class) (ver : string)
    (aliases : gmap string (gmap string string))
    (env : read_env) (o : battery_outcome) (properties_raise : bool)
  : CaptureFile :=
  let f := new_capture_file cls ver aliases in
  let f := set_integrity Pending f in
  let f := with_integrity_hash (-1) f in
  let '((file_data, hdrs, n), f) := parse_file env f in
  let f := with_parsed file_data hdrs n f in
  evaluate_integrity o properties_raise f.

(** ** formats/capturefile.py: the stutter and oscillation heuristics *)

(** A float as the heuristics see it: a finite value, an infinity, or NaN
    (the rolling statistics are NaN where the window is incomplete). *)
Inductive fval : Type :=
| Finite (q : Q)
| PosInf
| NegInf
| NaN.

(** [a / b] on floats, for finite operands. *)
Definition fdiv (a b : Q) : fval :=
  if Qeq_bool b 0 then
    if Qlt_bool 0 a then PosInf
    else if Qlt_bool a 0 then NegInf
    else NaN
  else Finite (a / b).

(** [a / b] where either operand may be NaN. *)
Definition nan_div (a b : option Q) : fval :=
  match a, b with
  | Some x, Some y => fdiv x y
  | _, _ => NaN
  end.

Definition fsub_const (x : fval) (c : Q) : fval :=
  match x with
  | Finite q => Finite (q - c)
  | other => other
  end.

(** [x > t] and [x >= t] against a finite threshold; comparisons with NaN
    are false. *)
Definition fgt (x : fval) (t : Q) : bool :=
  match x with
  | Finite q => Qlt_bool t q
  | PosInf => true
  | NegInf | NaN => false
  end.

Definition fge (x : fval) (t : Q) : bool :=
  match x with
  | Finite q => Qle_bool t q
  | PosInf => true
  | NegInf | NaN => false
  end.

Definition fadd (x y : fval) : fval :=
  match x, y with
  | NaN, _ | _, NaN => NaN
  | PosInf, NegInf | NegInf, PosInf => NaN
  | PosInf, _ | _, PosInf => PosInf
  | NegInf, _ | _, NegInf => NegInf
  | Finite a, Finite b => Finite (a + b)
  end.

Definition fscale (x : fval) (c : Q) : fval :=
  match x with
  | Finite q => Finite (q * c)
  | other => other
  end.

(** [numpy.max] of two floats; NaN propagates. *)
Definition fmax2 (x y : fval) : fval :=
  match x, y with
  | NaN, _ | _, NaN => NaN
  | PosInf, _ | _, PosInf => PosInf
  | NegInf, z | z, NegInf => z
  | Finite a, Finite b => Finite (Qmaximum a b)
  end.

(** [numpy.average] and [numpy.max] of a non-empty float array. *)
Definition np_average (values : list fval) : fval :=
  fscale (fold_right fadd (Finite 0) values)
         (/ inject_Z (Z.of_nat (length values))).

Definition np_fmax (values : list fval) : fval :=
  match values with
  | [] => NaN
  | x :: rest => fold_left fmax2 rest x
  end.

(** Sorting a window, as the rolling median and quantiles do. *)
Fixpoint Qinsert (x : Q) (sorted : list Q) : list Q :=
  match sorted with
  | [] => [x]
  | y :: rest => if Qle_bool x y then x :: sorted else y :: Qinsert x rest
  end.

Definition Qsort (values : list Q) : list Q := fold_right Qinsert [] values.

(** The median of a window: the middle order statistic, or the mean of the
    two middle ones. *)
Definition window_median (window : list Q) : option Q :=
  let sorted := Qsort window in
  let n := length sorted in
  if (n =? 0)%nat then None
  else if Nat.odd n then sorted !! (n / 2)%nat
  else
    match sorted !! (n / 2 - 1)%nat, sorted !! (n / 2)%nat with
    | Some a, Some b => Some ((a + b) / 2)%Q
    | _, _ => None
    end.

(** A quantile of a window with linear interpolation between the two
    neighbouring order statistics. *)
Definition window_quantile (quantile : Q) (window : list Q) : option Q :=
  let sorted := Qsort window in
  let n := length sorted in
  if (n =? 0)%nat then None
  else
    let idx_with_fraction := (quantile * inject_Z (Z.of_nat n - 1))%Q in
    let idx := Z.to_nat (Qfloor idx_with_fraction) in
    if Qeq_bool idx_with_fraction (inject_Z (Z.of_nat idx)) then sorted !! idx
    else
      match sorted !! idx, sorted !! S idx with
      | Some vlow, Some vhigh =>
        Some (vlow + (vhigh - vlow)
                     * (idx_with_fraction - inject_Z (Z.of_nat idx)))%Q
      | _, _ => None
      end.

(** [series.rolling(window, min_periods=window, center=True)] *)
Record Rolling : Type := {
  rolling_series : list Q;
  rolling_window_size : Z
}.

(** The rows a centred fixed window covers at position [i]: the bounds
    [i + 1 + offset - window, i + 1 + offset), clipped to the series. *)
Definition window_at (r : Rolling) (i : nat) : list Q :=
  let num_values := Z.of_nat (length (rolling_series r)) in
  let window_size := rolling_window_size r in
  let center_offset := (window_size - 1) `div` 2 in
  let stop := Z.of_nat i + 1 + center_offset in
  let start := stop - window_size in
  let stop := Z.max 0 (Z.min num_values stop) in
  let start := Z.max 0 (Z.min num_values start) in
  take (Z.to_nat (stop - start)) (drop (Z.to_nat start) (rolling_series r)).

(** A rolling statistic: NaN ([None]) where fewer than [min_periods]
    observations are in the window. *)
Definition rolling_apply (stat : list Q -> option Q) (r : Rolling)
  : list (option Q) :=
  map (fun i =>
         let window := window_at r i in
         if rolling_window_size r <=? Z.of_nat (length window)
         then stat window else None)
      (seq 0 (length (rolling_series r))).

Definition rolling_median (r : Rolling) : list (option Q) :=
  rolling_apply window_median r.

Definition rolling_quantile (quantile : Q) (r : Rolling) : list (option Q) :=
  rolling_apply (window_quantile quantile) r.

(** The settings the heuristics read, already converted by [float], [int]
    and [setting_bool]. *)
Record heuristic_settings : Type := {
  TestForOscillation : bool;
  StutterWindowSize : Z;
  StutterDeltaMs : Q;
  StutterDeltaPct : Q;
  OscDeltaMs : Q;
  OscDeltaPct : Q;
  OscWarnPct : Q
}.

(** [DEFAULTS] of core/configuration.py. *)
Definition default_settings : heuristic_settings := {|
  TestForOscillation := true;
  StutterWindowSize := 19;
  StutterDeltaMs := 4;
  StutterDeltaPct := 20;
  OscDeltaMs := 4;
  OscDeltaPct := 20;
  OscWarnPct := 3
|}.

(** A field of the result that is a number or the string "OSC". *)
Inductive stat_value : Type :=
| Number (x : fval)
| OSC.

Inductive deviations_value : Type :=
| Deviations (values : list fval)
| DeviationsOSC.

(** The named tuple [_STUTTER]. *)
Record Stutter : Type := {
  deviations : deviations_value;
  total : Z;
  proportional : Q;
  average : stat_value;
  max : stat_value
}.

Definition count_true (flags : list bool) : Z :=
  Z.of_nat (length (filter (fun b => b = true) flags)).

(** [CaptureFile.oscillation_heuristic] *)
Definition oscillation_heuristic (cfg : heuristic_settings)
    (rolling_frames : Rolling) (num_frames : nat) : option Stutter :=
  if (num_frames =? 0)%nat then None
  else
    let delta_ms := (OscDeltaMs cfg / 100)%Q in
    let delta_pct := (OscDeltaPct cfg / 100)%Q in
    let warn_pct := (OscWarnPct cfg / 100)%Q in
    let rolling_q1 := rolling_quantile (1 # 4) rolling_frames in
    let rolling_q3 := rolling_quantile (3 # 4) rolling_frames in
    let osc_percent_delta :=
      zip_with (fun q3 q1 => fge (fsub_const (nan_div q3 q1) 1) delta_pct)
               rolling_q3 rolling_q1 in
    let osc_ms_delta :=
      zip_with (fun q3 q1 =>
                  match q3, q1 with
                  | Some a, Some b => Qle_bool delta_ms (a - b)
                  | _, _ => false
                  end)
               rolling_q3 rolling_q1 in
    let osc_frames := zip_with andb osc_percent_delta osc_ms_delta in
    let num_osc_frames := count_true osc_frames in
    let pct_osc_frames :=
      (inject_Z num_osc_frames / inject_Z (Z.of_nat num_frames))%Q in
    if Qlt_bool pct_osc_frames warn_pct then None
    else Some {| deviations := DeviationsOSC; total := num_osc_frames;
                 proportional := pct_osc_frames;
                 average := OSC; max := OSC |}.

Definition invalid_stutter (num_all_frames : nat) : Stutter :=
  {| deviations := Deviations (repeat (Finite 0) num_all_frames);
     total := 0; proportional := 0;
     average := Number (Finite 0); max := Number (Finite 0) |}.

(** [abs(frametimes - rolling_median)] *)
Definition frame_time_deviations (frametimes : list Q)
    (medians : list (option Q)) : list (option Q) :=
  zip_with (fun x m => match m with
                       | Some m => Some (Qabs (x - m))
                       | None => None
                       end)
           frametimes medians.

(** [frame_time_deviations / rolling_median] *)
Definition percent_deviations (frametimes : list Q)
    (medians : list (option Q)) : list fval :=
  zip_with nan_div (frame_time_deviations frametimes medians) medians.

(** [percent_delta & ms_delta] *)
Definition stutter_frames (cfg : heuristic_settings) (frametimes : list Q)
    (medians : list (option Q)) : list bool :=
  let delta_ms := StutterDeltaMs cfg in
  let delta_pct := (StutterDeltaPct cfg / 100)%Q in
  let percent_delta :=
    map (fun d => fgt d delta_pct) (percent_deviations frametimes medians) in
  let ms_delta :=
    map (fun d => match d with
                  | Some d => Qlt_bool delta_ms d
                  | None => false
                  end)
        (frame_time_deviations frametimes medians) in
  zip_with andb percent_delta ms_delta.

(** [percent_deviations[where(stutter_frames == 1)]] *)
Definition select_where {A : Type} (values : list A) (flags : list bool)
  : list A :=
  map fst (filter (fun p => snd p = true) (zip values flags)).

(** [CaptureFile.stutter_heuristic] from its second statement on:
    [frametimes] is the series its first statement builds, the visible
    frame times cast to float32 ([calculate_stutter], further down, has
    the cast).  The minimum of an empty series is NaN, which is not
    zero; a negative window size makes [rolling] raise, and any
    exception ends in [invalid_stutter]. *)
Definition stutter_heuristic (cfg : heuristic_settings) (frametimes : list Q)
  : Stutter :=
  let num_all_frames := length frametimes in
  if match np_min frametimes with
     | Some least => Qeq_bool least 0
     | None => false
     end
  then invalid_stutter num_all_frames
  else if StutterWindowSize cfg <? 0 then invalid_stutter num_all_frames
  else
    let rolling_frametimes :=
      {| rolling_series := frametimes;
         rolling_window_size := StutterWindowSize cfg |} in
    match (if TestForOscillation cfg
           then oscillation_heuristic cfg rolling_frametimes num_all_frames
           else None) with
    | Some oscillation => oscillation
    | None =>
      let medians := rolling_median rolling_frametimes in
      let deltas := percent_deviations frametimes medians in
      let flags := stutter_frames cfg frametimes medians in
      let stutter_deltas := select_where deltas flags in
      let num_stutter_frames := count_true flags in
      if 0 <? num_stutter_frames then
        {| deviations := Deviations deltas;
           total := num_stutter_frames;
           proportional :=
             (inject_Z num_stutter_frames
              / inject_Z (Z.of_nat num_all_frames))%Q;
           average := Number (np_average stutter_deltas);
           max := Number (np_fmax stutter_deltas) |}
      else
        {| deviations := Deviations deltas;
           total := num_stutter_frames;
           proportional := 0;
           average := Number (Finite 0); max := Number (Finite 0) |}
    end.

(** A rolling statistic that is positive wherever it is defined. *)
Definition positive_or_nan (m : option Q) : Prop :=
  forall q, m = Some q -> (0 < q)%Q.

(** *** The stutter rule in the specification's words

    Frame by frame: a frame with frametime [x] whose centred window has
    median [m] is a stutter frame when its absolute deviation [|x - m|]
    exceeds the absolute threshold and [|x - m| / m] exceeds the relative
    one.  A frame without a complete window has no median and is never a
    stutter frame.  These are compared with the vectorised code above. *)

Definition relative_deviation (x m : Q) : Q := (Qabs (x - m) / m)%Q.

Definition spec_is_stutter_frame (cfg : heuristic_settings)
    (x : Q) (m : option Q) : bool :=
  match m with
  | Some m =>
    Qlt_bool (StutterDeltaPct cfg / 100) (relative_deviation x m)
    && Qlt_bool (StutterDeltaMs cfg) (Qabs (x - m))
  | None => false
  end.



(** *** The oscillation rule in the specification's words

    A window oscillates when its relative interquartile range
    [Q3 / Q1 - 1] reaches the configured percentage and its absolute
    interquartile range [Q3 - Q1] reaches the configured milliseconds; the
    capture is short-circuited when the oscillating windows make up at
    least the configured warn percentage of all frames. *)

Definition spec_window_oscillates (cfg : heuristic_settings)
    (q3 q1 : option Q) : bool :=
  match q3, q1 with
  | Some a, Some b =>
    fge (fsub_const (fdiv a b) 1) (OscDeltaPct cfg / 100)
    && Qle_bool (OscDeltaMs cfg) (a - b)
  | _, _ => false
  end.

Definition spec_oscillating_windows (cfg : heuristic_settings)
    (r : Rolling) : Z :=
  count_true (zip_with (spec_window_oscillates cfg)
                (rolling_quantile (3 # 4) r) (rolling_quantile (1 # 4) r)).

Definition spec_short_circuits (cfg : heuristic_settings)
    (r : Rolling) (num_frames : nat) : bool :=
  negb (num_frames =? 0)%nat
  && Qle_bool (OscWarnPct cfg / 100)
       (inject_Z (spec_oscillating_windows cfg r)
        / inject_Z (Z.of_nat num_frames)).

(** The settings with another absolute oscillation threshold. *)
Definition with_osc_delta_ms (ms : Q) (cfg : heuristic_settings)
  : heuristic_settings :=
  {| TestForOscillation := TestForOscillation cfg;
     StutterWindowSize := StutterWindowSize cfg;
     StutterDeltaMs := StutterDeltaMs cfg;
     StutterDeltaPct := StutterDeltaPct cfg;
     OscDeltaMs := ms;
     OscDeltaPct := OscDeltaPct cfg;
     OscWarnPct := OscWarnPct cfg |}.

(** Sample series: [pairs] repetitions of the two frametimes [a], [b]. *)
Fixpoint alternating (pairs : nat) (a b : Q) : list Q :=
  match pairs with
  | O => []
  | S k => a :: b :: alternating k a b
  end.

(** A steady series of 25 frames at [base] ms with one frame at [spike]
    ms in the middle. *)
Definition single_spike (base spike : Q) : list Q :=
  repeat base 12 ++ [spike] ++ repeat base 12.

(** Thirty frames repeating 10, 10, 30 ms. *)
Definition long_short_short : list Q :=
  concat (repeat [inject_Z 10; inject_Z 10; inject_Z 30] 10).

(** ** core/fileloader.py: format detection *)

(** [str.strip()] with no argument, on ASCII text: leading and trailing
    whitespace (tab, line feed, vertical tab, form feed, carriage return,
    the separators 28-31 and space) is removed.  The blanks beyond ASCII
    that [str.strip()] removes as well (U+0085, U+00A0 and the like) are
    kept here. *)
Definition is_whitespace (c : ascii) : bool :=
  let n := nat_of_ascii c in
  ((9 <=? n) && (n <=? 13) || (28 <=? n) && (n <=? 32))%nat.

Fixpoint lstrip (s : string) : string :=
  match s with
  | EmptyString => EmptyString
  | String c rest => if is_whitespace c then lstrip rest else s
  end.

Fixpoint rstrip (s : string) : string :=
  match s with
  | EmptyString => EmptyString
  | String c rest =>
    match rstrip rest with
    | EmptyString => if is_whitespace c then EmptyString
                     else String c EmptyString
    | kept => String c kept
    end
  end.

Definition strip (s : string) : string := rstrip (lstrip s).

(** What [FileLoader.infer_format] ends with. *)
Inductive detection (Format : Type) : Type :=
| UseVerbatim
| UseParser (application : Format) (version : string)
| ReturnsNoObject
| RaisesZeroDivisionError.

Arguments UseVerbatim {Format}.
Arguments UseParser {Format} application version.
Arguments ReturnsNoObject {Format}.
Arguments RaisesZeroDivisionError {Format}.

(** How the call of the selected parser's constructor ends. *)
Inductive construction : Type :=
| Constructed
| RaisesRuntimeError
| RaisesOtherException.

Section FormatDetector.
Context {Format : Type}.

(** [core.formats.capture_fingerprints] is not part of the sources at
    hand: it is taken as a parameter, an insertion-ordered dictionary
    from formats to insertion-ordered dictionaries from versions to
    header sets. *)
Definition fingerprint_table : Type :=
  list (Format * list (string * gset string)).

(** The pairs in the order the two nested loops visit them. *)
Definition candidates (capture_fingerprints : fingerprint_table)
  : list (Format * string * gset string) :=
  concat (map (fun entry =>
                 map (fun versioned =>
                        (fst entry, fst versioned, snd versioned))
                     (snd entry))
              capture_fingerprints).

(** [len(header_set.intersection(match_set)) / len(match_set)] *)
Definition shared_headers (header_set match_set : gset string) : Q :=
  (inject_Z (Z.of_nat (size (header_set ∩ match_set)))
   / inject_Z (Z.of_nat (size match_set)))%Q.

(** The loop state: [(application, version)] and [percent_matches]. *)
Definition selection : Type := option (Format * string) * Q.

(** One iteration of the inner loop body. *)
Definition compare_candidate (header_set : gset string)
    (state : selection) (candidate : Format * string * gset string)
  : selection :=
  let '(app, ver, match_set) := candidate in
  let shared := shared_headers header_set match_set in
  if Qlt_bool 0 shared && Qle_bool (snd state) shared
  then (Some (app, ver), shared)
  else state.

(** The score of a candidate against the file's header set. *)
Definition candidate_score (header_set : gset string)
    (c : Format * string * gset string) : Q :=
  shared_headers header_set (snd c).

(** The loop invariant of the selection: nothing scored above zero so
    far and the state is the initial one, or the state holds the last
    candidate among those of maximal score, and that score. *)
Definition selected_so_far (header_set : gset string)
    (visited : list (Format * string * gset string))
    (state : selection) : Prop :=
  (state = (None, 0%Q)
   /\ forall c, c ∈ visited -> ~ (0 < candidate_score header_set c)%Q)
  \/ (exists i app ver match_set,
        visited !! i = Some (app, ver, match_set)
        /\ state = (Some (app, ver),
                    candidate_score header_set (app, ver, match_set))
        /\ (0 < candidate_score header_set (app, ver, match_set))%Q
        /\ (forall j c, visited !! j = Some c ->
              (candidate_score header_set c
               <= candidate_score header_set (app, ver, match_set))%Q)
        /\ (forall j c, (i < j)%nat -> visited !! j = Some c ->
              (candidate_score header_set c
               < candidate_score header_set (app, ver, match_set))%Q)).

Definition select_format (capture_fingerprints : fingerprint_table)
    (header_set : gset string) : selection :=
  fold_left (compare_candidate header_set)
            (candidates capture_fingerprints) (None, 0%Q).

(** [FileLoader.infer_format], given the tokens [find_headers] returned
    (the empty list when reading failed). *)
Definition infer_format (capture_fingerprints : fingerprint_table)
    (construct : Format -> string -> construction)
    (found_headers : list string) : detection Format :=
  let headers := map strip found_headers in
  let header_set : gset string := list_to_set headers in
  if existsb (fun candidate => (size (snd candidate) =? 0)%nat)
             (candidates capture_fingerprints)
  then RaisesZeroDivisionError
  else
    match fst (select_format capture_fingerprints header_set) with
    | None => UseVerbatim
    | Some (application, version) =>
      match construct application version with
      | Constructed => UseParser application version
      | RaisesRuntimeError => ReturnsNoObject
      | RaisesOtherException => UseVerbatim
      end
    end.
End FormatDetector.

(** A small fingerprint table to run the detector on: two versions of one
    format, the later a superset of the earlier, and a second format. *)
Definition sample_fingerprints : @fingerprint_table string := [
  ("Alpha", [("1.0", {["Time"; "Frame"]});
             ("2.0", {["Time"; "Frame"; "Power"; "Clock"]})]);
  ("Beta", [("1.0", {["Time"; "Voltage"]})])
]%string.

(** ** formats/capturefile.py: polling-rate inference *)

(** [datetimes[1:] - datetimes[:-1]], on the float images of the
    timestamps. *)
Definition consecutive_deltas (datetimes : list Q) : list Q :=
  zip_with Qminus (tail datetimes) datetimes.

(** [CaptureFile.positive_time_deltas], given the parsed timestamps. *)
Definition positive_time_deltas (datetimes : list Q) : list Q :=
  filter (fun d => Qlt_bool 0 d = true) (consecutive_deltas datetimes).

Definition np_mean (values : list Q) : Q :=
  (Qsum values / inject_Z (Z.of_nat (length values)))%Q.

(** The square of [numpy.std]: the population variance. *)
Definition np_variance (values : list Q) : Q :=
  let mean := np_mean values in
  np_mean (map (fun x => (x - mean) * (x - mean))%Q values).

(** [median + stdev * 3 > x] for a positive standard deviation, written
    on its square: [x - median] is negative, or its square is below
    [9 * variance]. *)
Definition within_three_sigma (median variance x : Q) : bool :=
  Qlt_bool (x - median) 0
  || Qlt_bool ((x - median) * (x - median)) (9 * variance).

(** [CaptureFile.filter_time_deltas]; NaN is the median of nothing. *)
Definition filter_time_deltas (positive_deltas : list Q) : fval :=
  let polling_rates := map (fun d => d / 1000000000)%Q positive_deltas in
  match window_median polling_rates with
  | None => NaN
  | Some median_rate =>
    let variance := np_variance polling_rates in
    if Qlt_bool 0 variance then
      let polling_rates :=
        filter (fun x => within_three_sigma median_rate variance x = true)
               polling_rates in
      match window_median polling_rates with
      | Some median_rate => Finite median_rate
      | None => NaN
      end
    else Finite median_rate
  end.

(** [CaptureFile.infer_polling_rate].  [parsed] is what [to_datetime]
    makes of the time column: the timestamps, or [None] when it raises. *)
Definition infer_polling_rate (parsed : option (list Q)) (f : CaptureFile)
  : fval * CaptureFile :=
  match parsed with
  | None => (Finite 1, f)
  | Some datetimes =>
    let positive_deltas := positive_time_deltas datetimes in
    if (length positive_deltas =? 0)%nat
       || match np_max positive_deltas with
          | Some greatest => Qeq_bool greatest 0
          | None => false
          end
    then
      (Finite 1,
       if bool_decide (integrity f = Ideal) then set_integrity Dirty f else f)
    else (filter_time_deltas positive_deltas, f)
  end.

(** ** gui/plotobject.py: the statistics cache *)

(** The values that occur in the hashed tuples: ints, bools and [None]. *)
Inductive py_value : Type :=
| PyNone
| PyInt (n : Z)
| PyBool (b : bool).

Inductive stat_cell : Type :=
| TextCell (text : string)
| NumberCell (value : Q).

(** A plot object and the class-level hit counters [_cache_hits], which
    map a section to [[hits, total]]. *)
Record PlotObject : Type := {
  file : CaptureFile;
  _hashes : gmap string Z;
  stats : list stat_cell
}.

Record session : Type := {
  plot_object : PlotObject;
  _cache_hits : gmap string (Z * Z)
}.

Section StatisticsCache.
(** [hash(None)] is fixed for the life of the interpreter. *)
Variable none_hash : Z.

Definition value_hash (v : py_value) : Z :=
  match v with
  | PyNone => none_hash
  | PyInt n => int_hash n
  | PyBool b => if b then 1 else 0
  end.

(** [PlotObject.use_cached_stats], with the session it leaves. *)
Definition use_cached_stats (section : string)
    (other_criteria : list py_value) (s : session) : bool * session :=
  match _cache_hits s !! section with
  | None => (true, s)
  | Some (hits, calls) =>
    let counted := <[section := (hits, calls + 1)]> (_cache_hits s) in
    let range_hash :=
      tuple_hash_lanes
        (map value_hash
             (PyInt (offset (file (plot_object s)))
              :: PyInt (height (file (plot_object s)))
              :: other_criteria)) in
    if bool_decide (_hashes (plot_object s) !! section = Some range_hash)
    then (true,
          {| plot_object := plot_object s;
             _cache_hits := <[section := (hits + 1, calls + 1)]> counted |})
    else (false,
          {| plot_object :=
               {| file := file (plot_object s);
                  _hashes := <[section := range_hash]>
                               (_hashes (plot_object s));
                  stats := stats (plot_object s) |};
             _cache_hits := counted |})
  end.

(** The common shape of [set_time_metrics], [set_display_metrics],
    [set_performance_metrics], [set_percentile_metrics],
    [set_relative_percentile_metrics], [set_stutter_metrics] and
    [set_hardware_metrics]: an optional guard on the file, the cache test,
    and a body that rewrites statistics cells. *)
Record stats_section : Type := {
  section_name : string;
  section_criteria : list py_value;
  section_guard : CaptureFile -> bool;
  section_body : CaptureFile -> list stat_cell -> list stat_cell
}.

Definition set_section_metrics (sec : stats_section) (s : session) : session :=
  if section_guard sec (file (plot_object s)) then s
  else
    let '(cached, s) :=
      use_cached_stats (section_name sec) (section_criteria sec) s in
    if cached then s
    else
      {| plot_object :=
           {| file := file (plot_object s);
              _hashes := _hashes (plot_object s);
              stats := section_body sec (file (plot_object s))
                                    (stats (plot_object s)) |};
         _cache_hits := _cache_hits s |}.

(** The misses of a section: its calls that were not hits. *)
Definition misses (section : string) (s : session) : Z :=
  match _cache_hits s !! section with
  | Some (hits, calls) => calls - hits
  | None => 0
  end.
End StatisticsCache.

(** The settings and file tests the seven sections read. *)
Record stats_environment : Type := {
  time_scale : Z;
  precision : Z;
  exclusive_percentiles : bool;
  alias_present_elapsed_time : CaptureFile -> bool;
  tainted_frametimes : CaptureFile -> bool;
  body_of : string -> CaptureFile -> list stat_cell -> list stat_cell
}.

(** The seven hashed sections, in the order [calculate_stats] runs them. *)
Definition hashed_sections (env : stats_environment) : list stats_section := [
  {| section_name := "Time";
     section_criteria := [PyInt (time_scale env)];
     section_guard := fun f => negb (alias_present_elapsed_time env f);
     section_body := body_of env "Time" |};
  {| section_name := "Display";
     section_criteria := [PyInt (precision env)];
     section_guard := fun _ => false;
     section_body := body_of env "Display" |};
  {| section_name := "Performance";
     section_criteria := [PyNone];
     section_guard := tainted_frametimes env;
     section_body := body_of env "Performance" |};
  {| section_name := "Percentiles";
     section_criteria := [PyBool (exclusive_percentiles env)];
     section_guard := tainted_frametimes env;
     section_body := body_of env "Percentiles" |};
  {| section_name := "Relative Percentiles";
     section_criteria := [PyInt (precision env)];
     section_guard := tainted_frametimes env;
     section_body := body_of env "Relative Percentiles" |};
  {| section_name := "Stutter";
     section_criteria := [PyInt (precision env)];
     section_guard := fun _ => false;
     section_body := body_of env "Stutter" |};
  {| section_name := "Hardware";
     section_criteria := [PyNone];
     section_guard := fun _ => false;
     section_body := body_of env "Hardware" |}
]%string.

(** [PlotObject._cache_hits] as the class defines it. *)
Definition initial_cache_hits : gmap string (Z * Z) :=
  list_to_map [
    ("Time", (0, 0)); ("Display", (0, 0)); ("Performance", (0, 0));
    ("Percentiles", (0, 0)); ("Relative Percentiles", (0, 0));
    ("Stutter", (0, 0)); ("Hardware", (0, 0)) ]%string.

(** [self._hashes] as [full_object_setup] sets it. *)
Definition initial_hashes : gmap string Z :=
  list_to_map [
    ("Time", 0); ("Display", 0); ("Performance", 0); ("Percentiles", 0);
    ("Relative Percentiles", 0); ("Stutter", 0); ("Hardware", 0) ]%string.

(** ** formats/capturefile.py: aliases, columns and the time axis *)

(** [CaptureFile.preferred_aliases]; [None] is the [AttributeError] raised
    when the version has no alias table. *)
Definition preferred_aliases (f : CaptureFile) (generic_phrase : string)
  : option string :=
  match HEADER_ALIASES f !! version f with
  | Some table => Some (default "None"%string (table !! generic_phrase))
  | None => None
  end.

(** [CaptureFile.header_by_alias]: the fallback in use, else the preferred
    header, else "None". *)
Definition header_by_alias (f : CaptureFile) (generic_phrase : string)
  : option string :=
  match preferred_aliases f generic_phrase with
  | Some preferred =>
    Some (default preferred (fallbacks_in_use f !! generic_phrase))
  | None => None
  end.

(** What the column accessors return: Python's [None], a one-dimensional
    series, a two-dimensional table, or a scalar. *)
Inductive column_value : Type :=
| NoColumn
| Series (values : list Q)
| Frame (columns : list (list Q))
| Scalar (value : Q).

(** [self.zero_col] as a value. *)
Definition zero_column (f : CaptureFile) : column_value :=
  match zero_col f with
  | Some zeros => Series zeros
  | None => NoColumn
  end.

Definition named_columns (frame : DataFrame) (name : string)
  : list (string * list Q) :=
  filter (fun c => fst c = name) (df_columns frame).

(** Rows [first] to [last], both included, of a column indexed from 0. *)
Definition loc_rows (first last : Z) (col : list Q) : list Q :=
  drop (Z.to_nat first) (take (Z.to_nat (last + 1)) col).

(** [self.data.loc[self.offset : self.height - 1, column_name]];
    [None] is a [KeyError]. *)
Definition data_loc (f : CaptureFile) (column_name : string)
  : option column_value :=
  match named_columns (data f) column_name with
  | [] => None
  | [c] => Some (Series (loc_rows (offset f) (height f - 1) (snd c)))
  | cs =>
    Some (Frame (map (fun c => loc_rows (offset f) (height f - 1) (snd c)) cs))
  end.

(** [self.data.at[index, column_name]]; with duplicated labels pandas
    falls back to [.loc] and returns the row's values. *)
Definition data_at (f : CaptureFile) (index : Z) (column_name : string)
  : option column_value :=
  if index <? 0 then None
  else
    match named_columns (data f) column_name with
    | [] => None
    | [c] => option_map Scalar (snd c !! Z.to_nat index)
    | cs =>
      option_map Series (mapM (fun c => snd c !! Z.to_nat index) cs)
    end.

(** [CaptureFile.column] *)
Definition column (f : CaptureFile) (column_name : string)
    (index : option Z) : column_value :=
  let col := zero_column f in
  if bool_decide (column_name = "None"%string \/ column_name = "Index"%string)
     || negb (bool_decide (column_name ∈ headers f))
  then col
  else
    match (match index with
           | None => data_loc f column_name
           | Some i => data_at f i column_name
           end) with
    | Some found => found
    | None => col
    end.

(** [CaptureFile.column_by_alias]; [None] when [header_by_alias] raises. *)
Definition column_by_alias (f : CaptureFile) (generic_phrase : string)
    (index : option Z) : option column_value :=
  if bool_decide (generic_phrase = "None"%string)
  then Some (column f "None" None)
  else
    match header_by_alias f generic_phrase with
    | None => None
    | Some header =>
      match column f header index with
      | NoColumn => Some (column f "None" None)
      | Series values => Some (Series values)
      | Scalar value => Some (Scalar value)
      | Frame _ => Some (column f "None" None)
      end
    end.

(** [CaptureFile.alias_present]; [None] when [header_by_alias] raises. *)
Definition alias_present (f : CaptureFile) (generic_phrase : string)
  : option bool :=
  translation ← header_by_alias f generic_phrase;
  Some (bool_decide (translation ∈ headers f)
        && negb (bool_decide (translation = "None"%string))).

(** A method that mutates the file either completes or raises; either way
    the mutations made so far stay. *)
Inductive attempt : Type :=
| Completed (f : CaptureFile)
| Raised (f : CaptureFile).

Definition and_then (a : attempt) (k : CaptureFile -> attempt) : attempt :=
  match a with
  | Completed f => k f
  | Raised f => Raised f
  end.

Definition file_after (a : attempt) : CaptureFile :=
  match a with
  | Completed f | Raised f => f
  end.

Definition completed (a : attempt) : bool :=
  match a with
  | Completed _ => true
  | Raised _ => false
  end.

(** [CaptureFile.resize_zero_column]; [zeros] raises on a negative
    length. *)
Definition resize_zero_column (f : CaptureFile) : attempt :=
  if frames f <? 0 then Raised f
  else Completed (with_zero_col (Some (repeat 0%Q (Z.to_nat (frames f)))) f).

(** [numpy.round(x, decimals)]: to the nearest multiple of
    [10 ^ -decimals], ties to the even one. *)
Definition round_half_even (x : Q) : Z :=
  let low := Qfloor x in
  let fraction := (x - inject_Z low)%Q in
  if Qlt_bool fraction (1 # 2) then low
  else if Qlt_bool (1 # 2) fraction then low + 1
  else if Z.even low then low else low + 1.

Definition np_round (decimals : Z) (x : Q) : Q :=
  (inject_Z (round_half_even (x * inject_Z (10 ^ decimals)))
   / inject_Z (10 ^ decimals))%Q.

Definition map_named_column (name : string) (g : Q -> Q) (frame : DataFrame)
  : DataFrame :=
  {| df_columns :=
       map (fun c => if bool_decide (fst c = name)
                     then (fst c, map g (snd c)) else c)
           (df_columns frame);
     df_rows := df_rows frame |}.

(** [CaptureFile.start_time_at_zero].  The time column is shifted by its
    value at the first visible row; the case where that lookup does not
    give a scalar (no time column, or several) is taken as raising. *)
Definition start_time_at_zero (f : CaptureFile) : attempt :=
  match header_by_alias f "Elapsed Time" with
  | None => Raised f
  | Some time_alias =>
    match column f time_alias (Some (offset f)) with
    | Scalar initial_timestamp =>
      Completed
        (with_data
           (map_named_column time_alias
              (fun t => np_round 9 (t - initial_timestamp)) (data f)) f)
    | _ => Raised f
    end
  end.

(** [self.evaluate_integrity()]: the base class does nothing, the
    PresentMon family re-inspects. *)
Definition evaluate_integrity_method (o : battery_outcome)
    (properties_raise : bool) (f : CaptureFile) : CaptureFile :=
  match parser f with
  | FrameView | OCAT => evaluate_integrity o properties_raise f
  | OtherParser => f
  end.

(** [CaptureFile.reset_time_axis] (the metadata store is not part of the
    state). *)
Definition reset_time_axis (o : battery_outcome) (properties_raise : bool)
    (f : CaptureFile) : attempt :=
  let f := with_window 0 (Z.of_nat (df_rows (data f))) f in
  and_then (start_time_at_zero f) (fun f =>
  and_then (resize_zero_column f) (fun f =>
  Completed (evaluate_integrity_method o properties_raise f))).

(** [CaptureFile.offset_time_axis] *)
Definition offset_time_axis (time_offset : Q) (f : CaptureFile) : attempt :=
  if Qeq_bool time_offset 0 then Completed f
  else
    match header_by_alias f "Elapsed Time" with
    | None => Raised f
    | Some time_alias =>
      match named_columns (data f) time_alias with
      | [] => Raised f
      | _ =>
        Completed
          (with_data
             (map_named_column time_alias (fun t => t + time_offset)%Q
                               (data f)) f)
      end
    end.

(** [CaptureFile.elapsed_time]; [None] when it raises. *)
Definition elapsed_time (f : CaptureFile) : option (list Q) :=
  match column_by_alias f "Elapsed Time" None with
  | Some (Series values) => Some values
  | _ => None
  end.

(** The "Time" section of the file's metadata record: a dictionary that
    may lack keys. *)
Record time_record : Type := {
  stored_offset : option Q;
  stored_start : option Z;
  stored_end : option Z
}.

(** The [try] block of [restore_saved_properties]. *)
Definition restore_time_and_properties (stored_time : option time_record)
    (stored_properties : bool) (o : battery_outcome)
    (properties_raise : bool) (f : CaptureFile) : attempt :=
  and_then
    (match stored_time with
     | None => Completed f
     | Some record =>
       match stored_offset record, stored_start record, stored_end record
       with
       | Some time_offset, Some start, Some stop =>
         if (start <? stop) && (1 <? stop - start) then
           match elapsed_time f with
           | None => Raised f
           | Some elapsed =>
             match np_max elapsed with
             | None => Raised f
             | Some latest =>
               if Qlt_bool 0 (latest + time_offset) then
                 and_then (offset_time_axis time_offset f) (fun f =>
                 Completed (with_window start stop f))
               else reset_time_axis o properties_raise f
             end
           end
         else reset_time_axis o properties_raise f
       | _, _, _ => Raised f
       end
     end)
    (fun f =>
       Completed (with_uses_saved_properties (Some stored_properties) f)).

(** [CaptureFile.restore_saved_properties]; [properties_raise] tells
    whether the class's [define_properties] raises. *)
Definition restore_saved_properties (stored_time : option time_record)
    (stored_properties : bool) (o : battery_outcome)
    (properties_raise : bool) (f : CaptureFile) : attempt :=
  match uses_saved_properties f with
  | Some _ => Completed f
  | None =>
    if properties_raise then Raised f
    else
      match restore_time_and_properties stored_time stored_properties
              o properties_raise f with
      | Completed f => Completed f
      | Raised f =>
        reset_time_axis o properties_raise
          (with_uses_saved_properties (Some false) f)
      end
  end.

(** [CaptureFile.find_duplicate_headers] *)
Definition find_duplicate_headers (f : CaptureFile) : CaptureFile :=
  let '(_, duplicates) :=
    fold_left
      (fun '(unique_headers, duplicates) header =>
         if bool_decide (header ∈ unique_headers)
         then (unique_headers, duplicates ++ [header])
         else (unique_headers ++ [header], duplicates))
      (headers f) ([], []) in
  match duplicates with
  | [] => f
  | _ => with_duplicate_headers (Some duplicates) f
  end.

(** [CaptureFile.tainted_frametimes] on finite data: no performance
    column, or a zero frametime.  [None] when it raises. *)
Definition base_tainted_frametimes (f : CaptureFile) : option bool :=
  has_fps ← alias_present f "Frametimes";
  if negb has_fps then Some true
  else
    match column_by_alias f "Frametimes" None with
    | Some (Series values) =>
      least ← np_min values; Some (Qeq_bool least 0)
    | _ => None
    end.

(** [CaptureFile.valid_file_setup] *)
Definition valid_file_setup (stored_time : option time_record)
    (stored_properties : bool) (o : battery_outcome)
    (properties_raise : bool) (f : CaptureFile) : attempt :=
  and_then (reset_time_axis o properties_raise f) (fun f =>
  and_then (restore_saved_properties stored_time stored_properties
              o properties_raise f) (fun f =>
  let f := find_duplicate_headers f in
  match base_tainted_frametimes f with
  | None => Raised f
  | Some tainted =>
    Completed (if tainted && bool_decide (integrity f = Ideal)
               then set_integrity Dirty f else f)
  end)).

(** [CaptureFile.update_time_metadata], as far as the file is concerned:
    [float(...)] of the first timestamp raises unless it is a single
    number. *)
Definition update_time_metadata (f : CaptureFile) : attempt :=
  match column_by_alias f "Elapsed Time" (Some 0) with
  | Some (Scalar _) | Some (Series [_]) => Completed f
  | _ => Raised f
  end.

Definition count_where (test : Q -> bool) (col : list Q) : Z :=
  Z.of_nat (length (filter (fun x => test x = true) col)).

(** The [try] block of [trim_time_axis].  A time alias that names several
    columns is taken as raising at once. *)
Definition trim_time_axis_body (relation : string) (cutoff : Q)
    (o : battery_outcome) (properties_raise : bool) (f : CaptureFile)
  : attempt :=
  match header_by_alias f "Elapsed Time" with
  | None => Raised f
  | Some time_alias =>
    match named_columns (data f) time_alias with
    | [c] =>
      let full_time_series := snd c in
      let f :=
        if bool_decide (relation = "Before"%string \/ relation = "Drop"%string)
        then
          let less_than_cutoff_index :=
            count_where (fun t => Qlt_bool t cutoff) full_time_series in
          with_window
            (if bool_decide (relation = "Before"%string)
             then less_than_cutoff_index
             else Z.max (offset f) less_than_cutoff_index)
            (height f) f
        else
          let full_height := Z.of_nat (length full_time_series) in
          let greater_than_cutoff_index :=
            count_where (fun t => Qlt_bool cutoff t) full_time_series in
          if greater_than_cutoff_index <? full_height
          then with_window (offset f)
                           (full_height - greater_than_cutoff_index) f
          else f in
      and_then
        (if (height f <=? offset f) || (frames f <? 2)
         then reset_time_axis o properties_raise f
         else Completed f)
        (fun f =>
      and_then (update_time_metadata f) (fun f =>
      and_then (resize_zero_column f) (fun f =>
      Completed (evaluate_integrity_method o properties_raise f))))
    | _ => Raised f
    end
  end.

(** [CaptureFile.trim_time_axis]: exceptions are logged and dropped. *)
Definition trim_time_axis (relation : string) (cutoff : Q)
    (o : battery_outcome) (properties_raise : bool) (f : CaptureFile)
  : CaptureFile :=
  file_after (trim_time_axis_body relation cutoff o properties_raise f).

(** The zero column has the length of the visible window. *)
Definition zero_col_matches (f : CaptureFile) : Prop :=
  0 <= frames f
  /\ zero_col f = Some (repeat 0%Q (Z.to_nat (frames f))).

(** A capture of five rows with a time and a frametime column, as a
    parser without inspection leaves it. *)
Definition sample_capture : CaptureFile :=
  with_parsed
    {| df_columns := [
         ("Time", [inject_Z 0; inject_Z 1; inject_Z 2; inject_Z 3; inject_Z 4]);
         ("Frametime", [inject_Z 16; inject_Z 17; inject_Z 16; inject_Z 18;
                        inject_Z 16]) ]%string;
       df_rows := 5 |}
    ["Time"; "Frametime"]%string 5
    (set_integrity Ideal
       (set_integrity Pending
          (new_capture_file OtherParser "1.0"
             {[ "1.0"%string :=
                  {[ "Elapsed Time"%string := "Time"%string;
                     "Frametimes"%string := "Frametime"%string ]} ]}))).

(** The trim saved by an earlier session: rows 1 to 3 visible. *)
Definition saved_trim : time_record :=
  {| stored_offset := Some 0%Q; stored_start := Some 1;
     stored_end := Some 4 |}.

(** ** Sample inspection outcomes, used to run the definitions *)

Definition passing (reason : string) : InspectionItem :=
  {| passed := true; violations := 0; description := reason |}.

Definition failing (count : Z) (reason : string) : InspectionItem :=
  {| passed := false; violations := count; description := reason |}.

(** A clean battery. *)
Definition clean_base_checks : presentmon_checks := {|
  application_consistency := passing "Application";
  swapchain_consistency := passing "Swapchain";
  runtime_consistency := passing "Runtime";
  runtime_validity := passing "Runtime type";
  present_flags := passing "Present flags";
  sync_policy_consistency := passing "Sync policy";
  sync_policy_validity := passing "Sync interval";
  tearing_validity := passing "Tearing";
  dropped_frame_validity := passing "Dropped";
  present_mode_consistency := passing "Present mode";
  present_mode_validity := passing "Hardware present mode";
  disp_change_validity := passing "Display change";
  render_queue_depth := passing "Render queue"
|}.

Definition clean_second_gen_checks : second_gen_checks := {|
  pc_latency_validity := passing "Latency";
  gpu_consistency := passing "GPU";
  cpu_consistency := passing "CPU";
  resolution_consistency := passing "Resolution";
  resolution_validity := passing "Windowed";
  pid_consistency := passing "Process ID"
|}.

Definition clean_ocat_checks : ocat_checks := {|
  ocat_resolution_consistency := passing "Resolution";
  ocat_resolution_validity := passing "Windowed";
  ocat_pid_consistency := passing "Process ID"
|}.

(** Clean but for one minor item: no tearing was observed. *)
Definition no_tearing_base_checks : presentmon_checks := {|
  application_consistency := passing "Application";
  swapchain_consistency := passing "Swapchain";
  runtime_consistency := passing "Runtime";
  runtime_validity := passing "Runtime type";
  present_flags := passing "Present flags";
  sync_policy_consistency := passing "Sync policy";
  sync_policy_validity := passing "Sync interval";
  tearing_validity := failing 100 "No tearing was observed";
  dropped_frame_validity := passing "Dropped";
  present_mode_consistency := passing "Present mode";
  present_mode_validity := passing "Hardware present mode";
  disp_change_validity := passing "Display change";
  render_queue_depth := passing "Render queue"
|}.

Definition no_tearing_outcome : battery_outcome := {|
  base_checks := no_tearing_base_checks;
  versioned_checks := clean_second_gen_checks;
  ocat_versioned_checks := clean_ocat_checks
|}.

(** The battery on a file whose headers are empty: no column is found, so
    [inspect_consistency] reports [("Unknown", False, frames())] for each of
    the six uniformity checks, and the first validity check raises on the
    missing "PresentMode" column, leaving the remaining items at
    [default_result]. *)
Definition headerless_base_checks : presentmon_checks := {|
  application_consistency :=
    failing 0 "Application name (Unknown) was not consistent across all frames";
  swapchain_consistency :=
    failing 0 "Swapchain address (Unknown) was not consistent across all frames";
  runtime_consistency :=
    failing 0 "Graphics runtime (Unknown) was not consistent across all frames";
  runtime_validity := default_result;
  present_flags :=
    failing 0 "Present flags were not consistent across all frames";
  sync_policy_consistency :=
    failing 0 "Vertical synchronization policy changed during the capture";
  sync_policy_validity := default_result;
  tearing_validity := default_result;
  dropped_frame_validity := default_result;
  present_mode_consistency :=
    failing 0 "Flip model (Unknown) was not consistent across all frames";
  present_mode_validity := default_result;
  disp_change_validity := default_result;
  render_queue_depth := default_result
|}.

Definition headerless_outcome : battery_outcome := {|
  base_checks := headerless_base_checks;
  versioned_checks := clean_second_gen_checks;
  ocat_versioned_checks := clean_ocat_checks
|}.

(** A FrameView 1.0 capture of two frames that lacks the "Dropped"
    column. *)
Definition frame_without_dropped : DataFrame := {|
  df_columns := [
    ("Application", [0; 0]%Q);
    ("TimeInSeconds", [inject_Z 10; inject_Z 11]);
    ("MsBetweenPresents", [inject_Z 16; inject_Z 17])
  ]%string;
  df_rows := 2
|}.

Definition env_without_dropped : read_env := {|
  first_read := ReadFrame frame_without_dropped false;
  reread := None;
  compress_dataframe := fun frame => frame
|}.

(** ** gui/metadata.py: the store of per-file records *)

(** The values a section holds: JSON's scalars and lists. *)
#[warnings="-register-all"] Inductive json_value : Type :=
| JNull
| JBool (b : bool)
| JInt (n : Z)
| JFloat (q : Q)
| JString (s : string)
| JList (items : list json_value).

(** The store: a dictionary of records by file hash.  A record is the
    dictionary of one file's sections, among them the time stamps under
    "Record"; a section is a dictionary of values.  The store is modelled
    as this module writes it, every section a dictionary. *)
Record metadata_store : Type := {
  _STORAGE_DISABLED : bool;
  _STORAGE : gmap string (gmap string (gmap string json_value))
}.

Definition with_storage
    (records : gmap string (gmap string (gmap string json_value)))
    (m : metadata_store) : metadata_store :=
  {| _STORAGE_DISABLED := _STORAGE_DISABLED m; _STORAGE := records |}.

(** The truth value of a dictionary: it is not empty. *)
Definition dict_truthy {V : Type} (d : gmap string V) : bool :=
  negb (size d =? 0)%nat.

(** [record_exists] *)
Definition record_exists (m : metadata_store) (file_hash section : string)
  : bool :=
  negb (_STORAGE_DISABLED m)
  && match _STORAGE m !! file_hash with
     | Some record =>
       match record !! section with
       | Some content => dict_truthy content
       | None => false
       end
     | None => false
     end.

(** [read_record] at time [now]: the section and the store with the access
    stamped; [None] is the [KeyError] of a record without "Record" (the
    store is untouched then). *)
Definition read_record (now : Z) (file_hash section : string)
    (m : metadata_store) : option (gmap string json_value * metadata_store) :=
  if negb (record_exists m file_hash section) then Some (∅, m)
  else
    record ← _STORAGE m !! file_hash;
    stamp ← record !! "Record"%string;
    let record :=
      <["Record"%string := <["Last Accessed"%string := JInt now]> stamp]>
        record in
    content ← record !! section;
    Some (content, with_storage (<[file_hash := record]> (_STORAGE m)) m).

(** [update_record] at time [now]. *)
Definition update_record (now : Z) (file_hash : string)
    (properties : gmap string json_value) (section : string)
    (m : metadata_store)
  : metadata_store :=
  if _STORAGE_DISABLED m then m
  else
    let stamp : gmap string json_value :=
      <["Last Accessed"%string := JInt now]>
        {["Last Updated"%string := JInt now]} in
    match _STORAGE m !! file_hash with
    | None =>
      with_storage
        (<[file_hash := <[section := properties]>
                          {["Record"%string := stamp]}]> (_STORAGE m)) m
    | Some record =>
      let record := <["Record"%string := stamp]> record in
      let record :=
        match record !! section with
        | Some content => <[section := properties ∪ content]> record
        | None => <[section := properties]> record
        end in
      with_storage (<[file_hash := record]> (_STORAGE m)) m
    end.

(** A call on the store returns or raises; the store is what it is at that
    point. *)
Inductive store_attempt : Type :=
| StoreReturns (m : metadata_store)
| StoreRaises (m : metadata_store).

(** [remove_record] at time [now] *)
Definition remove_record (now : Z) (file_hash section : string)
    (m : metadata_store) : store_attempt :=
  if negb (record_exists m file_hash section) then StoreReturns m
  else
    match _STORAGE m !! file_hash with
    | None => StoreReturns m
    | Some record =>
      let record := delete section record in
      if (1 <? size record)%nat then
        match record !! "Record"%string with
        | Some stamp =>
          StoreReturns
            (with_storage
               (<[file_hash :=
                    <["Record"%string :=
                        <["Last Updated"%string := JInt now]> stamp]> record]>
                  (_STORAGE m)) m)
        | None =>
          StoreRaises (with_storage (<[file_hash := record]> (_STORAGE m)) m)
        end
      else StoreReturns (with_storage (delete file_hash (_STORAGE m)) m)
    end.

(** [v["Record"]["Last Accessed"]] as a number; [None] where the lookup or
    the subtraction from [current_time] raises. *)
Definition last_accessed (record : gmap string (gmap string json_value))
  : option Q :=
  stamp ← record !! "Record"%string;
  value ← stamp !! "Last Accessed"%string;
  match value with
  | JInt n => Some (inject_Z n)
  | JFloat q => Some q
  | JBool b => Some (if b then 1 else 0)%Q
  | JNull | JString _ | JList _ => None
  end.

Definition unexpired (now expiration_time : Z)
    (record : gmap string (gmap string json_value))
  : bool :=
  match last_accessed record with
  | Some accessed =>
    Qle_bool (inject_Z now - accessed) (inject_Z expiration_time)
  | None => false
  end.

(** The module's start-up: [expiration_days] is the "ExpirationTime"
    setting, [loaded] the content of metadata.json ([None] when the file
    is missing or unreadable), [now] the current time. *)
Definition load_storage (expiration_days : Z)
    (loaded : option (gmap string (gmap string (gmap string json_value))))
    (now : Z)
  : metadata_store :=
  let _EXPIRATION_TIME := expiration_days * 86400 in
  let disabled := _EXPIRATION_TIME =? 0 in
  {| _STORAGE_DISABLED := disabled;
     _STORAGE :=
       if disabled then ∅
       else
         match loaded with
         | None => ∅
         | Some records =>
           if forallb (fun kv => bool_decide (is_Some (last_accessed (snd kv))))
                      (map_to_list records)
           then filter (fun kv => unexpired now _EXPIRATION_TIME (snd kv) = true)
                       records
           else ∅
         end |}.

(** What the store holds for a section; the empty dictionary when it holds
    nothing. *)
Definition stored_section (m : metadata_store) (file_hash section : string)
  : gmap string json_value :=
  default ∅ (record ← _STORAGE m !! file_hash; record !! section).

(** Every record carries its time stamps. *)
Definition well_stamped (m : metadata_store) : Prop :=
  forall file_hash record,
    _STORAGE m !! file_hash = Some record ->
    is_Some (record !! "Record"%string).

(** ** core/utilities.py: [preserve_marks] *)

(** [s.replace("*", "")] *)
Fixpoint remove_stars (s : string) : string :=
  match s with
  | EmptyString => EmptyString
  | String c rest =>
    if Ascii.eqb c "*" then remove_stars rest else String c (remove_stars rest)
  end.

(** [s.endswith("*")] *)
Fixpoint endswith_star (s : string) : bool :=
  match s with
  | EmptyString => false
  | String c EmptyString => Ascii.eqb c "*"
  | String _ rest => endswith_star rest
  end.

(** [s.removesuffix("*")] for an [s] that ends with the asterisk: [s]
    without its last character. *)
Fixpoint drop_last (s : string) : string :=
  match s with
  | EmptyString => EmptyString
  | String _ EmptyString => EmptyString
  | String c rest => String c (drop_last rest)
  end.

(** The loop [while s.endswith("*"): s = s.removesuffix("*")], run for at
    most [fuel] rounds. *)
Fixpoint strip_marks_loop (fuel : nat) (s : string) : string :=
  match fuel with
  | O => s
  | S fuel' =>
    if endswith_star s then strip_marks_loop fuel' (drop_last s) else s
  end.

(** The loop with as many rounds as the string has characters, which is
    enough for it to end by its own test. *)
Definition strip_marks (s : string) : string :=
  strip_marks_loop (String.length s) s.

Definition preserve_marks (previous_value new_value : string) : string :=
  let previous_value := strip previous_value in
  let new_value := strip new_value in
  if (remove_stars new_value =? "")%string then previous_value
  else
    let marked_previous_value := endswith_star previous_value in
    let marked_new_value := endswith_star new_value in
    if marked_previous_value && negb marked_new_value
    then (new_value ++ "*")%string
    else if negb marked_previous_value && marked_new_value
    then strip_marks new_value
    else new_value.

(** ** formats/presentmon.py: saved properties *)

(** [PresentMon.consistent_property]: what
    [self.inspection.get(f"{header} Consistency", False)] returns, with
    [None] for the default [False]. *)
Definition consistent_property (f : CaptureFile) (header : string)
  : option inspection_value :=
  inspection f !! (header ++ " Consistency")%string.

(** [PresentMon.valid_property] *)
Definition valid_property (f : CaptureFile) (header : string)
  : option inspection_value :=
  inspection f !! (header ++ " Validity")%string.

(** The truth value Python gives to such a result: an [InspectionItem] is
    a dataclass instance without [__bool__] or [__len__], hence true
    whatever its [passed] field; a string is true unless empty. *)
Definition truth_value (result : option inspection_value) : bool :=
  match result with
  | Some (Item _) => true
  | Some (Text text) => negb (text =? "")%string
  | None => false
  end.

(** The dictionary [pairs] of [PresentMon.verify_saved_properties], in
    its order, each value reduced to the truth value the loop tests. *)
Definition verification_pairs (f : CaptureFile) : list (string * bool) :=
  [("Application", truth_value (consistent_property f "Application"));
   ("Resolution", truth_value (consistent_property f "Resolution")
                  && truth_value (valid_property f "Resolution"));
   ("Runtime", truth_value (consistent_property f "Runtime")
               && truth_value (valid_property f "Runtime"));
   ("GPU", truth_value (consistent_property f "GPU"))].

(** How the loop ends: normally, or by the [KeyError] or [AttributeError]
    of [self.properties[prop].endswith]; [self.properties] keeps what
    was written before. *)
Inductive verification : Type :=
| Verified (properties : gmap string json_value)
| VerificationRaises (properties : gmap string json_value).

(** One round of the loop of [verify_saved_properties]. *)
Definition verify_property (properties : gmap string json_value)
    (prop : string) (verified : bool) : verification :=
  match properties !! prop with
  | Some (JString text) =>
    if negb verified && negb (endswith_star text)
    then Verified (<[prop := JString (text ++ "*")]> properties)
    else if verified && endswith_star text
    then Verified (<[prop := JString (strip_marks text)]> properties)
    else Verified properties
  | _ => VerificationRaises properties
  end.

Fixpoint verify_pairs (pairs : list (string * bool))
    (properties : gmap string json_value) : verification :=
  match pairs with
  | [] => Verified properties
  | (prop, verified) :: rest =>
    match verify_property properties prop verified with
    | Verified properties => verify_pairs rest properties
    | raised => raised
    end
  end.

(** [PresentMon.verify_saved_properties] on [self.properties]. *)
Definition verify_saved_properties (f : CaptureFile)
    (properties : gmap string json_value) : verification :=
  verify_pairs (verification_pairs f) properties.

(** A capture whose GPU consistency item failed, restored with a marked
    GPU name and an unmarked application name. *)
Definition failed_gpu_capture : CaptureFile :=
  with_inspection
    {[ "GPU Consistency" :=
         Item {| passed := false; violations := 3;
                 description := "GPU changed" |} ]}
    (new_capture_file OtherParser "1.0" ∅).

Definition saved_properties : gmap string json_value :=
  {[ "Application" := JString "Game.exe";
     "Resolution" := JString "1920x1080*";
     "Runtime" := JString "DXGI";
     "GPU" := JString "RTX 4090*";
     "Comments" := JString "None" ]}.

(** ** formats/fraps.py *)

(** What [FRAPS.read_log] and the selection [file_data["Time (ms)"]]
    give: the read raises, the table has no such column, or the column's
    values, which the read holds as float32. *)
Inductive fraps_log : Type :=
| UnreadableLog
| NoTimeColumn (rows : nat)
| TimeColumn (values : list Q).

(** [values[i]] on a numpy array: a negative index counts from the end;
    [None] is the [IndexError]. *)
Definition np_item (values : list Q) (i : Z) : option Q :=
  let n := Z.of_nat (length values) in
  if (0 <=? i) && (i <? n) then values !! Z.to_nat i
  else if (- n <=? i) && (i <? 0) then values !! Z.to_nat (n + i)
  else None.

(** One element of the list comprehension of [FRAPS.parse_file]. *)
Definition segment_slope (frames : list Q) (step x : Z) : option bool :=
  match np_item frames (x * step + step - 1), np_item frames (x * step) with
  | Some y2, Some y1 => Some (fgt (fdiv (y2 - y1) (inject_Z (step - 1))) (1 # 10))
  | _, _ => None
  end.

(** The list comprehension over [range(segments)]; [None] when one of
    its elements raises. *)
Fixpoint all_slopes (frames : list Q) (step : Z) (segments : list Z)
  : option (list bool) :=
  match segments with
  | [] => Some []
  | x :: rest =>
    match segment_slope frames step x with
    | Some slope =>
      match all_slopes frames step rest with
      | Some slopes => Some (slope :: slopes)
      | None => None
      end
    | None => None
    end
  end.

(** [itertools.accumulate(values, initial=total)] *)
Fixpoint accumulate (values : list Q) (total : Q) : list Q :=
  total :: match values with
           | [] => []
           | x :: rest => accumulate rest (total + x)%Q
           end.

(** [values[:-1]] *)
Definition all_but_last (values : list Q) : list Q :=
  take (length values - 1) values.

(** [[next - cur for cur, next in zip(frames, frames[1:])]] *)
Definition frame_differences (frames : list Q) : list Q :=
  zip_with (fun cur next => (next - cur)%Q) frames (drop 1 frames).

(** The table [parse_file] fills: [data["Frametimes"] = frames], then
    [data["Time (ms)"] = time]. *)
Definition fraps_frame (frames time : list Q) : DataFrame :=
  {| df_columns := [("Frametimes"%string, frames); ("Time (ms)"%string, time)];
     df_rows := length frames |}.

(** [FRAPS.parse_file]: the pair it returns and the file it leaves.  An
    exception inside the [try] block is logged, and the [finally] clause
    returns the height and table as they are at that point.  The sums,
    differences and quotients are taken exactly, where numpy rounds
    each of them to float32: the values of the two columns are those of
    the source's formulas, not their roundings. *)
Definition fraps_parse_file (log : fraps_log) (f : CaptureFile)
  : (Z * DataFrame) * CaptureFile :=
  match log with
  | UnreadableLog => ((0, empty_frame), f)
  | NoTimeColumn rows =>
    ((Z.of_nat rows, empty_frame), set_integrity Ideal f)
  | TimeColumn frames =>
    let f := set_integrity Ideal f in
    let height := Z.of_nat (length frames) in
    let segments := 5 in
    let step := height / segments in
    match all_slopes frames step [0; 1; 2; 3; 4] with
    | None => ((height, empty_frame), f)
    | Some slopes =>
      let cumulative := forallb id slopes in
      if cumulative then
        let time := map (fun t => (t / 1000)%Q) (all_but_last frames) in
        let frames := frame_differences frames in
        ((Z.of_nat (length frames), fraps_frame frames time), f)
      else
        let time :=
          map (fun t => (t / 1000)%Q) (accumulate (all_but_last frames) 0) in
        ((height, fraps_frame frames time), f)
    end
  end.

(** ** core/configuration.py *)

(** The module's table of default values, in the order of the source. *)
Definition DEFAULTS : list (string * list (string * string)) := [
  ("General", [
     ("Version", "0.0.0");
     ("KeepOldConfig", "False");
     ("UseDarkStylesheet", "True");
     ("TimeScale", "Seconds");
     ("DiminishFallbacks", "True");
     ("LastUsedPath", EmptyString);
     ("MaxIOThreads", "8");
     ("DropNAColumns", "True");
     ("CompressionMinSizeMB", "20");
     ("DecimalPlaces", "2") ]);
  ("Plotting", [
     ("Renderer", "Software");
     ("Antialiasing", "Enabled");
     ("PlotEmptyData", "False");
     ("NormalAlpha", "224");
     ("EmphasizedAlpha", "255");
     ("DiminishedAlpha", "32");
     ("AxisLabelFontSize", "8");
     ("AxisLabelOffset", "6");
     ("AxisTickLength", "-8");
     ("MainTitleFontSize", "14");
     ("MainTitleFormat", "<b>[DataSource]</b> | [Application] ([Runtime]) at [Resolution] w/ [GPU]");
     ("LegendItemFormat", "[FileName] | [Comments]");
     ("LegendItemFontSize", "10") ]);
  ("Crosshair", [
     ("CursorUpdateRate", "30");
     ("UseDownsampling", "Automatic");
     ("SampleRate", "1") ]);
  ("Line", [
     ("ClampXMinimum", "True");
     ("ClampYMinimum", "True") ]);
  ("Percentiles", [
     ("ClampYMinimum", "True");
     ("PercentileStart", "90.000");
     ("PercentileEnd", "99.999");
     ("PercentileStep", "0.010") ]);
  ("Histogram", [
     ("ClampXMinimum", "True");
     ("ClampYMinimum", "True");
     ("HistogramBinSize", "0") ]);
  ("Box", [
     ("ClampXMinimum", "True");
     ("ClampYMinimum", "True");
     ("OutlierValues", "Min/Max Values");
     ("HideLegend", "True");
     ("Height", "30");
     ("Spacing", "35") ]);
  ("Scatter", [
     ("ClampXMinimum", "True");
     ("ClampYMinimum", "True") ]);
  ("Experience", [
     ("CalloutTextSize", "10");
     ("HideLegend", "True");
     ("Height", "30");
     ("Spacing", "33") ]);
  ("StutterHeuristic", [
     ("StutterDeltaMs", "4.0");
     ("StutterDeltaPct", "20.0");
     ("StutterWindowSize", "19");
     ("StutterWarnPct", "1.0");
     ("StutterWarnAvg", "60.0");
     ("StutterWarnMax", "200.0") ]);
  ("OscillationHeuristic", [
     ("TestForOscillation", "True");
     ("OscDeltaMs", "4.0");
     ("OscDeltaPct", "20.0");
     ("OscWarnPct", "3.0") ]);
  ("BatteryLife", [
     ("BatteryMaxLevel", "98");
     ("BatteryMinLevel", "3") ]);
  ("Exporting", [
     ("SavePath", "saved/");
     ("ImageFormat", "PNG") ]);
  ("Logger", [
     ("LoggingPath", "logs/");
     ("MaxFiles", "20") ]);
  ("Metadata", [
     ("ExpirationTime", "7") ]);
  ("Statistics", [
     ("PercentileMethod", "Inclusive");
     ("Visibility",
        "eyJDYXB0dXJlXG5UeXBlIjogdHJ1ZSwgIkNhcHR1cmVcbkludGVncml0eSI6IHRy" ++
        "dWUsICJBcHBsaWNhdGlvbiI6IHRydWUsICJSZXNvbHV0aW9uIjogdHJ1ZSwgIlJ1" ++
        "bnRpbWUiOiB0cnVlLCAiR1BVIjogdHJ1ZSwgIkNvbW1lbnRzIjogdHJ1ZSwgIkR1" ++
        "cmF0aW9uIChzKSI6IHRydWUsICJOdW1iZXJcbm9mIEZyYW1lcyI6IGZhbHNlLCAi" ++
        "U3luY2VkXG5GcmFtZXMiOiBmYWxzZSwgIk1pbmltdW0gRlBTIjogZmFsc2UsICJB" ++
        "dmVyYWdlIEZQUyI6IHRydWUsICJNZWRpYW4gRlBTIjogZmFsc2UsICJNYXhpbXVt" ++
        "IEZQUyI6IGZhbHNlLCAiMC4xJSBMb3cgRlBTIjogdHJ1ZSwgIjAuMSUgRlBTIjog" ++
        "dHJ1ZSwgIjElIExvdyBGUFMiOiB0cnVlLCAiMSUgRlBTIjogdHJ1ZSwgIjUlIEZQ" ++
        "UyI6IGZhbHNlLCAiMTAlIEZQUyI6IGZhbHNlLCAiMC4xJSBMb3cgRlBTXG4vIEF2" ++
        "ZXJhZ2UgRlBTIjogZmFsc2UsICIwLjElIEZQU1xuLyBBdmVyYWdlIEZQUyI6IGZh" ++
        "bHNlLCAiMSUgTG93IEZQU1xuLyBBdmVyYWdlIEZQUyI6IGZhbHNlLCAiMSUgRlBT" ++
        "XG4vIEF2ZXJhZ2UgRlBTIjogZmFsc2UsICI1JSBGUFNcbi8gQXZlcmFnZSBGUFMi" ++
        "OiBmYWxzZSwgIjEwJSBGUFNcbi8gQXZlcmFnZSBGUFMiOiBmYWxzZSwgIk51bWJl" ++
        "ciBvZlxuU3R1dHRlciBFdmVudHMiOiBmYWxzZSwgIlByb3BvcnRpb25cbm9mIFN0" ++
        "dXR0ZXIiOiB0cnVlLCAiQXZlcmFnZVxuU3R1dHRlciI6IHRydWUsICJNYXhpbXVt" ++
        "XG5TdHV0dGVyIjogdHJ1ZSwgIkF2ZXJhZ2UgU3lzdGVtXG5MYXRlbmN5IChtcyki" ++
        "OiB0cnVlLCAiQXZlcmFnZSBQZXJmLVxucGVyLVdhdHQgKEYvSikiOiB0cnVlLCAi" ++
        "QXZlcmFnZSBHUFVcbkJvYXJkIFBvd2VyIChXKSI6IHRydWUsICJBdmVyYWdlIEdQ" ++
        "VVxuQ2hpcCBQb3dlciAoVykiOiBmYWxzZSwgIkF2ZXJhZ2UgR1BVXG5GcmVxdWVu" ++
        "Y3kgKE1IeikiOiB0cnVlLCAiQXZlcmFnZSBHUFVcblRlbXBlcmF0dXJlIChcdTAw" ++
        "YjBDKSI6IHRydWUsICJBdmVyYWdlIEdQVVxuVXRpbGl6YXRpb24gKCUpIjogdHJ1" ++
        "ZSwgIkF2ZXJhZ2UgR1BVXG5Wb2x0YWdlIChWKSI6IGZhbHNlLCAiQXZlcmFnZSBD" ++
        "UFVcblBvd2VyIChXKSI6IGZhbHNlLCAiQXZlcmFnZSBDUFVcbkZyZXF1ZW5jeSAo" ++
        "TUh6KSI6IGZhbHNlLCAiQXZlcmFnZSBDUFVcblRlbXBlcmF0dXJlIChcdTAwYjBD" ++
        "KSI6IGZhbHNlLCAiQXZlcmFnZSBDUFVcblV0aWxpemF0aW9uICglKSI6IGZhbHNl" ++
        "LCAiQXZlcmFnZSBCYXR0ZXJ5XG5DaGFyZ2UgUmF0ZSAoVykiOiBmYWxzZSwgIlBy" ++
        "b2plY3RlZFxuQmF0dGVyeSBMaWZlIChzKSI6IGZhbHNlLCAiRmlsZSBOYW1lIjog" ++
        "dHJ1ZSwgIkZpbGUgTG9jYXRpb24iOiB0cnVlfQ==") ]);
  ("Development", [
     ("StopwatchCI", "95.0");
     ("StopwatchStdError", "0.05");
     ("StopwatchTimeLimit", "3");
     ("TimekeeperKey", "Total");
     ("SignalProxyRate", "30");
     ("UpdateTimeout", "10") ])
]%string.

(** [DEFAULTS[section][option]]; [None] is the [KeyError]. *)
Definition default_of (section option_name : string) : option string :=
  match (list_to_map DEFAULTS : gmap string (list (string * string)))
          !! section with
  | Some options => (list_to_map options : gmap string string) !! option_name
  | None => None
  end.

(** The state of the module's [RawConfigParser]: the options of the
    DEFAULT section, which every section falls back on, and the named
    sections. *)
Record config_parser : Type := {
  _defaults : gmap string string;
  _sections : gmap string (gmap string string)
}.

(** [_PARSER.get(section, option)]; [None] is [NoSectionError] or
    [NoOptionError]. *)
Definition parser_get (p : config_parser) (section option_name : string)
  : option string :=
  match _sections p !! section with
  | Some options =>
    match options !! option_name with
    | Some value => Some value
    | None => _defaults p !! option_name
    end
  | None =>
    if bool_decide (section = "DEFAULT"%string) then _defaults p !! option_name
    else None
  end.

(** [_PARSER.set(section, option, value)]; [None] is [NoSectionError]. *)
Definition parser_set (p : config_parser) (section option_name value : string)
  : option config_parser :=
  if bool_decide (section = EmptyString \/ section = "DEFAULT"%string)
  then Some {| _defaults := <[option_name := value]> (_defaults p);
               _sections := _sections p |}
  else
    match _sections p !! section with
    | Some options =>
      Some {| _defaults := _defaults p;
              _sections := <[section := <[option_name := value]> options]>
                             (_sections p) |}
    | None => None
    end.

(** [_PARSER[key] = value]: the section is emptied, created if need be,
    and filled from the dictionary.  Under the name DEFAULT it is the
    defaults that are replaced; a section of the empty name is created
    empty and its options go to the defaults, which is where [set] writes
    for an empty name. *)
Definition parser_setitem (p : config_parser) (key : string)
    (value : gmap string string) : config_parser :=
  if bool_decide (key = "DEFAULT"%string)
  then {| _defaults := value; _sections := _sections p |}
  else if bool_decide (key = EmptyString)
  then {| _defaults := value ∪ _defaults p;
          _sections := <[key := ∅]> (_sections p) |}
  else {| _defaults := _defaults p;
          _sections := <[key := value]> (_sections p) |}.

(** [save_config], as far as the parser goes: the file it writes is not
    part of the state. *)
Definition save_config (run_from_exe : bool) (p : config_parser)
  : config_parser :=
  if run_from_exe
  then {| _defaults := _defaults p;
          _sections := delete "Development"%string (_sections p) |}
  else p.

(** A call that changes the parser returns or raises; the parser keeps
    what was written. *)
Inductive config_attempt : Type :=
| ConfigDone (p : config_parser)
| ConfigRaises (p : config_parser).

(** The parser a call leaves. *)
Definition parser_after (a : config_attempt) : config_parser :=
  match a with
  | ConfigDone p => p
  | ConfigRaises p => p
  end.

(** The loop [for key in DEFAULTS.keys(): _PARSER[key] = DEFAULTS[key]]
    over a table. *)
Definition restore_sections (table : list (string * list (string * string)))
    (p : config_parser) : config_parser :=
  fold_left
    (fun p entry => parser_setitem p (fst entry) (list_to_map (snd entry)))
    table p.

(** [set_defaults]; it raises when [_PARSER["General"]] does.  The file
    [save_config] writes is not part of the state. *)
Definition set_defaults (run_from_exe : bool) (version : string)
    (p : config_parser) : config_attempt :=
  let p := restore_sections DEFAULTS p in
  if bool_decide (version = EmptyString)
  then ConfigDone (save_config run_from_exe p)
  else
    match _sections p !! "General"%string with
    | Some _ =>
      match parser_set p "General" "Version" version with
      | Some p => ConfigDone (save_config run_from_exe p)
      | None => ConfigRaises p
      end
    | None => ConfigRaises p
    end.

(** The handler of [setting]: the value is written back, and a missing
    section restores every default; the [finally] clause returns the
    value whatever happened. *)
Definition write_back (run_from_exe : bool)
    (section option_name config_value : string) (p : config_parser)
  : option string * config_parser :=
  match parser_set p section option_name config_value with
  | Some p => (Some config_value, p)
  | None =>
    (Some config_value, parser_after (set_defaults run_from_exe EmptyString p))
  end.

(** [setting]; [run_from_exe] is [_RUN_FROM_EXE], and no caller passes
    further keyword arguments.  [None] is the [UnboundLocalError] of an
    option the table does not know.  A blank stored value is bound to
    [config_value] before [ValueError] is raised, so it is the value the
    handler writes back and the [finally] clause returns. *)
Definition setting (run_from_exe : bool) (section option_name : string)
    (default : bool) (p : config_parser) : option string * config_parser :=
  match default_of section option_name with
  | None => (None, p)
  | Some config_value =>
    if default || (run_from_exe && bool_decide (section = "Development"%string))
    then (Some config_value, p)
    else
      match parser_get p section option_name with
      | Some config_value =>
        if bool_decide (strip config_value = EmptyString)
        then write_back run_from_exe section option_name config_value p
        else (Some config_value, p)
      | None => write_back run_from_exe section option_name config_value p
      end
  end.

(** [setting_bool] *)
Definition setting_bool (run_from_exe : bool) (section option_name : string)
    (default : bool) (p : config_parser) : option bool * config_parser :=
  let '(value, p) := setting run_from_exe section option_name default p in
  (option_map (fun v => bool_decide (v = "True"%string)) value, p).

(** ["." in new_value] *)
Definition has_dot (s : string) : bool :=
  match index 0 "." s with
  | Some _ => true
  | None => false
  end.

(** [set_value] on [str(new_value)]. [float_round3] stands for
    [str(round(float(new_value), 3))], with [None] for the [ValueError].
    The fallback of the first lookup is the table itself, which no string
    equals. *)
Definition set_value (float_round3 : string -> option string)
    (section option_name new_value : string) (p : config_parser)
  : config_attempt :=
  if bool_decide (parser_get p section option_name = Some new_value)
  then ConfigDone p
  else
    let new_value :=
      if has_dot new_value
      then default new_value (float_round3 new_value)
      else new_value in
    match parser_set p section option_name new_value with
    | Some p => ConfigDone p
    | None => ConfigRaises p
    end.

(** A parser read from a file that holds one customised option. *)
Definition customised_parser : config_parser :=
  {| _defaults := ∅;
     _sections :=
       {[ "StutterHeuristic"%string :=
            {[ "StutterDeltaMs"%string := "6.0"%string ]} ]} |}.

(** ** formats/capturefile.py: fallback headers *)

(** [generic_phrase in text], Python's substring test. *)
Definition is_substring (generic_phrase text : string) : bool :=
  match index 0 generic_phrase text with
  | Some _ => true
  | None => false
  end.

(** [CaptureFile.register_fallback_header].  [FALLBACK_HEADER_ALIASES] is
    the class attribute, [None] where the class has none.  For a version
    without an entry [fallback_aliases] is the string "None": the
    membership test is then a substring test, and [str.get] raises. *)
Definition register_fallback_header
    (FALLBACK_HEADER_ALIASES : option (gmap string (gmap string string)))
    (generic_phrase : string) (f : CaptureFile) : attempt :=
  match FALLBACK_HEADER_ALIASES with
  | None => Completed f
  | Some tables =>
    match tables !! version f with
    | Some aliases =>
      match aliases !! generic_phrase with
      | None => Completed f
      | Some fallback_header =>
        Completed
          (with_fallbacks_in_use
             (<[generic_phrase := fallback_header]> (fallbacks_in_use f)) f)
      end
    | None =>
      if is_substring generic_phrase "None" then Raised f else Completed f
    end
  end.

(** [CaptureFile.remove_fallback_header] *)
Definition remove_fallback_header (generic_phrase : string) (f : CaptureFile)
  : CaptureFile :=
  match fallbacks_in_use f !! generic_phrase with
  | Some _ =>
    with_fallbacks_in_use (delete generic_phrase (fallbacks_in_use f)) f
  | None => f
  end.

(** ** gui/plotobject.py: a pass over the hashed sections *)

(** Statistics sections set one after the other, as
    [PlotObject.calculate_stats] does. *)
Definition run_sections (none_hash : Z) (sections : list stats_section)
    (s : session) : session :=
  fold_left (fun s sec => set_section_metrics none_hash sec s) sections s.

(** The seven hashed sections of [PlotObject.calculate_stats], in its
    order.  The capture metrics, which are not hashed, and the handler
    around the whole are left out. *)
Definition calculate_hashed_stats (none_hash : Z) (env : stats_environment)
    (s : session) : session :=
  run_sections none_hash (hashed_sections env) s.

(** A section is settled when setting it again finds the guard closed, no
    counter, or the stored hash of the present window and criteria. *)
Definition settled (none_hash : Z) (sec : stats_section) (s : session) : Prop :=
  section_guard sec (file (plot_object s)) = true
  \/ _cache_hits s !! section_name sec = None
  \/ _hashes (plot_object s) !! section_name sec
     = Some (tuple_hash_lanes
               (map (value_hash none_hash)
                    (PyInt (offset (file (plot_object s)))
                     :: PyInt (height (file (plot_object s)))
                     :: section_criteria sec))).

(** ** gui/plotobject.py: the data sources offered for plotting *)

(** [list(dict.fromkeys(keys))]: the first occurrences, in order. *)
Definition dict_fromkeys (keys : list string) : list string :=
  fold_left
    (fun unique key => if bool_decide (key ∈ unique) then unique
                       else unique ++ [key])
    keys [].

(** The order of [str]: by code point, which on UTF-8 bytes is the order
    of the bytes. *)
Definition string_le (a b : string) : Prop := (a <=? b)%string = true.

#[global] Instance string_le_dec : RelDecision string_le.
Proof. intros a b. unfold string_le. apply _. Defined.

(** [PlotObject.collect_file_headers]: the new value of
    [PlotObject.unique_data_sources].  [merged_headers.sort()] is the
    sorted arrangement of the list. *)
Definition collect_file_headers (unique_data_sources headers : list string)
  : list string :=
  let merged_headers := dict_fromkeys (unique_data_sources ++ headers) in
  if bool_decide (length merged_headers <> length unique_data_sources)
  then merge_sort string_le merged_headers
  else unique_data_sources.

(** ** formats/capturefile.py: the cast to float32 in [stutter_heuristic] *)

(** [floor (log2 x)] of a positive rational. *)
Definition floor_log2 (x : Q) : Z :=
  let k := Z.log2 (Qnum x) - Z.log2 (Z.pos (Qden x)) in
  if Qle_bool (2 ^ k) x then k else k - 1.

(** The float32 nearest to a finite double [x], as the cast
    [Series(..., dtype=float32)] picks it: a significand of 24 bits,
    ties to the even one, gradual underflow below [2 ^ -126], and an
    infinity from [2 ^ 128 - 2 ^ 103] on. *)
Definition cast_float32 (x : Q) : fval :=
  if Qeq_bool x 0 then Finite 0
  else
    let exponent := Z.max (floor_log2 (Qabs x)) (-126) in
    let quantum := (2 ^ (exponent - 23))%Q in
    let magnitude :=
      (inject_Z (round_half_even (Qabs x / quantum)) * quantum)%Q in
    if Qle_bool (2 ^ 128) magnitude
    then (if Qlt_bool x 0 then NegInf else PosInf)
    else Finite (Qred (if Qlt_bool x 0 then - magnitude else magnitude)).

Definition finite_value (x : fval) : option Q :=
  match x with
  | Finite q => Some q
  | PosInf | NegInf | NaN => None
  end.

(** [Series(self.frametimes(), dtype=float32)] when no value overflows;
    [None] when the cast series holds an infinity. *)
Definition float32_series (values : list Q) : option (list Q) :=
  mapM (fun x => finite_value (cast_float32 x)) values.

(** [CaptureFile.calculate_stutter], that is [stutter_heuristic] as a
    whole: [frametimes] is what [self.frametimes()] returns, the first
    statement casts it to float32, and the rest runs on the cast series;
    an infinity in it ends in [invalid_stutter]. *)
Definition calculate_stutter (cfg : heuristic_settings) (frametimes : list Q)
  : Stutter :=
  match float32_series frametimes with
  | Some cast_frametimes => stutter_heuristic cfg cast_frametimes
  | None => invalid_stutter (length frametimes)
  end.

(** Twelve frames of 12.002 ms, one of 16.002 ms and twelve of 12.002 ms:
    the odd one is 4 ms off the others as a double. *)
Definition rounded_spike : list Q :=
  single_spike (12002 # 1000) (16002 # 1000).

(** ** Notions used to state the properties *)

(** How often [h] occurs in [l]. *)
Definition occurrences (h : string) (l : list string) : nat :=
  length (filter (fun x => x = h) l).

(** The loop of [find_duplicate_headers], from any state of its two
    lists. *)
Definition duplicate_scan (hs : list string) (state : list string * list string)
  : list string * list string :=
  fold_left
    (fun '(unique_headers, duplicates) header =>
       if bool_decide (header ∈ unique_headers)
       then (unique_headers, duplicates ++ [header])
       else (unique_headers ++ [header], duplicates))
    hs state.

(** What the integrity evaluation leaves alone.  For the fallback
    headers this is so of [evaluate_integrity] as modelled, without
    [register_fallbacks]: in the source the entry of "System Latency"
    may change on a FrameView file of version 1.4, and no other. *)
Definition same_table (f f' : CaptureFile) : Prop :=
  parser f' = parser f /\ version f' = version f
  /\ HEADER_ALIASES f' = HEADER_ALIASES f /\ headers f' = headers f
  /\ data f' = data f /\ fallbacks_in_use f' = fallbacks_in_use f.

(** No grade is signalled twice in a row. *)
Definition no_repeated_signal (emitted : list Integrity) : Prop :=
  forall i a b, emitted !! i = Some a -> emitted !! S i = Some b -> a <> b.

(** The signal log is in step with the object: it starts with [Pending],
    never repeats a grade, and ends with the current grade. *)
Definition signals_in_step (f : CaptureFile) : Prop :=
  head (signals f) = Some Pending
  /\ last (signals f) = Some (integrity f)
  /\ no_repeated_signal (signals f).

(* ===================================================================== *)
(** * Part II: properties                                                 *)
(* ===================================================================== *)

(** ** Boolean comparisons on [Q] *)

Lemma Qlt_bool_iff (a b : Q) : Qlt_bool a b = true <-> (a < b)%Q.
Proof.
  unfold Qlt_bool. rewrite negb_true_iff. split.
  - intros H. apply Qnot_le_lt. intros Hle.
    apply Qle_bool_iff in Hle. congruence.
  - intros H. destruct (Qle_bool b a) eqn:E; [|reflexivity].
    apply Qle_bool_iff in E. exfalso. exact (Qlt_not_le _ _ H E).
Qed.

Lemma Qlt_bool_false_iff (a b : Q) : Qlt_bool a b = false <-> (b <= a)%Q.
Proof.
  unfold Qlt_bool. rewrite negb_false_iff. apply Qle_bool_iff.
Qed.

Lemma Qle_bool_false_iff (a b : Q) : Qle_bool a b = false <-> (b < a)%Q.
Proof.
  split.
  - intros H. apply Qnot_le_lt. intros Hle.
    apply Qle_bool_iff in Hle. congruence.
  - intros H. destruct (Qle_bool a b) eqn:E; [|reflexivity].
    apply Qle_bool_iff in E. exfalso. exact (Qlt_not_le _ _ H E).
Qed.

Ltac Qbool_to_prop :=
  repeat match goal with
  | H : Qle_bool _ _ = true |- _ => apply Qle_bool_iff in H
  | H : Qle_bool _ _ = false |- _ => apply Qle_bool_false_iff in H
  | H : Qlt_bool _ _ = true |- _ => apply Qlt_bool_iff in H
  | H : Qlt_bool _ _ = false |- _ => apply Qlt_bool_false_iff in H
  | H : (_ || _)%bool = true |- _ => apply orb_true_iff in H
  | H : (_ || _)%bool = false |- _ => apply orb_false_iff in H; destruct H
  | H : (_ && _)%bool = true |- _ => apply andb_true_iff in H; destruct H
  end.

(** ** Dtype selection (claim C3) *)

(** The int64-cast test recognises every integral value of the int64 range,
    and nothing but integral values. *)
Lemma first_is_integral_sound (x : Q) :
  first_is_integral x = true -> (x == inject_Z (astype_int64 x))%Q.
Proof.
  unfold first_is_integral. intros H. apply Qeq_bool_iff in H.
  apply Qplus_inj_r with (z := (- inject_Z (astype_int64 x))%Q).
  rewrite Qplus_opp_r. exact H.
Qed.

Lemma first_is_integral_complete (z : Z) :
  INT64_MIN <= z <= INT64_MAX -> first_is_integral (inject_Z z) = true.
Proof.
  intros Hz. unfold first_is_integral, astype_int64. simpl.
  rewrite Z.quot_1_r.
  replace ((INT64_MIN <=? z) && (z <=? INT64_MAX))%bool with true.
  - apply Qeq_bool_iff. unfold Qminus. apply Qplus_opp_r.
  - symmetry. apply andb_true_iff. split; apply Z.leb_le; lia.
Qed.

Lemma inject_Z_le_iff (a b : Z) : (inject_Z a <= inject_Z b)%Q <-> a <= b.
Proof. rewrite Zle_Qle. reflexivity. Qed.

Lemma inject_Z_lt_iff (a b : Z) : (inject_Z a < inject_Z b)%Q <-> a < b.
Proof. rewrite Zlt_Qlt. reflexivity. Qed.

(** C3, the amended statement.  For a numeric array whose first value
    passes the integrality test: when the minimum is non-negative and the
    maximum is below 2^32 the selected dtype is the narrowest of
    uint8/uint16/uint32 that holds the observed range, i.e. [0 <= min] and
    [max < 2^width]; when the minimum is negative the result is int8,
    int16 or int32 or no dtype at all: int8 when both extremes lie within
    its bounds, int16 (int32) when both lie within its bounds and both
    outside those of int8 (int16), and no dtype when both lie outside the
    bounds of int32.  When the first value is not integral the result is
    float32.  No 64-bit dtype is ever selected. *)
Theorem return_optimal_dtype_tiers
    (items : list Q) (first : Q) (rest : list Q) (mn mx : Q) :
  items = first :: rest ->
  np_min items = Some mn ->
  np_max items = Some mx ->
  let r := return_optimal_dtype (NumericArray items) in
  (first_is_integral first = true ->
     ((0 <= mn)%Q -> (mx < inject_Z (2 ^ 32))%Q ->
        exists t, r = Selected t /\ is_unsigned t = true /\ width t <= 32
          /\ (0 <= mn)%Q /\ (mx < inject_Z (2 ^ width t))%Q
          /\ (forall t', is_unsigned t' = true ->
                (mx < inject_Z (2 ^ width t'))%Q -> width t <= width t'))
     /\ ((mn < 0)%Q ->
          (r = ReturnsNone
           \/ exists t, r = Selected t /\ is_signed t = true /\ width t <= 32)
          /\ ((inject_Z (-129) < mn)%Q -> (mx < inject_Z 128)%Q ->
              r = Selected int8)
          /\ ((mn <= inject_Z (-129))%Q -> (inject_Z 128 <= mx)%Q ->
              (inject_Z (-32769) < mn)%Q -> (mx < inject_Z 32768)%Q ->
              r = Selected int16)
          /\ ((mn <= inject_Z (-32769))%Q -> (inject_Z 32768 <= mx)%Q ->
              (inject_Z (-2147483649) < mn)%Q ->
              (mx < inject_Z 2147483648)%Q ->
              r = Selected int32)
          /\ ((mn <= inject_Z (-2147483649))%Q ->
              (inject_Z 2147483648 <= mx)%Q ->
              r = ReturnsNone)))
  /\ (first_is_integral first = false -> r = Selected float32)
  /\ (forall t, r = Selected t -> width t <> 64).
Proof.
  intros Hitems Hmin Hmax r. subst r. unfold return_optimal_dtype.
  rewrite Hmin, Hmax, Hitems. cbn [hd_error].
  destruct (first_is_integral first) eqn:Hint.
  - split; [intros _ | split; [discriminate |]].
    + split.
      * intros Hnn Hmx. apply Qle_bool_iff in Hnn. rewrite Hnn.
        destruct (Qlt_bool mx (inject_Z 256)) eqn:H8;
          [| destruct (Qlt_bool mx (inject_Z 65536)) eqn:H16;
             [| destruct (Qlt_bool mx (inject_Z 4294967296)) eqn:H32]];
          Qbool_to_prop.
        -- exists uint8. repeat split; try assumption; try (simpl; lia).
           intros t' Hu _. destruct t'; simpl in *; try discriminate; lia.
        -- exists uint16. repeat split; try assumption; try (simpl; lia).
           intros t' Hu Hc. destruct t'; simpl in *; try discriminate; try lia.
           exfalso. apply (Qlt_irrefl mx).
           eapply Qlt_le_trans; [exact Hc | exact H8].
        -- exists uint32. repeat split; try assumption; try (simpl; lia).
           intros t' Hu Hc. destruct t'; simpl in *; try discriminate; try lia;
             exfalso; apply (Qlt_irrefl mx);
             (eapply Qlt_le_trans; [exact Hc |]); [exact H8 | exact H16].
        -- exfalso. apply (Qlt_irrefl mx).
           eapply Qlt_le_trans; [exact Hmx | exact H32].
      * intros Hneg. apply Qle_bool_false_iff in Hneg. rewrite Hneg.
        assert (Hlt : forall a b, (a < b)%Q -> Qlt_bool a b = true)
          by (intros a b; apply Qlt_bool_iff).
        assert (Hge : forall a b, (b <= a)%Q -> Qlt_bool a b = false)
          by (intros a b; apply Qlt_bool_false_iff).
        split; [| split; [| split; [| split]]].
        -- destruct (Qlt_bool (inject_Z (-129)) mn
                     || Qlt_bool mx (inject_Z 128));
             [right; exists int8; repeat split; simpl; lia |].
           destruct (Qlt_bool (inject_Z (-32769)) mn
                     || Qlt_bool mx (inject_Z 32768));
             [right; exists int16; repeat split; simpl; lia |].
           destruct (Qlt_bool (inject_Z (-2147483649)) mn
                     || Qlt_bool mx (inject_Z 2147483648));
             [right; exists int32; repeat split; simpl; lia |].
           left. reflexivity.
        -- intros H1 H2. rewrite (Hlt _ _ H1). reflexivity.
        -- intros H1 H2 H3 H4.
           rewrite (Hge _ _ H1), (Hge _ _ H2), (Hlt _ _ H3). reflexivity.
        -- intros H1 H2 H3 H4.
           rewrite (Hge _ _ H1), (Hge _ _ H2).
           assert (H5 : (mn <= inject_Z (-129))%Q).
           { eapply Qle_trans; [exact H1 |]. apply inject_Z_le_iff. lia. }
           assert (H6 : (inject_Z 128 <= mx)%Q).
           { eapply Qle_trans; [| exact H2]. apply inject_Z_le_iff. lia. }
           rewrite (Hge _ _ H5), (Hge _ _ H6), (Hlt _ _ H3). reflexivity.
        -- intros H1 H2.
           assert (H3 : (mn <= inject_Z (-32769))%Q).
           { eapply Qle_trans; [exact H1 |]. apply inject_Z_le_iff. lia. }
           assert (H4 : (inject_Z 32768 <= mx)%Q).
           { eapply Qle_trans; [| exact H2]. apply inject_Z_le_iff. lia. }
           assert (H5 : (mn <= inject_Z (-129))%Q).
           { eapply Qle_trans; [exact H1 |]. apply inject_Z_le_iff. lia. }
           assert (H6 : (inject_Z 128 <= mx)%Q).
           { eapply Qle_trans; [| exact H2]. apply inject_Z_le_iff. lia. }
           rewrite (Hge _ _ H1), (Hge _ _ H2), (Hge _ _ H3), (Hge _ _ H4),
             (Hge _ _ H5), (Hge _ _ H6).
           reflexivity.
    + intros t Ht.
      destruct (Qle_bool 0 mn);
        repeat match type of Ht with
        | (if ?c then _ else _) = _ => destruct c
        end; inversion Ht; subst; simpl; lia.
  - split; [discriminate | split; [reflexivity |]].
    intros t Ht. inversion Ht; subst; simpl; lia.
Qed.

(** The unsigned tiers really contain the observed extremes. *)
Corollary unsigned_tier_covers (t : dtype) (mn mx : Q) :
  is_unsigned t = true -> (0 <= mn)%Q -> (mn <= mx)%Q ->
  (mx < inject_Z (2 ^ width t))%Q ->
  (exists z, mx == inject_Z z)%Q ->
  covers t mn /\ covers t mx.
Proof.
  intros Hu Hmn Hle Hmx [z Hz].
  assert (Hz' : z < 2 ^ width t).
  { apply inject_Z_lt_iff. rewrite <- Hz. exact Hmx. }
  assert (Hmx' : (mx <= inject_Z (2 ^ width t - 1))%Q).
  { rewrite Hz. apply inject_Z_le_iff. lia. }
  destruct t; simpl in Hu; try discriminate; unfold covers; simpl;
    simpl in Hmx'; repeat split;
    try exact Hmn; try exact Hmx';
    try (eapply Qle_trans; [exact Hmn | exact Hle]);
    try (eapply Qle_trans; [exact Hle | exact Hmx']).
Qed.

Lemma return_optimal_dtype_tiers_witness :
  exists t,
    return_optimal_dtype
      (NumericArray [inject_Z 3; inject_Z 70000; inject_Z 12]) = Selected t
    /\ width t <= 32.
Proof.
  set (items := [inject_Z 3; inject_Z 70000; inject_Z 12]).
  destruct (return_optimal_dtype_tiers items (inject_Z 3)
              [inject_Z 70000; inject_Z 12] (inject_Z 3) (inject_Z 70000)
              eq_refl eq_refl eq_refl) as [Hint _].
  destruct (Hint eq_refl) as [Hun _].
  destruct Hun as (t & Hr & _ & Hw & _).
  - vm_compute. discriminate.
  - vm_compute. reflexivity.
  - exists t. split; assumption.
Defined.

(** C3 as worded fails where the column leaves the 32-bit range: with
    minimum [-2^31-1] and maximum [2^31] the first value is integral and
    no dtype is returned at all. *)
Lemma return_optimal_dtype_counterexample :
  first_is_integral (inject_Z (-2147483649)) = true
  /\ np_min [inject_Z (-2147483649); inject_Z 2147483648]
     = Some (inject_Z (-2147483649))
  /\ np_max [inject_Z (-2147483649); inject_Z 2147483648]
     = Some (inject_Z 2147483648)
  /\ ~ (exists t,
          return_optimal_dtype
            (NumericArray [inject_Z (-2147483649); inject_Z 2147483648])
          = Selected t).
Proof.
  repeat split; try (vm_compute; reflexivity).
  intros [t Ht]. vm_compute in Ht. discriminate.
Qed.

(** The signed chain joins its two bounds with [or]: a column spanning
    [-1 .. 1000] is given int8, whose range stops at 127. *)
Example return_optimal_dtype_signed_or :
  return_optimal_dtype (NumericArray [inject_Z (-1); inject_Z 1000])
    = Selected int8
  /\ ~ covers int8 (inject_Z 1000).
Proof.
  split; [vm_compute; reflexivity |].
  unfold covers. simpl. intros [_ H]. unfold Qle in H. simpl in H. lia.
Qed.

(** The unsigned chain has no final [else]: a non-negative column whose
    maximum reaches 2^32 leaves [_type] unbound. *)
Example return_optimal_dtype_unsigned_overflow :
  return_optimal_dtype (NumericArray [inject_Z 0; inject_Z 4294967296])
    = RaisesUnboundLocalError.
Proof. vm_compute. reflexivity. Qed.

(** ** The content hash (claim C10) *)

Section FileHash.
Variable alg : HashAlgorithm.

(** The contract of a [hashlib] object: feeding a message in pieces is
    feeding their concatenation, and feeding the empty string to a fresh
    object does not change its digest. *)
Hypothesis update_app : forall s a b,
  hash_update alg (hash_update alg s a) b = hash_update alg s (a ++ b).
Hypothesis digest_empty :
  hash_hexdigest alg (hash_update alg (hash_new alg) [])
  = hash_hexdigest alg (hash_new alg).

Lemma fold_update_concat (block : list Byte.byte)
    (blocks : list (list Byte.byte)) s :
  fold_left (fun algorithm block => hash_update alg algorithm block)
            (block :: blocks) s
  = hash_update alg s (concat (block :: blocks)).
Proof.
  revert s block. induction blocks as [|b blocks IH]; intros s block.
  - simpl. rewrite app_nil_r. reflexivity.
  - change (fold_left _ (block :: b :: blocks) s)
      with (fold_left (fun algorithm block => hash_update alg algorithm block)
                      (b :: blocks) (hash_update alg s block)).
    rewrite IH. apply update_app.
Qed.

Lemma calculate_file_hash_concat (blocks : list (list Byte.byte)) :
  calculate_file_hash alg blocks = one_shot_digest alg (concat blocks).
Proof.
  unfold calculate_file_hash, one_shot_digest.
  destruct blocks as [|block blocks].
  - simpl. symmetry. apply digest_empty.
  - rewrite fold_update_concat. reflexivity.
Qed.
End FileHash.

Lemma _HASH_BLOCK_SIZE_pos : (0 < _HASH_BLOCK_SIZE)%nat.
Proof. unfold _HASH_BLOCK_SIZE. lia. Qed.

Lemma take_block_nil (remaining : list Byte.byte) :
  take _HASH_BLOCK_SIZE remaining = [] -> remaining = [].
Proof.
  pose proof _HASH_BLOCK_SIZE_pos as Hpos.
  destruct _HASH_BLOCK_SIZE as [|n]; [lia |].
  destruct remaining; [reflexivity | discriminate].
Qed.

(** The generator yields every byte once and in order, in non-empty blocks
    of at most the block size, and ends before the fuel does. *)
Lemma yield_blocks_concat (fuel : nat) (block remaining : list Byte.byte) :
  (length block + length remaining < fuel)%nat ->
  (block = [] -> remaining = []) ->
  (length block <= _HASH_BLOCK_SIZE)%nat ->
  exists blocks,
    yield_blocks fuel block remaining = Some blocks
    /\ concat blocks = block ++ remaining
    /\ Forall (fun b => (0 < length b <= _HASH_BLOCK_SIZE)%nat) blocks.
Proof.
  revert block remaining.
  induction fuel as [|fuel IH]; intros block remaining Hfuel Hend Hsize;
    [lia |].
  cbn [yield_blocks].
  destruct (0 <? length block)%nat eqn:Hlen.
  - apply Nat.ltb_lt in Hlen. unfold file_read.
    destruct (IH (take _HASH_BLOCK_SIZE remaining)
                 (drop _HASH_BLOCK_SIZE remaining))
      as (blocks & Hy & Hc & Hall).
    + rewrite <- length_app, take_drop. lia.
    + intros Hnil. apply take_block_nil in Hnil. subst remaining.
      apply drop_nil.
    + rewrite length_take. lia.
    + rewrite Hy. exists (block :: blocks). split; [reflexivity |].
      split.
      * simpl. rewrite Hc, take_drop. reflexivity.
      * constructor; [lia | exact Hall].
  - apply Nat.ltb_ge in Hlen.
    assert (block = []) as ->
      by (destruct block; [reflexivity | simpl in Hlen; lia]).
    rewrite (Hend eq_refl). exists []. repeat split. constructor.
Qed.

Lemma iterable_file_blocks_concat (content : list Byte.byte) :
  exists blocks,
    iterable_file_blocks content = Some blocks
    /\ concat blocks = content
    /\ Forall (fun b => (0 < length b <= _HASH_BLOCK_SIZE)%nat) blocks.
Proof.
  unfold iterable_file_blocks, file_read.
  destruct (yield_blocks_concat (S (length content))
              (take _HASH_BLOCK_SIZE content) (drop _HASH_BLOCK_SIZE content))
    as (blocks & Hy & Hc & Hall).
  - rewrite <- length_app, take_drop. lia.
  - intros Hnil. apply take_block_nil in Hnil. subst content. apply drop_nil.
  - rewrite length_take. lia.
  - exists blocks. rewrite take_drop in Hc. auto.
Qed.

(** C10.  For every file content the streamed digest is returned (the
    block loop ends) and equals the digest of the whole content hashed in
    one go; hence any split of the same bytes into blocks gives the same
    digest, and files with equal bytes get equal keys. *)
Theorem compute_file_hash_whole_content
    (alg : HashAlgorithm)
    (update_app : forall s a b,
        hash_update alg (hash_update alg s a) b = hash_update alg s (a ++ b))
    (digest_empty :
        hash_hexdigest alg (hash_update alg (hash_new alg) [])
        = hash_hexdigest alg (hash_new alg))
    (content : list Byte.byte) :
  compute_file_hash alg content = Some (one_shot_digest alg content)
  /\ (forall blocks, concat blocks = content ->
        calculate_file_hash alg blocks = one_shot_digest alg content).
Proof.
  split.
  - unfold compute_file_hash.
    destruct (iterable_file_blocks_concat content) as (blocks & -> & Hc & _).
    rewrite (calculate_file_hash_concat alg update_app digest_empty), Hc.
    reflexivity.
  - intros blocks <-.
    apply (calculate_file_hash_concat alg update_app digest_empty).
Qed.

Lemma compute_file_hash_whole_content_witness :
  compute_file_hash toy_algorithm (repeat Byte.x2a (Z.to_nat 70000))
  = Some (one_shot_digest toy_algorithm (repeat Byte.x2a (Z.to_nat 70000))).
Proof.
  apply (compute_file_hash_whole_content toy_algorithm).
  - intros s a b. simpl. symmetry. apply app_assoc.
  - reflexivity.
Defined.

(** A 70,000-byte file is read as one full block and one short block. *)
Example iterable_file_blocks_70000 :
  option_map (map (fun b : list Byte.byte => Z.of_nat (length b)))
    (iterable_file_blocks (repeat Byte.x2a (Z.to_nat 70000)))
  = Some [65536; 4464].
Proof. vm_compute. reflexivity. Qed.

(** ** Integrity by inspection (claim C2) *)

Lemma passed_inspection_spec (f : CaptureFile) :
  passed_inspection f = true <->
  (forall k item, inspection f !! k = Some (Item item) -> passed item = true).
Proof.
  unfold passed_inspection. rewrite forallb_forall. split.
  - intros H k item Hk.
    apply (H (k, Item item)).
    apply list_elem_of_In, elem_of_map_to_list. exact Hk.
  - intros H [k v] Hin.
    apply list_elem_of_In, elem_of_map_to_list in Hin.
    destruct v as [item|text]; simpl; [eauto | reflexivity].
Qed.

Lemma major_items_spec (f : CaptureFile) (fields : list string)
    (items : list bool) :
  mapM (major_item f) fields = Some items ->
  (false ∈ items <->
   exists k item, k ∈ fields /\ inspection f !! k = Some (Item item)
                  /\ passed item = false).
Proof.
  rewrite mapM_Some. intros HF. induction HF as [|k b fields items Hk HF IH].
  - split; [intros H; inversion H | intros (k & item & H & _); inversion H].
  - unfold major_item in Hk.
    destruct (inspection f !! k) as [[item|text]|] eqn:Hlook;
      try discriminate.
    injection Hk as <-. rewrite elem_of_cons, IH. split.
    + intros [Hb | (k' & item' & Hin & Hl & Hp)].
      * exists k, item. rewrite elem_of_cons. auto.
      * exists k', item'. rewrite elem_of_cons. auto.
    + intros (k' & item' & Hin & Hl & Hp).
      apply elem_of_cons in Hin as [-> | Hin].
      * left. rewrite Hlook in Hl. injection Hl as ->. auto.
      * right. eauto.
Qed.

Lemma major_items_resolve (f : CaptureFile) (fields : list string) :
  (forall k, k ∈ fields -> exists item, inspection f !! k = Some (Item item)) ->
  exists items, mapM (major_item f) fields = Some items.
Proof.
  induction fields as [|k fields IH]; intros H.
  - exists []. reflexivity.
  - destruct (H k) as [item Hk]; [left |].
    destruct IH as [items Hitems].
    { intros k' Hk'. apply H. right. exact Hk'. }
    exists (passed item :: items).
    apply mapM_Some. constructor.
    + unfold major_item. rewrite Hk. reflexivity.
    + apply mapM_Some. exact Hitems.
Qed.

Lemma integrity_set_integrity (value : Integrity) (f : CaptureFile) :
  integrity (set_integrity value f) = value.
Proof. reflexivity. Qed.

(** The grade assigned from an inspection dictionary in which every major
    field of the file's version holds an item. *)
Lemma update_integrity_by_inspection_spec
    (recheck : bool) (f : CaptureFile)
    (table : gmap string (list string)) (fields : list string) :
  recheck = true \/ integrity f = Pending ->
  MAJOR_INSPECTION_ITEMS (parser f) = Some table ->
  table !! version f = Some fields ->
  (forall k, k ∈ fields -> exists item, inspection f !! k = Some (Item item)) ->
  let f' := update_integrity_by_inspection recheck f in
  let every_item_passed :=
    forall k item, inspection f !! k = Some (Item item) -> passed item = true in
  let every_major_passed :=
    forall k item, k ∈ fields -> inspection f !! k = Some (Item item) ->
                   passed item = true in
  (every_item_passed -> integrity f' = Ideal)
  /\ (~ every_item_passed -> every_major_passed -> integrity f' = Dirty)
  /\ (~ every_major_passed -> integrity f' = Mangled).
Proof.
  intros Hgate Htable Hfields Hres f' every_item every_major. subst f'.
  unfold update_integrity_by_inspection.
  assert (Hg : negb (bool_decide (integrity f = Pending) || recheck) = false).
  { destruct Hgate as [-> | Hp].
    - rewrite orb_true_r. reflexivity.
    - rewrite (bool_decide_eq_true_2 _ Hp). reflexivity. }
  rewrite Hg.
  destruct (major_items_resolve f fields Hres) as [items Hitems].
  assert (Hmajor : major_items f = Some items).
  { unfold major_items. rewrite Htable. simpl. rewrite Hfields. exact Hitems. }
  pose proof (major_items_spec f fields items Hitems) as Hfalse.
  destruct (passed_inspection f) eqn:Hpass.
  - pose proof (proj1 (passed_inspection_spec f) Hpass) as Hall.
    split; [reflexivity |]. split.
    + intros Hno. contradiction.
    + intros Hno. exfalso. apply Hno. intros k item _ Hk. eauto.
  - assert (Hnot : ~ every_item).
    { intros Hall. apply (proj2 (passed_inspection_spec f)) in Hall.
      congruence. }
    split; [intros Hall; contradiction |].
    rewrite Hmajor, integrity_set_integrity.
    split.
    + intros _ Hmaj. rewrite bool_decide_eq_false_2; [reflexivity |].
      rewrite Hfalse. intros (k & item & Hin & Hk & Hp).
      rewrite (Hmaj k item Hin Hk) in Hp. discriminate.
    + intros Hmaj. rewrite bool_decide_eq_true_2; [reflexivity |].
      rewrite Hfalse.
      destruct (decide (false ∈ items)) as [Hin | Hnin].
      * apply Hfalse. exact Hin.
      * exfalso. apply Hmaj. intros k item Hk Hl.
        destruct (passed item) eqn:Hp; [reflexivity |].
        exfalso. apply Hnin, Hfalse. eauto.
Qed.

Ltac solve_inspected :=
  repeat match goal with
  | H : _ ∈ _ :: _ |- _ => apply elem_of_cons in H as [-> | H]
  | H : _ ∈ [] |- _ => inversion H
  end;
  eexists; vm_compute; reflexivity.

(** Every field a version lists as major is produced, as an item, by that
    version's inspection battery. *)
Lemma major_fields_inspected (o : battery_outcome) (f : CaptureFile)
    (table : gmap string (list string)) (fields : list string) :
  MAJOR_INSPECTION_ITEMS (parser f) = Some table ->
  table !! version f = Some fields ->
  forall k, k ∈ fields ->
    exists item, inspect_capture o f !! k = Some (Item item).
Proof.
  intros Htable Hfields k Hk. unfold inspect_capture.
  destruct (parser f); simpl in Htable; try discriminate;
    injection Htable as <-.
  - (* FrameView *)
    destruct (decide (version f = "1.0"%string)) as [E|N0];
      [rewrite E in *; vm_compute in Hfields; injection Hfields as <-;
       unfold frameview_major_1_0 in Hk; solve_inspected |].
    destruct (decide (version f = "1.1"%string)) as [E|N1];
      [rewrite E in *; vm_compute in Hfields; injection Hfields as <-;
       solve_inspected |].
    destruct (decide (version f = "1.2"%string)) as [E|N2];
      [rewrite E in *; vm_compute in Hfields; injection Hfields as <-;
       solve_inspected |].
    destruct (decide (version f = "1.4"%string)) as [E|N4];
      [rewrite E in *; vm_compute in Hfields; injection Hfields as <-;
       solve_inspected |].
    exfalso. cbn [list_to_map foldr] in Hfields.
    rewrite !lookup_insert_ne in Hfields by (simpl; congruence).
    rewrite lookup_empty in Hfields. discriminate.
  - (* OCAT *)
    destruct (decide (version f = "1.6.1"%string)) as [E|N];
      [rewrite E in *; vm_compute in Hfields; injection Hfields as <-;
       solve_inspected |].
    exfalso. cbn [list_to_map foldr] in Hfields.
    rewrite !lookup_insert_ne in Hfields by (simpl; congruence).
    rewrite lookup_empty in Hfields. discriminate.
Qed.

(** C2.  For a PresentMon-family capture whose version has a list of major
    items, once the battery has produced its dictionary,
    [update_integrity_by_inspection] (as [evaluate_integrity] calls it, or
    on a pending file) assigns Ideal if every item passed, Dirty if some
    item failed but every major item passed, and Mangled if a major item
    failed. *)
Theorem integrity_assigned_by_inspection
    (recheck : bool) (o : battery_outcome) (f0 : CaptureFile)
    (table : gmap string (list string)) (fields : list string) :
  recheck = true \/ integrity f0 = Pending ->
  MAJOR_INSPECTION_ITEMS (parser f0) = Some table ->
  table !! version f0 = Some fields ->
  let f := with_inspection (inspect_capture o f0) f0 in
  let f' := update_integrity_by_inspection recheck f in
  let every_item_passed :=
    forall k item, inspection f !! k = Some (Item item) -> passed item = true in
  let every_major_passed :=
    forall k item, k ∈ fields -> inspection f !! k = Some (Item item) ->
                   passed item = true in
  (every_item_passed -> integrity f' = Ideal)
  /\ (~ every_item_passed -> every_major_passed -> integrity f' = Dirty)
  /\ (~ every_major_passed -> integrity f' = Mangled).
Proof.
  intros Hgate Htable Hfields f.
  apply (update_integrity_by_inspection_spec recheck f table fields);
    try assumption.
  intros k Hk. exact (major_fields_inspected o f0 table fields Htable Hfields k Hk).
Qed.

Lemma integrity_assigned_by_inspection_witness :
  integrity
    (update_integrity_by_inspection true
       (with_inspection
          (inspect_capture no_tearing_outcome
             (new_capture_file FrameView "1.1" ∅))
          (new_capture_file FrameView "1.1" ∅)))
  = Dirty.
Proof.
  destruct (integrity_assigned_by_inspection true no_tearing_outcome
              (new_capture_file FrameView "1.1" ∅)
              (list_to_map [
                 ("1.0", frameview_major_1_0); ("1.1", frameview_major_1_1);
                 ("1.2", frameview_major_1_1); ("1.4", frameview_major_1_1)
               ]%string)
              frameview_major_1_1
              (or_introl eq_refl) eq_refl eq_refl)
    as (_ & Hdirty & _).
  apply Hdirty.
  - intros Hall.
    specialize (Hall "Tearing is Possible"%string
                  (failing 100 "No tearing was observed") eq_refl).
    discriminate.
  - intros k item Hk Hlook.
    repeat (apply elem_of_cons in Hk as [-> | Hk];
            [vm_compute in Hlook; injection Hlook as <-; reflexivity |]).
    inversion Hk.
Defined.

(** ** Invalid is not absorbing (claim C4) *)

Lemma tuple_hash_initial_window : (tuple_hash [0; 0] =? -1) = false.
Proof. vm_compute. reflexivity. Qed.

(** C4 at the failing input: a FrameView 1.0 capture without a "Dropped"
    column.  [read_log] sets Invalid, [parse_file] returns empty headers,
    and the inspection that [__init__] runs next regrades the file: the
    signaller emits Pending, Invalid, Mangled. *)
Example invalid_overwritten_by_inspection :
  signals (presentmon_init FrameView "1.0" ∅ env_without_dropped
             headerless_outcome false)
  = [Pending; Invalid; Mangled]
  /\ integrity (presentmon_init FrameView "1.0" ∅ env_without_dropped
                  headerless_outcome false)
     = Mangled.
Proof. split; vm_compute; reflexivity. Qed.

Lemma update_integrity_by_inspection_signals
    (f : CaptureFile)
    (table : gmap string (list string)) (fields : list string) :
  MAJOR_INSPECTION_ITEMS (parser f) = Some table ->
  table !! version f = Some fields ->
  (forall k, k ∈ fields -> exists item, inspection f !! k = Some (Item item)) ->
  exists grade,
    grade ∈ [Ideal; Dirty; Mangled]
    /\ update_integrity_by_inspection true f = set_integrity grade f.
Proof.
  intros Htable Hfields Hres.
  destruct (major_items_resolve f fields Hres) as [items Hitems].
  unfold update_integrity_by_inspection.
  rewrite orb_true_r. cbn [negb].
  destruct (passed_inspection f).
  - exists Ideal. split; [set_solver | reflexivity].
  - unfold major_items. rewrite Htable. cbn [mbind option_bind].
    rewrite Hfields. cbn [mbind option_bind]. rewrite Hitems.
    destruct (bool_decide (false ∈ items)).
    + exists Mangled. split; [set_solver | reflexivity].
    + exists Dirty. split; [set_solver | reflexivity].
Qed.

(** The same for every PresentMon-family version and every outcome of the
    battery: when the read fails on the missing column and
    [define_properties] does not raise, the file leaves [__init__] graded
    Ideal, Dirty or Mangled, never Invalid. *)
Lemma invalid_regraded_after_key_error
    (cls : parser_class) (ver : string)
    (aliases : gmap string (gmap string string))
    (env : read_env) (o : battery_outcome)
    (frame : DataFrame) (dropped_errors : bool)
    (table : gmap string (list string)) (fields : list string) :
  first_read env = ReadFrame frame dropped_errors ->
  "Dropped"%string ∉ column_names frame ->
  MAJOR_INSPECTION_ITEMS cls = Some table ->
  table !! ver = Some fields ->
  exists grade,
    grade ∈ [Ideal; Dirty; Mangled]
    /\ signals (presentmon_init cls ver aliases env o false)
       = [Pending; Invalid; grade].
Proof.
  intros Hread Hno Htable Hfields.
  unfold presentmon_init, parse_file, read_log. rewrite Hread.
  rewrite (bool_decide_eq_false_2 _ Hno).
  set (f0 := set_integrity Invalid
               (with_integrity_hash (-1)
                  (set_integrity Pending (new_capture_file cls ver aliases)))).
  change (bool_decide (integrity f0 = Invalid)) with true. cbv iota beta.
  set (f1 := with_parsed (compress_dataframe env frame) [] 0 f0).
  unfold evaluate_integrity.
  change (tuple_hash [height f1; offset f1] =? integrity_hash f1)
    with (tuple_hash [0; 0] =? -1).
  rewrite tuple_hash_initial_window.
  set (f2 := with_inspection _ _).
  destruct (update_integrity_by_inspection_signals f2 table fields)
    as (grade & Hgrade & ->).
  - exact Htable.
  - exact Hfields.
  - intros k Hk. subst f2. cbn [inspection with_inspection].
    eapply major_fields_inspected; [exact Htable | exact Hfields | exact Hk].
  - exists grade. split; [exact Hgrade |].
    repeat (apply elem_of_cons in Hgrade as [-> | Hgrade]);
      [reflexivity | reflexivity | reflexivity | inversion Hgrade].
Qed.

(** As [evaluate_integrity] runs it: when the visible window is not the
    one last inspected and [define_properties] does not raise, the file
    ends with the grade of the fresh inspection. *)
Lemma evaluate_integrity_grades
    (o : battery_outcome) (f : CaptureFile)
    (table : gmap string (list string)) (fields : list string) :
  tuple_hash [height f; offset f] <> integrity_hash f ->
  MAJOR_INSPECTION_ITEMS (parser f) = Some table ->
  table !! version f = Some fields ->
  let f' := evaluate_integrity o false f in
  inspection f' = inspect_capture o f
  /\ ((forall k item, inspection f' !! k = Some (Item item) ->
                      passed item = true) ->
      integrity f' = Ideal)
  /\ integrity f' ∈ [Ideal; Dirty; Mangled].
Proof.
  intros Hhash Htable Hfields. unfold evaluate_integrity.
  apply Z.eqb_neq in Hhash. rewrite Hhash.
  set (g := with_inspection _ _).
  assert (Hinsp : inspection g = inspect_capture o f) by reflexivity.
  assert (Hres : forall k, k ∈ fields ->
            exists item, inspection g !! k = Some (Item item)).
  { intros k Hk. rewrite Hinsp.
    exact (major_fields_inspected o f table fields Htable Hfields k Hk). }
  pose proof (update_integrity_by_inspection_spec true g table fields
                (or_introl eq_refl) Htable Hfields Hres) as (Hideal & _ & _).
  destruct (update_integrity_by_inspection_signals g table fields
              Htable Hfields Hres) as (grade & Hgrade & Heq).
  cbn zeta. split; [rewrite Heq; exact Hinsp |]. split.
  - intros Hall. apply Hideal. intros k item Hk. apply (Hall k item).
    rewrite Heq. exact Hk.
  - rewrite Heq. exact Hgrade.
Qed.

(** Called without [recheck], as its docstring intends, the update leaves
    a file that is no longer Pending alone; in particular an Invalid file
    stays Invalid. *)
Lemma update_without_recheck_keeps_grade (f : CaptureFile) :
  integrity f <> Pending -> update_integrity_by_inspection false f = f.
Proof.
  intros Hne. unfold update_integrity_by_inspection.
  rewrite (bool_decide_eq_false_2 _ Hne). reflexivity.
Qed.

(** ** The stutter heuristic (claim C1) *)

Lemma Qinsert_elem (x y : Q) (sorted : list Q) :
  y ∈ Qinsert x sorted <-> y = x \/ y ∈ sorted.
Proof.
  induction sorted as [|z rest IH]; simpl.
  - rewrite list_elem_of_singleton.
    split; [auto | intros [H | H]; [exact H | inversion H]].
  - destruct (Qle_bool x z).
    + rewrite elem_of_cons. reflexivity.
    + rewrite !elem_of_cons, IH. tauto.
Qed.

Lemma Qsort_elem (y : Q) (values : list Q) : y ∈ Qsort values <-> y ∈ values.
Proof.
  induction values as [|x rest IH]; simpl.
  - reflexivity.
  - rewrite Qinsert_elem, elem_of_cons, IH. reflexivity.
Qed.

Lemma window_at_elem (r : Rolling) (i : nat) (x : Q) :
  x ∈ window_at r i -> x ∈ rolling_series r.
Proof.
  unfold window_at. intros H.
  apply subseteq_take in H. apply subseteq_drop in H. exact H.
Qed.

Lemma window_median_pos (window : list Q) (m : Q) :
  (forall x, x ∈ window -> (0 < x)%Q) ->
  window_median window = Some m -> (0 < m)%Q.
Proof.
  intros Hpos. unfold window_median.
  assert (Hs : forall k a, Qsort window !! k = Some a -> (0 < a)%Q).
  { intros k a Hk. apply Hpos, Qsort_elem.
    eapply list_elem_of_lookup_2. exact Hk. }
  destruct (length (Qsort window) =? 0)%nat; [discriminate |].
  destruct (Nat.odd (length (Qsort window))).
  - intros Hm. eapply Hs. exact Hm.
  - destruct (Qsort window !! (length (Qsort window) / 2 - 1)%nat)
      as [a|] eqn:Ha; [|discriminate].
    destruct (Qsort window !! (length (Qsort window) / 2)%nat)
      as [b|] eqn:Hb; [|discriminate].
    intros Hm. injection Hm as <-.
    apply Hs in Ha. apply Hs in Hb.
    apply Qlt_shift_div_l; [reflexivity |].
    rewrite Qmult_0_l.
    rewrite <- (Qplus_0_l 0). apply Qplus_lt_le_compat; [exact Ha |].
    apply Qlt_le_weak. exact Hb.
Qed.

Lemma rolling_median_pos (r : Rolling) :
  (forall x, x ∈ rolling_series r -> (0 < x)%Q) ->
  Forall positive_or_nan (rolling_median r).
Proof.
  intros Hpos. unfold rolling_median, rolling_apply.
  apply Forall_forall. intros m Hm.
  apply list_elem_of_In, in_map_iff in Hm as (i & <- & _).
  intros q.
  destruct (rolling_window_size r <=? Z.of_nat (length (window_at r i)));
    [|discriminate].
  apply window_median_pos. intros x Hx. eapply Hpos, window_at_elem, Hx.
Qed.


(** On a frame whose median is positive (or missing) the vectorised test
    is the frame-by-frame rule. *)
Lemma flag_is_spec (cfg : heuristic_settings) (x : Q) (m : option Q) :
  positive_or_nan m ->
  fgt (nan_div (match m with
                | Some m => Some (Qabs (x - m))
                | None => None
                end) m)
      (StutterDeltaPct cfg / 100)
  && match (match m with
            | Some m => Some (Qabs (x - m))
            | None => None
            end) with
     | Some d => Qlt_bool (StutterDeltaMs cfg) d
     | None => false
     end
  = spec_is_stutter_frame cfg x m.
Proof.
  intros Hpos. destruct m as [m|]; simpl; [|reflexivity].
  specialize (Hpos m eq_refl). unfold fdiv.
  destruct (Qeq_bool m 0) eqn:Hz.
  - apply Qeq_bool_iff in Hz. rewrite Hz in Hpos.
    exfalso. exact (Qlt_irrefl 0 Hpos).
  - reflexivity.
Qed.


(** The mask the code builds is the frame-by-frame rule applied to each
    frame and its median. *)
Lemma stutter_frames_rowwise (cfg : heuristic_settings)
    (frametimes : list Q) (medians : list (option Q)) :
  Forall positive_or_nan medians ->
  stutter_frames cfg frametimes medians
  = zip_with (spec_is_stutter_frame cfg) frametimes medians.
Proof.
  intros Hpos. revert frametimes.
  induction Hpos as [|m medians Hm Hpos IH]; intros [|x frametimes];
    try reflexivity.
  change (stutter_frames cfg (x :: frametimes) (m :: medians))
    with ((fgt (nan_div (match m with
                         | Some m => Some (Qabs (x - m))
                         | None => None
                         end) m)
               (StutterDeltaPct cfg / 100)
           && match (match m with
                     | Some m => Some (Qabs (x - m))
                     | None => None
                     end) with
              | Some d => Qlt_bool (StutterDeltaMs cfg) d
              | None => false
              end)
          :: stutter_frames cfg frametimes medians).
  rewrite (flag_is_spec cfg x m Hm), IH. reflexivity.
Qed.

Lemma count_true_cons (b : bool) (flags : list bool) :
  count_true (b :: flags) = (if b then 1 else 0) + count_true flags.
Proof.
  unfold count_true. rewrite filter_cons.
  destruct b.
  - rewrite decide_True by reflexivity. simpl length. lia.
  - rewrite decide_False by discriminate. lia.
Qed.







Lemma spec_is_stutter_frame_iff (cfg : heuristic_settings)
    (x : Q) (m : option Q) :
  spec_is_stutter_frame cfg x m = true <->
  exists q, m = Some q
            /\ (StutterDeltaPct cfg / 100 < Qabs (x - q) / q)%Q
            /\ (StutterDeltaMs cfg < Qabs (x - q))%Q.
Proof.
  unfold spec_is_stutter_frame, relative_deviation. destruct m as [q|].
  - rewrite andb_true_iff, !Qlt_bool_iff. split.
    + intros [H1 H2]. exists q. auto.
    + intros (q' & Hq & H1 & H2). injection Hq as <-. auto.
  - split; [discriminate | intros (q & Hq & _); discriminate].
Qed.



(** A frame that exceeds only one of the two thresholds is not flagged. *)
Corollary one_threshold_is_not_enough (cfg : heuristic_settings) (x q : Q) :
  (Qabs (x - q) / q <= StutterDeltaPct cfg / 100)%Q
  \/ (Qabs (x - q) <= StutterDeltaMs cfg)%Q ->
  spec_is_stutter_frame cfg x (Some q) = false.
Proof.
  intros H. destruct (spec_is_stutter_frame cfg x (Some q)) eqn:E;
    [|reflexivity].
  apply (proj1 (spec_is_stutter_frame_iff cfg x (Some q))) in E
    as (q' & Hq & H1 & H2).
  injection Hq as <-. exfalso.
  destruct H as [H | H].
  - exact (Qlt_not_le _ _ H1 H).
  - exact (Qlt_not_le _ _ H2 H).
Qed.



(** The cast at work: 16.002 and 12.002 become the float32 values
    16.00200080871582 and 12.001999855041504, over the largest finite
    float32 the cast gives an infinity, and under half the least
    subnormal it gives zero. *)
Example float32_values :
  cast_float32 (16002 # 1000) = Finite (8389657 # 524288)
  /\ cast_float32 (12002 # 1000) = Finite (12585009 # 1048576)
  /\ cast_float32 (inject_Z 16777217) = Finite (inject_Z 16777216)
  /\ cast_float32 (2 ^ 128 - 2 ^ 103)%Q = PosInf
  /\ cast_float32 (- (2 ^ 128))%Q = NegInf
  /\ cast_float32 (2 ^ (-150))%Q = Finite 0.
Proof. repeat split; vm_compute; reflexivity. Qed.

(** The cast decides a frame that sits on the absolute threshold: among
    frames of 12.002 ms a frame of 16.002 ms is exactly 4 ms off, which
    is not more than 4 ms, but as float32 values the two are
    4.00000095 ms apart, and the frame is flagged. *)
Example rounded_spike_is_flagged :
  total (stutter_heuristic default_settings rounded_spike) = 0
  /\ total (calculate_stutter default_settings rounded_spike) = 1.
Proof. split; vm_compute; reflexivity. Qed.

(** Whole milliseconds are float32 values: the cast leaves the series of
    the other examples as they are, and the heuristic as a whole gives on
    them what it gives after the cast. *)
Example cast_keeps_whole_milliseconds :
  float32_series long_short_short = Some long_short_short
  /\ calculate_stutter default_settings long_short_short
     = stutter_heuristic default_settings long_short_short
  /\ total (calculate_stutter default_settings long_short_short) = 12
  /\ total (calculate_stutter default_settings
              (single_spike (inject_Z 8) (inject_Z 10))) = 0
  /\ total (calculate_stutter default_settings
              (single_spike (inject_Z 24) (inject_Z 30))) = 1.
Proof. repeat split; vm_compute; reflexivity. Qed.

(** An infinity in the cast series ends in the all-zero result. *)
Example overflowing_frametime :
  calculate_stutter default_settings [inject_Z 16; (2 ^ 130)%Q; inject_Z 16]
  = invalid_stutter 3.
Proof. vm_compute. reflexivity. Qed.

(** The two series of the specification's AND-gate test, under the default
    settings: a frame 25% and 2 ms off its local median is not flagged, a
    frame 25% and 6 ms off is. *)
Example and_gate_two_ms :
  total (stutter_heuristic default_settings
           (single_spike (inject_Z 8) (inject_Z 10))) = 0.
Proof. vm_compute. reflexivity. Qed.

Example and_gate_six_ms :
  total (stutter_heuristic default_settings
           (single_spike (inject_Z 24) (inject_Z 30))) = 1.
Proof. vm_compute. reflexivity. Qed.


(** ** The oscillation heuristic (claim C6) *)

Lemma zip_with_andb {A B : Type} (f g : A -> B -> bool)
    (l : list A) (k : list B) :
  zip_with andb (zip_with f l k) (zip_with g l k)
  = zip_with (fun a b => f a b && g a b) l k.
Proof.
  revert k. induction l as [|a l IH]; intros [|b k]; try reflexivity.
  simpl. rewrite IH. reflexivity.
Qed.

Lemma zip_with_ext_eq {A B C : Type} (f g : A -> B -> C)
    (l : list A) (k : list B) :
  (forall a b, f a b = g a b) -> zip_with f l k = zip_with g l k.
Proof.
  intros H. revert k. induction l as [|a l IH]; intros [|b k];
    try reflexivity.
  simpl. rewrite H, IH. reflexivity.
Qed.

(** What the code does: it applies the specification's rule with the
    absolute threshold divided by 100 ([delta_ms = OscDeltaMs / 100]).
    With that threshold, it short-circuits exactly when the share of
    oscillating windows among all frames reaches the warn percentage, and
    the result then carries "OSC" for deviations, average and max, the
    count of oscillating windows and their share of all frames. *)
Lemma oscillation_heuristic_characterised
    (cfg : heuristic_settings) (r : Rolling) (num_frames : nat) :
  let scaled := with_osc_delta_ms (OscDeltaMs cfg / 100) cfg in
  oscillation_heuristic cfg r num_frames
  = if spec_short_circuits scaled r num_frames
    then Some {| deviations := DeviationsOSC;
                 total := spec_oscillating_windows scaled r;
                 proportional :=
                   (inject_Z (spec_oscillating_windows scaled r)
                    / inject_Z (Z.of_nat num_frames))%Q;
                 average := OSC; max := OSC |}
    else None.
Proof.
  intros scaled. unfold oscillation_heuristic, spec_short_circuits.
  destruct (num_frames =? 0)%nat; [reflexivity |]. cbn [negb andb].
  rewrite zip_with_andb.
  assert (Hrows :
    zip_with
      (fun q3 q1 : option Q =>
         fge (fsub_const (nan_div q3 q1) 1) (OscDeltaPct cfg / 100)
         && match q3, q1 with
            | Some a, Some b => Qle_bool (OscDeltaMs cfg / 100) (a - b)
            | _, _ => false
            end)
      (rolling_quantile (3 # 4) r) (rolling_quantile (1 # 4) r)
    = zip_with (spec_window_oscillates scaled)
        (rolling_quantile (3 # 4) r) (rolling_quantile (1 # 4) r)).
  { apply zip_with_ext_eq. intros [a|] [b|]; reflexivity. }
  rewrite Hrows. fold (spec_oscillating_windows scaled r).
  unfold Qlt_bool. cbn [OscWarnPct scaled with_osc_delta_ms].
  destruct (Qle_bool (OscWarnPct cfg / 100)
              (inject_Z (spec_oscillating_windows scaled r)
               / inject_Z (Z.of_nat num_frames))); reflexivity.
Qed.

(** C6 at the failing input: thirty frames alternating 10 ms and 13 ms
    under the default settings.  No window reaches the configured 4 ms
    (every interquartile range is 3 ms), so by the rule as worded no window
    oscillates and nothing is short-circuited; the code compares with
    0.04 ms, counts twelve oscillating windows and returns "OSC". *)
Example oscillation_absolute_threshold_scaled :
  spec_oscillating_windows default_settings
    {| rolling_series := alternating 15 (inject_Z 10) (inject_Z 13);
       rolling_window_size := 19 |} = 0
  /\ spec_short_circuits default_settings
       {| rolling_series := alternating 15 (inject_Z 10) (inject_Z 13);
          rolling_window_size := 19 |} 30 = false
  /\ total (stutter_heuristic default_settings
              (alternating 15 (inject_Z 10) (inject_Z 13))) = 12
  /\ deviations (stutter_heuristic default_settings
                   (alternating 15 (inject_Z 10) (inject_Z 13)))
     = DeviationsOSC
  /\ average (stutter_heuristic default_settings
                (alternating 15 (inject_Z 10) (inject_Z 13))) = OSC.
Proof. repeat split; vm_compute; reflexivity. Qed.

(** With an interquartile range above the configured threshold code and
    rule agree: the series repeating 10, 10, 30 ms is short-circuited. *)
Example oscillation_long_short_short :
  spec_short_circuits default_settings
    {| rolling_series := long_short_short; rolling_window_size := 19 |} 30
  = true
  /\ deviations (stutter_heuristic default_settings long_short_short)
     = DeviationsOSC.
Proof. split; vm_compute; reflexivity. Qed.

(** ** Format detection (claim C5) *)

Section FormatDetectorFacts.
Context {Format : Type}.
Variable header_set : gset string.

Local Abbreviation score := (candidate_score header_set).
Local Abbreviation selected_so_far := (selected_so_far header_set).

Lemma compare_candidate_step
    (visited : list (Format * string * gset string))
    (state : @selection Format) (c : Format * string * gset string) :
  selected_so_far visited state ->
  selected_so_far (visited ++ [c]) (compare_candidate header_set state c).
Proof.
  intros Hinv. destruct c as [[app ver] match_set].
  unfold compare_candidate.
  change (shared_headers header_set match_set)
    with (score (app, ver, match_set)).
  set (sc := score (app, ver, match_set)) in *.
  destruct Hinv as [[-> Hnone] | (i & app0 & ver0 & ms0 & Hi & -> & Hpos & Hmax & Hlast)].
  - cbn [snd].
    destruct (Qlt_bool 0 sc) eqn:Hsc; cbn [andb].
    + apply Qlt_bool_iff in Hsc.
      assert (Hle : Qle_bool 0 sc = true)
        by (apply Qle_bool_iff, Qlt_le_weak, Hsc).
      rewrite Hle. right.
      exists (length visited), app, ver, match_set.
      split; [apply list_lookup_middle; reflexivity |].
      split; [reflexivity |]. split; [exact Hsc |]. split.
      * intros j c Hj. apply lookup_app_Some in Hj as [Hj | [_ Hj]].
        -- apply list_elem_of_lookup_2 in Hj. apply Hnone in Hj.
           apply Qnot_lt_le in Hj.
           eapply Qle_trans; [exact Hj | apply Qlt_le_weak, Hsc].
        -- apply list_lookup_singleton_Some in Hj as [_ <-].
           apply Qle_refl.
      * intros j c Hlt Hj. apply lookup_lt_Some in Hj.
        rewrite length_app in Hj. simpl in Hj. lia.
    + left. split; [reflexivity |].
      intros c Hc. apply elem_of_app in Hc as [Hc | Hc].
      * apply Hnone, Hc.
      * apply list_elem_of_singleton in Hc as ->.
        apply Qlt_bool_false_iff in Hsc. apply Qle_not_lt, Hsc.
  - cbn [snd]. set (best := score (app0, ver0, ms0)) in *.
    destruct (Qlt_bool 0 sc && Qle_bool best sc) eqn:Hupd.
    + apply andb_true_iff in Hupd as [Hsc Hge].
      apply Qlt_bool_iff in Hsc. apply Qle_bool_iff in Hge.
      right. exists (length visited), app, ver, match_set.
      split; [apply list_lookup_middle; reflexivity |].
      split; [reflexivity |]. split; [exact Hsc |]. split.
      * intros j c Hj. apply lookup_app_Some in Hj as [Hj | [_ Hj]].
        -- eapply Qle_trans; [eapply Hmax, Hj | exact Hge].
        -- apply list_lookup_singleton_Some in Hj as [_ <-].
           apply Qle_refl.
      * intros j c Hlt Hj. apply lookup_lt_Some in Hj.
        rewrite length_app in Hj. simpl in Hj. lia.
    + right. exists i, app0, ver0, ms0.
      assert (Hless : (sc < best)%Q).
      { apply andb_false_iff in Hupd as [Hsc | Hge].
        - apply Qlt_bool_false_iff in Hsc.
          eapply Qle_lt_trans; [exact Hsc | exact Hpos].
        - apply Qle_bool_false_iff in Hge. exact Hge. }
      split; [apply lookup_app_l_Some, Hi |].
      split; [reflexivity |]. split; [exact Hpos |]. split.
      * intros j c Hj. apply lookup_app_Some in Hj as [Hj | [_ Hj]].
        -- eapply Hmax, Hj.
        -- apply list_lookup_singleton_Some in Hj as [_ <-].
           apply Qlt_le_weak, Hless.
      * intros j c Hlt Hj. apply lookup_app_Some in Hj as [Hj | [_ Hj]].
        -- eapply Hlast; [exact Hlt | exact Hj].
        -- apply list_lookup_singleton_Some in Hj as [_ <-]. exact Hless.
Qed.

Lemma fold_compare_selected
    (visited : list (Format * string * gset string)) :
  selected_so_far visited
    (fold_left (compare_candidate header_set) visited (None, 0%Q)).
Proof.
  induction visited as [|c visited IH] using rev_ind.
  - left. split; [reflexivity |]. intros c Hc. inversion Hc.
  - rewrite fold_left_app. simpl. apply compare_candidate_step, IH.
Qed.
End FormatDetectorFacts.

Lemma no_empty_fingerprint {Format : Type}
    (cands : list (Format * string * gset string)) :
  (forall c, c ∈ cands -> snd c <> ∅) ->
  existsb (fun candidate => (size (snd candidate) =? 0)%nat) cands = false.
Proof.
  intros H. induction cands as [|c cands IH]; [reflexivity |].
  simpl. rewrite IH by (intros c' Hc'; apply H; right; exact Hc').
  rewrite orb_false_r. apply Nat.eqb_neq.
  intros Hsize. apply (H c); [left |].
  apply size_empty_inv in Hsize. apply leibniz_equiv. exact Hsize.
Qed.

Lemma shared_headers_empty (match_set : gset string) :
  ~ (0 < shared_headers ∅ match_set)%Q.
Proof.
  unfold shared_headers.
  rewrite intersection_empty_l_L.
  rewrite size_empty. unfold Qdiv. rewrite Qmult_0_l. apply Qlt_irrefl.
Qed.

(** C5.  With a table of non-empty fingerprints, for every list of header
    tokens: each candidate is scored [|headers ∩ fingerprint| / |fingerprint|];
    when no candidate scores above zero (in particular when no token was
    extracted) the file is ingested by the Verbatim parser; otherwise the
    selected candidate scores above zero, no candidate scores higher, and
    every candidate compared after it scores strictly lower, so among
    equal scores the later one wins.  The outcome depends on the tokens
    only through the set of stripped headers. *)
Theorem infer_format_selects_last_best {Format : Type}
    (capture_fingerprints : @fingerprint_table Format)
    (construct : Format -> string -> construction)
    (found_headers : list string) :
  (forall c, c ∈ candidates capture_fingerprints -> snd c <> ∅) ->
  let header_set : gset string := list_to_set (map strip found_headers) in
  let cands := candidates capture_fingerprints in
  let score := candidate_score header_set in
  ((forall c, c ∈ cands -> ~ (0 < score c)%Q) ->
     infer_format capture_fingerprints construct found_headers = UseVerbatim)
  /\ ((exists c, c ∈ cands /\ (0 < score c)%Q) ->
      exists i app ver match_set,
        cands !! i = Some (app, ver, match_set)
        /\ (0 < score (app, ver, match_set))%Q
        /\ (forall j c, cands !! j = Some c ->
              (score c <= score (app, ver, match_set))%Q)
        /\ (forall j c, (i < j)%nat -> cands !! j = Some c ->
              (score c < score (app, ver, match_set))%Q)
        /\ select_format capture_fingerprints header_set
           = (Some (app, ver), score (app, ver, match_set))
        /\ (construct app ver = Constructed ->
            infer_format capture_fingerprints construct found_headers
            = UseParser app ver))
  /\ (found_headers = [] ->
      infer_format capture_fingerprints construct found_headers = UseVerbatim)
  /\ (forall other_headers,
        list_to_set (map strip other_headers) = header_set ->
        infer_format capture_fingerprints construct other_headers
        = infer_format capture_fingerprints construct found_headers).
Proof.
  intros Hnonempty header_set cands score.
  assert (Hinv : selected_so_far header_set cands
                   (select_format capture_fingerprints header_set))
    by apply fold_compare_selected.
  assert (Hverbatim :
    (forall c, c ∈ cands -> ~ (0 < score c)%Q) ->
    infer_format capture_fingerprints construct found_headers = UseVerbatim).
  { intros Hnone. unfold infer_format.
    rewrite (no_empty_fingerprint _ Hnonempty). fold header_set.
    destruct Hinv as [[-> _] | (i & app & ver & ms & Hi & _ & Hpos & _)].
    - reflexivity.
    - exfalso. apply (Hnone (app, ver, ms)); [|exact Hpos].
      eapply list_elem_of_lookup_2, Hi. }
  split; [exact Hverbatim |]. split; [|split].
  - intros (c & Hc & Hpos).
    destruct Hinv as [[_ Hnone] | (i & app & ver & ms & Hi & Hsel & Hp & Hmax & Hlast)].
    + exfalso. exact (Hnone c Hc Hpos).
    + exists i, app, ver, ms. repeat split; try assumption.
      intros Hcons. unfold infer_format.
      rewrite (no_empty_fingerprint _ Hnonempty). fold header_set.
      rewrite Hsel. cbn [fst]. rewrite Hcons. reflexivity.
  - intros ->. apply Hverbatim. intros c _.
    subst score header_set. unfold candidate_score. cbn [map list_to_set].
    apply shared_headers_empty.
  - intros other_headers Hsame. unfold infer_format. fold header_set.
    rewrite Hsame. reflexivity.
Qed.

Lemma infer_format_selects_last_best_witness :
  infer_format sample_fingerprints (fun _ _ => Constructed)
    [" Time"; "Frame "; "Power"; "Clock"]%string
  = UseParser "Alpha"%string "2.0"%string.
Proof.
  destruct (infer_format_selects_last_best sample_fingerprints
              (fun _ _ => Constructed)
              [" Time"; "Frame "; "Power"; "Clock"]%string)
    as (_ & Hbest & _).
  - intros c Hc. unfold sample_fingerprints, candidates in Hc.
    cbn [map concat app fst snd] in Hc.
    repeat (apply elem_of_cons in Hc as [-> | Hc];
            [cbn [snd]; intros He;
             apply (f_equal size) in He; vm_compute in He; discriminate |]).
    inversion Hc.
  - destruct Hbest as (i & app & ver & ms & _ & _ & _ & _ & Hsel & Hparser).
    + exists ("Alpha", "2.0", {["Time"; "Frame"; "Power"; "Clock"]})%string.
      split; [|vm_compute; reflexivity].
      unfold sample_fingerprints, candidates. cbn [map concat app fst snd].
      right. left.
    + assert (Hrun :
        select_format sample_fingerprints
          (list_to_set (map strip [" Time"; "Frame "; "Power"; "Clock"]%string))
        = (Some ("Alpha", "2.0")%string, 4 # 4)) by (vm_compute; reflexivity).
      rewrite Hrun in Hsel. injection Hsel as <- <- _.
      apply Hparser. reflexivity.
Defined.

(** Equal scores: the header set matches both versions of the first format
    completely, and the later version is selected. *)
Example infer_format_tie_goes_to_later :
  infer_format
    [("Alpha", [("1.0", {["Time"; "Frame"]}); ("1.1", {["Frame"; "Time"]})])]%string
    (fun _ _ => Constructed) ["Time"; "Frame"]%string
  = UseParser "Alpha"%string "1.1"%string.
Proof. vm_compute. reflexivity. Qed.

(** ** Polling-rate fallback (claim C7) *)

Lemma positive_time_deltas_nil (datetimes : list Q) :
  (forall d, d ∈ consecutive_deltas datetimes -> ~ (0 < d)%Q) ->
  positive_time_deltas datetimes = [].
Proof.
  unfold positive_time_deltas. intros Hnone.
  induction (consecutive_deltas datetimes) as [|d deltas IH];
    [reflexivity |].
  rewrite filter_cons. rewrite decide_False.
  - apply IH. intros d' Hd'. apply Hnone. right. exact Hd'.
  - intros Hd. apply Qlt_bool_iff in Hd. apply (Hnone d); [left | exact Hd].
Qed.

(** C7.  When the consecutive deltas of the parsed timestamps hold no
    strictly positive value, [infer_polling_rate] returns exactly 1.0; an
    Ideal file is degraded to Dirty and any other file keeps its grade, so
    the file is not Ideal afterwards: among the valid grades it is Dirty
    or worse. *)
Theorem infer_polling_rate_fallback
    (datetimes : list Q) (f : CaptureFile) :
  (forall d, d ∈ consecutive_deltas datetimes -> ~ (0 < d)%Q) ->
  let '(rate, f') := infer_polling_rate (Some datetimes) f in
  rate = Finite 1
  /\ integrity f' <> Ideal
  /\ (integrity f = Ideal -> integrity f' = Dirty)
  /\ (integrity f <> Ideal -> f' = f)
  /\ (valid (integrity f') = true -> id_of Dirty <= id_of (integrity f')).
Proof.
  intros Hnone. unfold infer_polling_rate.
  rewrite (positive_time_deltas_nil datetimes Hnone). cbn [length Nat.eqb orb].
  split; [reflexivity |].
  destruct (bool_decide (integrity f = Ideal)) eqn:Hideal.
  - apply bool_decide_eq_true_1 in Hideal.
    rewrite integrity_set_integrity.
    split; [discriminate |]. split; [reflexivity |].
    split; [intros Hne; contradiction |].
    intros _. simpl. lia.
  - apply bool_decide_eq_false_1 in Hideal.
    split; [exact Hideal |]. split; [intros Hi; contradiction |].
    split; [reflexivity |].
    destruct (integrity f); simpl; try discriminate; try lia.
    contradiction.
Qed.

Lemma infer_polling_rate_fallback_witness :
  fst (infer_polling_rate
         (Some [inject_Z 5; inject_Z 5; inject_Z 3])
         (set_integrity Ideal (new_capture_file OtherParser "1.0" ∅)))
  = Finite 1
  /\ integrity
       (snd (infer_polling_rate
               (Some [inject_Z 5; inject_Z 5; inject_Z 3])
               (set_integrity Ideal (new_capture_file OtherParser "1.0" ∅))))
     = Dirty.
Proof.
  pose proof (infer_polling_rate_fallback
                [inject_Z 5; inject_Z 5; inject_Z 3]
                (set_integrity Ideal (new_capture_file OtherParser "1.0" ∅)))
    as H.
  destruct (infer_polling_rate (Some [inject_Z 5; inject_Z 5; inject_Z 3])
              (set_integrity Ideal (new_capture_file OtherParser "1.0" ∅)))
    as [rate f'].
  destruct H as (Hrate & _ & Hdirty & _).
  - intros d Hd. cbn in Hd.
    repeat (apply elem_of_cons in Hd as [-> | Hd];
            [intros Hlt; vm_compute in Hlt; discriminate |]).
    inversion Hd.
  - split; [exact Hrate | apply Hdirty; reflexivity].
Defined.

(** With usable timestamps the rate is the median delta: one second here,
    the ten-second gap lying beyond three standard deviations. *)
Example infer_polling_rate_median :
  fst (infer_polling_rate
         (Some [inject_Z 1000000000; inject_Z 2000000000;
                inject_Z 3000000000; inject_Z 4000000000;
                inject_Z 5000000000; inject_Z 6000000000;
                inject_Z 7000000000; inject_Z 8000000000;
                inject_Z 9000000000; inject_Z 10000000000;
                inject_Z 11000000000; inject_Z 12000000000;
                inject_Z 22000000000])
         (new_capture_file OtherParser "1.0" ∅))
  = Finite (1000000000 # 1000000000).
Proof. vm_compute. reflexivity. Qed.

(** ** The statistics cache (claim C9) *)

Lemma use_cached_stats_file
    (none_hash : Z) (section : string) (criteria : list py_value)
    (s : session) :
  file (plot_object (snd (use_cached_stats none_hash section criteria s)))
  = file (plot_object s).
Proof.
  unfold use_cached_stats.
  destruct (_cache_hits s !! section) as [[hits calls]|]; [|reflexivity].
  destruct (bool_decide _); reflexivity.
Qed.

(** After the cache test has run for a section that has counters, the
    stored hash of the section is the hash of the current window and
    criteria. *)
Lemma use_cached_stats_stores_hash
    (none_hash : Z) (section : string) (criteria : list py_value)
    (s : session) (counters : Z * Z) :
  _cache_hits s !! section = Some counters ->
  let s1 := snd (use_cached_stats none_hash section criteria s) in
  _hashes (plot_object s1) !! section
  = Some (tuple_hash_lanes
            (map (value_hash none_hash)
                 (PyInt (offset (file (plot_object s)))
                  :: PyInt (height (file (plot_object s))) :: criteria)))
  /\ exists counters1, _cache_hits s1 !! section = Some counters1.
Proof.
  intros Hc. unfold use_cached_stats. rewrite Hc.
  destruct counters as [hits calls].
  destruct (bool_decide _) eqn:Hhit; cbn [snd plot_object _hashes _cache_hits].
  - apply bool_decide_eq_true_1 in Hhit. split; [exact Hhit |].
    eexists. apply lookup_insert_eq.
  - split; [apply lookup_insert_eq |]. eexists. apply lookup_insert_eq.
Qed.

(** C9.  Let a hashed statistics section be computed (its guard lets the
    cache test run), and let it be set again later in a session whose file
    has the same offset and height, with the same criteria, no call for
    this section in between (its stored hash and counters are as the first
    call left them; other sections may have run).  Then the cache test of
    the second call reports a hit, every statistics cell keeps its value,
    and the section's misses (calls minus hits) are what they were after
    the first call. *)
Theorem second_call_is_cache_hit
    (none_hash : Z) (sec : stats_section) (s s' : session) :
  section_guard sec (file (plot_object s)) = false ->
  let s1 := set_section_metrics none_hash sec s in
  offset (file (plot_object s')) = offset (file (plot_object s1)) ->
  height (file (plot_object s')) = height (file (plot_object s1)) ->
  _hashes (plot_object s') !! section_name sec
  = _hashes (plot_object s1) !! section_name sec ->
  _cache_hits s' !! section_name sec = _cache_hits s1 !! section_name sec ->
  let s2 := set_section_metrics none_hash sec s' in
  fst (use_cached_stats none_hash (section_name sec)
         (section_criteria sec) s') = true
  /\ stats (plot_object s2) = stats (plot_object s')
  /\ misses (section_name sec) s2 = misses (section_name sec) s'
  /\ misses (section_name sec) s2 = misses (section_name sec) s1.
Proof.
  intros Hguard s1 Hoffset Hheight Hhash Hcount s2.
  (* what the first call left behind *)
  assert (Hs1 :
    let t := snd (use_cached_stats none_hash (section_name sec)
                    (section_criteria sec) s) in
    offset (file (plot_object s1)) = offset (file (plot_object s))
    /\ height (file (plot_object s1)) = height (file (plot_object s))
    /\ _hashes (plot_object s1) = _hashes (plot_object t)
    /\ _cache_hits s1 = _cache_hits t).
  { subst s1. unfold set_section_metrics. rewrite Hguard.
    pose proof (use_cached_stats_file none_hash (section_name sec)
                  (section_criteria sec) s) as Hfile.
    destruct (use_cached_stats none_hash (section_name sec)
                (section_criteria sec) s) as [cached t].
    cbn [snd] in *. destruct cached; cbn [plot_object file _hashes _cache_hits];
      rewrite Hfile; repeat split. }
  destruct Hs1 as (Ho & Hh & Hhs & Hcs).
  rewrite Ho in Hoffset. rewrite Hh in Hheight.
  rewrite Hhs in Hhash. rewrite Hcs in Hcount.
  assert (Hmiss1 : misses (section_name sec) s'
                   = misses (section_name sec) s1).
  { unfold misses. rewrite Hcount, Hcs. reflexivity. }
  rewrite <- Hmiss1.
  assert (Hsecond :
    fst (use_cached_stats none_hash (section_name sec)
           (section_criteria sec) s') = true
    /\ stats (plot_object
                (snd (use_cached_stats none_hash (section_name sec)
                        (section_criteria sec) s')))
       = stats (plot_object s')
    /\ misses (section_name sec)
         (snd (use_cached_stats none_hash (section_name sec)
                 (section_criteria sec) s'))
       = misses (section_name sec) s').
  { destruct (_cache_hits s !! section_name sec) as [counters|] eqn:Hc.
    - destruct (use_cached_stats_stores_hash none_hash (section_name sec)
                  (section_criteria sec) s counters Hc)
        as (Hstored & counters1 & Hc1).
      rewrite Hstored in Hhash. rewrite Hc1 in Hcount.
      unfold use_cached_stats, misses. rewrite Hcount.
      destruct counters1 as [hits calls]. rewrite Hoffset, Hheight.
      rewrite (bool_decide_eq_true_2 _ Hhash).
      cbn [fst snd plot_object stats _cache_hits].
      rewrite lookup_insert_eq. repeat split. lia.
    - assert (Hnone : _cache_hits s' !! section_name sec = None).
      { rewrite Hcount. unfold use_cached_stats. rewrite Hc. exact Hc. }
      unfold use_cached_stats, misses. rewrite Hnone. cbn [fst snd].
      rewrite Hnone. repeat split. }
  destruct Hsecond as (Hhit & Hstats & Hmiss).
  split; [exact Hhit |].
  subst s2. unfold set_section_metrics.
  destruct (section_guard sec (file (plot_object s'))); [repeat split |].
  destruct (use_cached_stats none_hash (section_name sec)
              (section_criteria sec) s') as [cached t].
  cbn [fst snd] in *. subst cached. auto.
Qed.

Lemma second_call_is_cache_hit_witness :
  stats (plot_object
           (set_section_metrics 0
              {| section_name := "Display"; section_criteria := [PyInt 2];
                 section_guard := fun _ => false;
                 section_body := fun _ _ => [TextCell "1,000"] |}
              (set_section_metrics 0
                 {| section_name := "Display"; section_criteria := [PyInt 2];
                    section_guard := fun _ => false;
                    section_body := fun _ _ => [TextCell "1,000"] |}
                 {| plot_object :=
                      {| file := with_window 0 1000
                                   (new_capture_file OtherParser "1.0" ∅);
                         _hashes := initial_hashes;
                         stats := [TextCell "N/A"] |};
                    _cache_hits := initial_cache_hits |})))
  = stats (plot_object
             (set_section_metrics 0
                {| section_name := "Display"; section_criteria := [PyInt 2];
                   section_guard := fun _ => false;
                   section_body := fun _ _ => [TextCell "1,000"] |}
                {| plot_object :=
                     {| file := with_window 0 1000
                                  (new_capture_file OtherParser "1.0" ∅);
                        _hashes := initial_hashes;
                        stats := [TextCell "N/A"] |};
                   _cache_hits := initial_cache_hits |})).
Proof.
  set (sec := {| section_name := "Display"; section_criteria := [PyInt 2];
                 section_guard := fun _ => false;
                 section_body := fun _ _ => [TextCell "1,000"] |}).
  set (s0 := {| plot_object :=
                  {| file := with_window 0 1000
                               (new_capture_file OtherParser "1.0" ∅);
                     _hashes := initial_hashes;
                     stats := [TextCell "N/A"] |};
                _cache_hits := initial_cache_hits |}).
  destruct (second_call_is_cache_hit 0 sec s0 (set_section_metrics 0 sec s0))
    as (_ & Hstats & _);
    [reflexivity | reflexivity | reflexivity | reflexivity | reflexivity |].
  exact Hstats.
Defined.

(** A first call that misses counts one miss and runs the body; the
    repeated call counts none and leaves the cells alone. *)
Example display_section_set_twice :
  misses "Display"
    (set_section_metrics 0
       {| section_name := "Display"; section_criteria := [PyInt 2];
          section_guard := fun _ => false;
          section_body := fun _ _ => [TextCell "1,000"] |}
       {| plot_object :=
            {| file := with_window 0 1000 (new_capture_file OtherParser "1.0" ∅);
               _hashes := initial_hashes; stats := [TextCell "N/A"] |};
          _cache_hits := initial_cache_hits |}) = 1
  /\ misses "Display"
       (set_section_metrics 0
          {| section_name := "Display"; section_criteria := [PyInt 2];
             section_guard := fun _ => false;
             section_body := fun _ _ => [TextCell "1,000"] |}
          (set_section_metrics 0
             {| section_name := "Display"; section_criteria := [PyInt 2];
                section_guard := fun _ => false;
                section_body := fun _ _ => [TextCell "1,000"] |}
             {| plot_object :=
                  {| file := with_window 0 1000
                               (new_capture_file OtherParser "1.0" ∅);
                     _hashes := initial_hashes; stats := [TextCell "N/A"] |};
                _cache_hits := initial_cache_hits |})) = 1.
Proof. split; vm_compute; reflexivity. Qed.

(** ** The zero-filled placeholder column (claim C8) *)

(** A phrase whose header is not among the file's headers gets the file's
    zero column, with or without a row index; no exception is raised. *)
Lemma column_by_alias_unresolved
    (f : CaptureFile) (generic_phrase header : string) (index : option Z) :
  header_by_alias f generic_phrase = Some header ->
  header ∉ headers f ->
  column_by_alias f generic_phrase index = Some (zero_column f).
Proof.
  intros Halias Hmissing. unfold column_by_alias.
  assert (Hzero : column f "None" None = zero_column f).
  { unfold column. rewrite bool_decide_eq_true_2 by (left; reflexivity).
    reflexivity. }
  rewrite Hzero. destruct (bool_decide (generic_phrase = "None"%string));
    [reflexivity |].
  rewrite Halias. unfold column.
  rewrite (bool_decide_eq_false_2 _ Hmissing). rewrite orb_true_r.
  unfold zero_column. destruct (zero_col f); reflexivity.
Qed.

(** A phrase whose header names several columns of the table gets the
    same zero column. *)
Lemma column_by_alias_duplicated
    (f : CaptureFile) (generic_phrase header : string)
    (c1 c2 : string * list Q) (more : list (string * list Q)) :
  header_by_alias f generic_phrase = Some header ->
  named_columns (data f) header = c1 :: c2 :: more ->
  column_by_alias f generic_phrase None = Some (zero_column f).
Proof.
  intros Halias Hdup. unfold column_by_alias.
  assert (Hzero : column f "None" None = zero_column f).
  { unfold column. rewrite bool_decide_eq_true_2 by (left; reflexivity).
    reflexivity. }
  rewrite Hzero. destruct (bool_decide (generic_phrase = "None"%string));
    [reflexivity |].
  rewrite Halias. unfold column.
  destruct (bool_decide (header = "None"%string \/ header = "Index"%string)
            || negb (bool_decide (header ∈ headers f))).
  - unfold zero_column. destruct (zero_col f); reflexivity.
  - unfold data_loc. rewrite Hdup. reflexivity.
Qed.

Lemma update_integrity_by_inspection_window
    (recheck : bool) (f : CaptureFile) :
  let f' := update_integrity_by_inspection recheck f in
  offset f' = offset f /\ height f' = height f /\ zero_col f' = zero_col f.
Proof.
  unfold update_integrity_by_inspection.
  destruct (negb _); [repeat split |].
  destruct (passed_inspection f); [repeat split |].
  destruct (major_items f); repeat split.
Qed.

Lemma evaluate_integrity_window
    (o : battery_outcome) (properties_raise : bool) (f : CaptureFile) :
  let f' := evaluate_integrity o properties_raise f in
  offset f' = offset f /\ height f' = height f /\ zero_col f' = zero_col f.
Proof.
  unfold evaluate_integrity.
  destruct (_ =? _); [repeat split |].
  destruct properties_raise; [repeat split |].
  exact (update_integrity_by_inspection_window true
           (with_inspection
              (inspect_capture o
                 (with_integrity_hash (tuple_hash [height f; offset f]) f))
              (with_integrity_hash (tuple_hash [height f; offset f]) f))).
Qed.

Lemma evaluate_integrity_method_window
    (o : battery_outcome) (properties_raise : bool) (f : CaptureFile) :
  let f' := evaluate_integrity_method o properties_raise f in
  offset f' = offset f /\ height f' = height f /\ zero_col f' = zero_col f.
Proof.
  unfold evaluate_integrity_method.
  destruct (parser f);
    [apply evaluate_integrity_window | apply evaluate_integrity_window |].
  repeat split.
Qed.

Lemma resize_zero_column_matches (f f' : CaptureFile) :
  resize_zero_column f = Completed f' -> zero_col_matches f'.
Proof.
  unfold resize_zero_column. destruct (frames f <? 0) eqn:Hneg;
    [discriminate |].
  intros H. injection H as <-. apply Z.ltb_ge in Hneg.
  split; [exact Hneg | reflexivity].
Qed.

Lemma zero_col_matches_evaluate
    (o : battery_outcome) (properties_raise : bool) (f : CaptureFile) :
  zero_col_matches f ->
  zero_col_matches (evaluate_integrity_method o properties_raise f).
Proof.
  intros [Hnn Hz].
  destruct (evaluate_integrity_method_window o properties_raise f)
    as (Ho & Hh & Hzc).
  unfold zero_col_matches, frames in *. rewrite Ho, Hh, Hzc. auto.
Qed.

(** [reset_time_axis], when it completes, leaves a zero column of the
    visible length. *)
Lemma reset_time_axis_matches
    (o : battery_outcome) (properties_raise : bool) (f f' : CaptureFile) :
  reset_time_axis o properties_raise f = Completed f' -> zero_col_matches f'.
Proof.
  unfold reset_time_axis.
  destruct (start_time_at_zero _) as [f1|f1]; [|discriminate].
  cbn [and_then].
  destruct (resize_zero_column f1) as [f2|f2] eqn:Hr; [|discriminate].
  cbn [and_then]. intros H. injection H as <-.
  apply zero_col_matches_evaluate. eapply resize_zero_column_matches, Hr.
Qed.

(** So does [trim_time_axis], the sibling that moves the window. *)
Lemma trim_time_axis_matches
    (relation : string) (cutoff : Q) (o : battery_outcome)
    (properties_raise : bool) (f f' : CaptureFile) :
  trim_time_axis_body relation cutoff o properties_raise f = Completed f' ->
  zero_col_matches f'.
Proof.
  unfold trim_time_axis_body.
  destruct (header_by_alias f "Elapsed Time"); [|discriminate].
  destruct (named_columns (data f) s) as [|c [|c' more]]; try discriminate.
  match goal with
  | |- and_then ?a _ = _ -> _ => destruct a as [f1|f1]; [|discriminate]
  end.
  cbn [and_then].
  destruct (update_time_metadata f1) as [f2|f2]; [|discriminate].
  cbn [and_then].
  destruct (resize_zero_column f2) as [f3|f3] eqn:Hr; [|discriminate].
  cbn [and_then]. intros H. injection H as <-.
  apply zero_col_matches_evaluate. eapply resize_zero_column_matches, Hr.
Qed.

(** Where the zero column matches the window, an unresolved phrase gets
    [height - offset] zeros. *)
Lemma column_by_alias_zero_filled
    (f : CaptureFile) (generic_phrase header : string) (index : option Z) :
  zero_col_matches f ->
  header_by_alias f generic_phrase = Some header ->
  header ∉ headers f ->
  column_by_alias f generic_phrase index
  = Some (Series (repeat 0%Q (Z.to_nat (height f - offset f)))).
Proof.
  intros [_ Hz] Halias Hmissing.
  rewrite (column_by_alias_unresolved f generic_phrase header index
             Halias Hmissing).
  unfold zero_column. rewrite Hz. reflexivity.
Qed.

(** C8 at the failing input: a valid five-row capture for which an earlier
    session saved the trim "rows 1 to 3".  [valid_file_setup] sizes the
    zero column for the full table and then [restore_saved_properties]
    moves the window without resizing it: three rows are visible, and the
    placeholder for the unresolved "GPU Voltage" has five zeros. *)
Example placeholder_stale_after_restore :
  completed (valid_file_setup (Some saved_trim) false headerless_outcome false
               sample_capture) = true
  /\ frames (file_after
               (valid_file_setup (Some saved_trim) false headerless_outcome
                  false sample_capture)) = 3
  /\ header_by_alias
       (file_after
          (valid_file_setup (Some saved_trim) false headerless_outcome
             false sample_capture)) "GPU Voltage"
     = Some "None"%string
  /\ column_by_alias
       (file_after
          (valid_file_setup (Some saved_trim) false headerless_outcome
             false sample_capture)) "GPU Voltage" None
     = Some (Series [0; 0; 0; 0; 0]%Q).
Proof. repeat split; vm_compute; reflexivity. Qed.

(** Before the first [reset_time_axis] there is no zero column at all and
    the placeholder is Python's [None]. *)
Example placeholder_missing_before_setup :
  column_by_alias sample_capture "GPU Voltage" None = Some NoColumn.
Proof. vm_compute. reflexivity. Qed.

(** After a trim made in the session the placeholder has the visible
    length. *)
Example placeholder_after_trim :
  column_by_alias
    (trim_time_axis "Before" (inject_Z 2) headerless_outcome false
       (file_after (reset_time_axis headerless_outcome false sample_capture)))
    "GPU Voltage" None
  = Some (Series [0; 0; 0]%Q).
Proof. vm_compute. reflexivity. Qed.

(** ** Repeated headers *)

Lemma occurrences_app h l k :
  occurrences h (l ++ k) = (occurrences h l + occurrences h k)%nat.
Proof. unfold occurrences. rewrite filter_app, length_app. reflexivity. Qed.

Lemma occurrences_cons h x l :
  occurrences h (x :: l)
  = ((if bool_decide (x = h) then 1 else 0) + occurrences h l)%nat.
Proof.
  unfold occurrences. rewrite filter_cons.
  destruct (decide (x = h)) as [E|E].
  - rewrite (bool_decide_eq_true_2 _ E). reflexivity.
  - rewrite (bool_decide_eq_false_2 _ E). reflexivity.
Qed.

Lemma occurrences_NoDup h l :
  NoDup l -> occurrences h l = if bool_decide (h ∈ l) then 1%nat else 0%nat.
Proof.
  induction 1 as [|x l Hx Hnd IH].
  - reflexivity.
  - rewrite occurrences_cons, IH.
    destruct (decide (x = h)) as [->|E].
    + rewrite (bool_decide_eq_true_2 (h = h)) by reflexivity.
      rewrite (bool_decide_eq_false_2 _ Hx).
      rewrite bool_decide_eq_true_2 by left. reflexivity.
    + rewrite (bool_decide_eq_false_2 _ E). simpl.
      destruct (decide (h ∈ l)) as [Hin|Hin].
      * rewrite (bool_decide_eq_true_2 _ Hin).
        rewrite bool_decide_eq_true_2 by (right; exact Hin). reflexivity.
      * rewrite (bool_decide_eq_false_2 _ Hin).
        rewrite bool_decide_eq_false_2; [reflexivity |].
        intros Hc. apply elem_of_cons in Hc as [Hc|Hc]; [congruence | auto].
Qed.

Lemma occurrences_pos h l : h ∈ l <-> (0 < occurrences h l)%nat.
Proof.
  induction l as [|x l IH].
  - split; [inversion 1 | unfold occurrences; simpl; intros H; lia].
  - rewrite occurrences_cons, elem_of_cons.
    destruct (decide (x = h)) as [->|E].
    + rewrite bool_decide_eq_true_2 by reflexivity. split; [intros _; lia | auto].
    + rewrite (bool_decide_eq_false_2 _ E). simpl. rewrite <- IH.
      split; [intros [H|H]; [congruence | exact H] | auto].
Qed.

Lemma duplicate_scan_spec hs u d :
  NoDup u ->
  let '(u', d') := duplicate_scan hs (u, d) in
  NoDup u'
  /\ (forall h, h ∈ u' <-> h ∈ u \/ h ∈ hs)
  /\ (forall h, (occurrences h u' + occurrences h d'
                 = occurrences h u + occurrences h d + occurrences h hs)%nat).
Proof.
  revert u d. induction hs as [|x hs IH]; intros u d Hnd.
  - simpl. split; [exact Hnd |]. split.
    + intros h. split; [auto | intros [H|H]; [exact H | inversion H]].
    + intros h. unfold occurrences at 5. simpl. lia.
  - unfold duplicate_scan. cbn [fold_left].
    destruct (decide (x ∈ u)) as [Hin|Hin].
    + rewrite (bool_decide_eq_true_2 _ Hin).
      specialize (IH u (d ++ [x]) Hnd). unfold duplicate_scan in IH.
      destruct (fold_left _ hs (u, d ++ [x])) as [u' d'].
      destruct IH as (H1 & H2 & H3). split; [exact H1 |]. split.
      * intros h. rewrite H2, elem_of_cons. split; [tauto |].
        intros [H | [-> | H]]; auto.
      * intros h. rewrite H3, occurrences_app, (occurrences_cons h x hs).
        unfold occurrences at 3. simpl filter. rewrite filter_cons, filter_nil.
        destruct (decide (x = h)) as [E|E].
        -- rewrite (bool_decide_eq_true_2 _ E). simpl. lia.
        -- rewrite (bool_decide_eq_false_2 _ E). simpl. lia.
    + rewrite (bool_decide_eq_false_2 _ Hin).
      assert (Hnd' : NoDup (u ++ [x])).
      { apply NoDup_app. split; [exact Hnd |]. split.
        - intros y Hy Hy'. apply list_elem_of_singleton in Hy'. congruence.
        - apply NoDup_singleton. }
      specialize (IH (u ++ [x]) d Hnd'). unfold duplicate_scan in IH.
      destruct (fold_left _ hs (u ++ [x], d)) as [u' d'].
      destruct IH as (H1 & H2 & H3). split; [exact H1 |]. split.
      * intros h. rewrite H2, elem_of_app, list_elem_of_singleton, elem_of_cons.
        tauto.
      * intros h. rewrite H3, occurrences_app, (occurrences_cons h x hs).
        unfold occurrences at 2. rewrite filter_cons, filter_nil.
        destruct (decide (x = h)) as [E|E].
        -- rewrite (bool_decide_eq_true_2 _ E). simpl. lia.
        -- rewrite (bool_decide_eq_false_2 _ E). simpl. lia.
Qed.

(** X1.  find_duplicate_headers leaves the file as it is exactly when no
    header is repeated; otherwise duplicate_headers becomes a list that
    holds each header one time fewer than the headers do, so every
    repeat is recorded once and a header that occurs once is not
    recorded. *)
Theorem find_duplicate_headers_records_repeats (f : CaptureFile) :
  exists duplicates,
    find_duplicate_headers f
    = match duplicates with
      | [] => f
      | _ => with_duplicate_headers (Some duplicates) f
      end
    /\ (duplicates = [] <-> NoDup (headers f))
    /\ forall h, occurrences h duplicates = pred (occurrences h (headers f)).
Proof.
  unfold find_duplicate_headers.
  pose proof (duplicate_scan_spec (headers f) [] [] (NoDup_nil_2)) as H.
  unfold duplicate_scan in H.
  destruct (fold_left _ (headers f) ([], [])) as [u d].
  destruct H as (Hnd & Hmem & Hcount).
  assert (Hocc : forall h, occurrences h d = pred (occurrences h (headers f))).
  { intros h. specialize (Hcount h). rewrite (occurrences_NoDup h u Hnd) in Hcount.
    unfold occurrences at 2 3 in Hcount. simpl in Hcount.
    destruct (decide (h ∈ u)) as [Hin|Hin].
    - rewrite (bool_decide_eq_true_2 _ Hin) in Hcount. lia.
    - rewrite (bool_decide_eq_false_2 _ Hin) in Hcount.
      assert (occurrences h (headers f) = 0%nat).
      { destruct (occurrences h (headers f)) eqn:E; [reflexivity |].
        exfalso. apply Hin, Hmem. right. apply occurrences_pos. lia. }
      lia. }
  exists d. split; [destruct d; reflexivity |]. split; [|exact Hocc].
  split.
  - intros ->. apply NoDup_alt. intros i j h Hi Hj.
    destruct (decide (i = j)) as [E|E]; [exact E | exfalso].
    specialize (Hocc h). unfold occurrences at 1 in Hocc. simpl in Hocc.
    assert (2 <= occurrences h (headers f))%nat; [|lia].
    clear Hocc Hcount Hmem Hnd.
    revert i j Hi Hj E. induction (headers f) as [|x l IH]; intros i j Hi Hj E.
    + rewrite lookup_nil in Hi. discriminate.
    + rewrite occurrences_cons. destruct i as [|i], j as [|j].
      * congruence.
      * simpl in Hi. injection Hi as ->. simpl in Hj.
        rewrite bool_decide_eq_true_2 by reflexivity.
        apply list_elem_of_lookup_2 in Hj. apply occurrences_pos in Hj. lia.
      * simpl in Hj. injection Hj as ->. simpl in Hi.
        rewrite bool_decide_eq_true_2 by reflexivity.
        apply list_elem_of_lookup_2 in Hi. apply occurrences_pos in Hi. lia.
      * simpl in Hi, Hj. specialize (IH i j Hi Hj ltac:(congruence)). lia.
  - intros Hnodup. destruct d as [|h d]; [reflexivity | exfalso].
    specialize (Hocc h). rewrite occurrences_cons in Hocc.
    rewrite bool_decide_eq_true_2 in Hocc by reflexivity.
    rewrite (occurrences_NoDup h _ Hnodup) in Hocc.
    destruct (bool_decide (h ∈ headers f)); simpl in Hocc; lia.
Qed.

(** ** The window of the time axis *)

Lemma update_integrity_by_inspection_table (recheck : bool) (f : CaptureFile) :
  same_table f (update_integrity_by_inspection recheck f).
Proof.
  unfold update_integrity_by_inspection, same_table.
  destruct (negb _); [repeat split |].
  destruct (passed_inspection f); [repeat split |].
  destruct (major_items f); repeat split.
Qed.

Lemma evaluate_integrity_table
    (o : battery_outcome) (properties_raise : bool) (f : CaptureFile) :
  same_table f (evaluate_integrity o properties_raise f).
Proof.
  unfold evaluate_integrity.
  destruct (_ =? _); [repeat split |].
  destruct properties_raise; [repeat split |].
  exact (update_integrity_by_inspection_table true
           (with_inspection
              (inspect_capture o
                 (with_integrity_hash (tuple_hash [height f; offset f]) f))
              (with_integrity_hash (tuple_hash [height f; offset f]) f))).
Qed.

Lemma evaluate_integrity_method_table
    (o : battery_outcome) (properties_raise : bool) (f : CaptureFile) :
  same_table f (evaluate_integrity_method o properties_raise f).
Proof.
  unfold evaluate_integrity_method.
  destruct (parser f);
    [apply evaluate_integrity_table | apply evaluate_integrity_table |].
  repeat split.
Qed.

Lemma start_time_at_zero_window (f : CaptureFile) :
  let f' := file_after (start_time_at_zero f) in
  offset f' = offset f /\ height f' = height f
  /\ df_rows (data f') = df_rows (data f).
Proof.
  unfold start_time_at_zero.
  destruct (header_by_alias f "Elapsed Time"); [|repeat split].
  destruct (column f s (Some (offset f))); repeat split.
Qed.

Lemma resize_zero_column_window (f : CaptureFile) :
  let f' := file_after (resize_zero_column f) in
  offset f' = offset f /\ height f' = height f /\ data f' = data f.
Proof.
  unfold resize_zero_column. destruct (frames f <? 0); repeat split.
Qed.

(** Whether or not it completes, [reset_time_axis] leaves the window on
    the whole table. *)
Lemma reset_time_axis_window
    (o : battery_outcome) (properties_raise : bool) (f : CaptureFile) :
  let f' := file_after (reset_time_axis o properties_raise f) in
  offset f' = 0 /\ height f' = Z.of_nat (df_rows (data f))
  /\ df_rows (data f') = df_rows (data f).
Proof.
  unfold reset_time_axis.
  set (f0 := with_window 0 (Z.of_nat (df_rows (data f))) f).
  pose proof (start_time_at_zero_window f0) as (Ho & Hh & Hd).
  destruct (start_time_at_zero f0) as [f1|f1]; cbn [and_then file_after] in *;
    [|auto].
  pose proof (resize_zero_column_window f1) as (Ho1 & Hh1 & Hd1).
  destruct (resize_zero_column f1) as [f2|f2]; cbn [and_then file_after] in *.
  - destruct (evaluate_integrity_method_window o properties_raise f2)
      as (Ho2 & Hh2 & _).
    destruct (evaluate_integrity_method_table o properties_raise f2)
      as (_ & _ & _ & _ & Hd2 & _).
    rewrite Ho2, Hh2, Hd2, Ho1, Hh1, Hd1, Ho, Hh, Hd. auto.
  - rewrite Ho1, Hh1, Hd1, Ho, Hh, Hd. auto.
Qed.

Lemma count_where_bounds (test : Q -> bool) (col : list Q) :
  0 <= count_where test col <= Z.of_nat (length col).
Proof.
  unfold count_where. pose proof (length_filter (fun x => test x = true) col).
  lia.
Qed.

(** X2.  For a file whose time alias names one column as long as the table
    and whose window starts at a non-negative offset and ends within the
    table, trim_time_axis with any relation and cutoff keeps the table's
    rows and leaves a window that again lies within the table; that
    window shows at least two rows or has been reset to the whole table
    (offset 0, height = number of rows). *)
Theorem trim_time_axis_keeps_window
    (relation : string) (cutoff : Q) (o : battery_outcome)
    (properties_raise : bool) (f : CaptureFile)
    (time_alias : string) (timestamps : list Q) :
  header_by_alias f "Elapsed Time" = Some time_alias ->
  named_columns (data f) time_alias = [(time_alias, timestamps)] ->
  length timestamps = df_rows (data f) ->
  0 <= offset f -> height f <= Z.of_nat (df_rows (data f)) ->
  let f' := trim_time_axis relation cutoff o properties_raise f in
  let rows := Z.of_nat (df_rows (data f')) in
  df_rows (data f') = df_rows (data f)
  /\ 0 <= offset f' /\ height f' <= rows
  /\ (2 <= frames f' \/ (offset f' = 0 /\ height f' = rows)).
Proof.
  intros Halias Hcol Hlen Hoff Hheight.
  unfold trim_time_axis, trim_time_axis_body. rewrite Halias, Hcol.
  cbn [snd].
  set (g := if bool_decide (relation = "Before"%string \/ relation = "Drop"%string)
            then _ else _).
  assert (Hg : data g = data f /\ 0 <= offset g
               /\ height g <= Z.of_nat (df_rows (data f))).
  { subst g.
    pose proof (count_where_bounds (fun t => Qlt_bool t cutoff) timestamps).
    pose proof (count_where_bounds (fun t => Qlt_bool cutoff t) timestamps).
    destruct (bool_decide (relation = "Before"%string \/ relation = "Drop"%string)).
    - destruct (bool_decide (relation = "Before"%string));
        cbn [with_window data offset height]; repeat split; lia.
    - destruct (_ <? _); cbn [with_window data offset height];
        repeat split; lia. }
  destruct Hg as (Hgd & Hgo & Hgh).
  set (a := if (height g <=? offset g) || (frames g <? 2)
            then reset_time_axis o properties_raise g else Completed g).
  assert (Ha : df_rows (data (file_after a)) = df_rows (data f)
               /\ 0 <= offset (file_after a)
               /\ height (file_after a) <= Z.of_nat (df_rows (data f))
               /\ (2 <= frames (file_after a)
                   \/ (offset (file_after a) = 0
                       /\ height (file_after a) = Z.of_nat (df_rows (data f))))).
  { subst a. destruct ((height g <=? offset g) || (frames g <? 2)) eqn:Hbad.
    - pose proof (reset_time_axis_window o properties_raise g) as (H1 & H2 & H3).
      cbn zeta in *. rewrite Hgd in *. rewrite H1, H2, H3.
      repeat split; try lia; try (right; auto).
    - apply orb_false_iff in Hbad as [_ Hfr]. apply Z.ltb_ge in Hfr.
      cbn [file_after]. rewrite Hgd. repeat split; try lia; try (left; exact Hfr). }
  clearbody a. clear g Hgd Hgo Hgh.
  destruct Ha as (Hr & Ha1 & Ha2 & Ha3).
  destruct a as [f1|f1]; cbn [and_then file_after] in *;
    [|rewrite Hr; auto].
  assert (Hu : file_after (update_time_metadata f1) = f1).
  { unfold update_time_metadata.
    destruct (column_by_alias f1 "Elapsed Time" (Some 0)) as [[| [|? [|]] | |]|];
      reflexivity. }
  destruct (update_time_metadata f1) as [f2|f2]; cbn [and_then file_after] in *;
    subst f2; [|rewrite Hr; auto].
  pose proof (resize_zero_column_window f1) as (Ho1 & Hh1 & Hd1).
  destruct (resize_zero_column f1) as [f3|f3]; cbn [and_then file_after] in *.
  - destruct (evaluate_integrity_method_window o properties_raise f3)
      as (Ho2 & Hh2 & _).
    destruct (evaluate_integrity_method_table o properties_raise f3)
      as (_ & _ & _ & _ & Hd2 & _).
    unfold frames in *. rewrite Ho2, Hh2, Hd2, Ho1, Hh1, Hd1, Hr. auto.
  - unfold frames in *. rewrite Ho1, Hh1, Hd1, Hr. auto.
Qed.

Lemma trim_time_axis_keeps_window_witness :
  df_rows (data (trim_time_axis "Before" (inject_Z 2) headerless_outcome false
                   sample_capture))
  = df_rows (data sample_capture)
  /\ 0 <= offset (trim_time_axis "Before" (inject_Z 2) headerless_outcome false
                    sample_capture)
  /\ height (trim_time_axis "Before" (inject_Z 2) headerless_outcome false
               sample_capture)
     <= Z.of_nat (df_rows (data (trim_time_axis "Before" (inject_Z 2)
                                   headerless_outcome false sample_capture)))
  /\ (2 <= frames (trim_time_axis "Before" (inject_Z 2) headerless_outcome false
                     sample_capture)
      \/ (offset (trim_time_axis "Before" (inject_Z 2) headerless_outcome false
                    sample_capture) = 0
          /\ height (trim_time_axis "Before" (inject_Z 2) headerless_outcome
                       false sample_capture)
             = Z.of_nat (df_rows (data (trim_time_axis "Before" (inject_Z 2)
                                          headerless_outcome false
                                          sample_capture))))).
Proof.
  apply (trim_time_axis_keeps_window "Before" (inject_Z 2) headerless_outcome
           false sample_capture "Time"
           [inject_Z 0; inject_Z 1; inject_Z 2; inject_Z 3; inject_Z 4]).
  - reflexivity.
  - reflexivity.
  - reflexivity.
  - simpl. lia.
  - simpl. lia.
Defined.

(** ** The time origin, the visible rows and the integrity hash *)

Lemma named_columns_map (name : string) (g : Q -> Q) (frame : DataFrame) :
  named_columns (map_named_column name g frame) name
  = map (fun c => (fst c, map g (snd c))) (named_columns frame name).
Proof.
  unfold named_columns, map_named_column. cbn [df_columns].
  induction (df_columns frame) as [|c cs IH]; [reflexivity |].
  cbn [map]. rewrite !filter_cons.
  destruct (decide (fst c = name)) as [E|E].
  - rewrite (bool_decide_eq_true_2 _ E). cbn [fst].
    rewrite decide_True by exact E. cbn [map]. rewrite IH. reflexivity.
  - rewrite (bool_decide_eq_false_2 _ E).
    rewrite decide_False by exact E. exact IH.
Qed.

Lemma np_round_origin (decimals : Z) (x : Q) :
  (np_round decimals (x - x) == 0)%Q.
Proof.
  unfold np_round.
  assert (H : round_half_even ((x - x) * inject_Z (10 ^ decimals)) = 0).
  { assert (Hz : ((x - x) * inject_Z (10 ^ decimals) == 0)%Q) by ring.
    unfold round_half_even.
    assert (Hf : Qfloor ((x - x) * inject_Z (10 ^ decimals)) = 0).
    { rewrite (Qfloor_comp _ _ Hz). reflexivity. }
    rewrite Hf.
    replace (Qlt_bool ((x - x) * inject_Z (10 ^ decimals) - inject_Z 0) (1 # 2))
      with true; [reflexivity |].
    symmetry. apply Qlt_bool_iff. rewrite Hz. reflexivity. }
  rewrite H. unfold Qdiv. ring.
Qed.

(** X3.  When reset_time_axis completes, the window is the whole table
    (offset 0, height = number of rows) and the elapsed time read at row
    0 is a single number equal to 0. *)
Theorem reset_time_axis_origin
    (o : battery_outcome) (properties_raise : bool) (f f' : CaptureFile) :
  reset_time_axis o properties_raise f = Completed f' ->
  offset f' = 0 /\ height f' = Z.of_nat (df_rows (data f))
  /\ exists first_timestamp,
       column_by_alias f' "Elapsed Time" (Some 0) = Some (Scalar first_timestamp)
       /\ (first_timestamp == 0)%Q.
Proof.
  intros Hreset.
  pose proof (reset_time_axis_window o properties_raise f) as (Ho & Hh & _).
  rewrite Hreset in Ho, Hh. cbn [file_after] in Ho, Hh.
  split; [exact Ho |]. split; [exact Hh |].
  unfold reset_time_axis in Hreset.
  set (f0 := with_window 0 (Z.of_nat (df_rows (data f))) f) in *.
  unfold start_time_at_zero in Hreset.
  destruct (header_by_alias f0 "Elapsed Time") as [time_alias|] eqn:Halias;
    [|discriminate].
  destruct (column f0 time_alias (Some (offset f0))) as [| | |initial] eqn:Hcol;
    try discriminate.
  cbn [and_then] in Hreset.
  set (f1 := with_data _ f0) in *.
  unfold resize_zero_column in Hreset.
  destruct (frames f1 <? 0); [discriminate |]. cbn [and_then] in Hreset.
  injection Hreset as <-.
  set (f2 := with_zero_col _ f1).
  destruct (evaluate_integrity_method_table o properties_raise f2)
    as (_ & Hv & Ha & Hhd & Hd & Hfb).
  (* the lookup that gave the origin *)
  unfold column in Hcol. cbn [offset f0 with_window] in Hcol.
  destruct (bool_decide (time_alias = "None"%string \/ time_alias = "Index"%string)
            || negb (bool_decide (time_alias ∈ headers f0))) eqn:Hguard.
  { unfold zero_column in Hcol. destruct (zero_col f0); discriminate. }
  unfold data_at in Hcol. cbn [Z.ltb Z.compare] in Hcol.
  destruct (named_columns (data f0) time_alias) as [|c [|c' more]] eqn:Hnamed.
  { unfold zero_column in Hcol. destruct (zero_col f0); discriminate. }
  2:{ destruct (mapM _ _); cbn in Hcol;
      [discriminate | unfold zero_column in Hcol;
                      destruct (zero_col f0); discriminate]. }
  destruct (snd c !! Z.to_nat 0) as [t0|] eqn:Ht0; cbn in Hcol.
  2:{ unfold zero_column in Hcol. destruct (zero_col f0); discriminate. }
  injection Hcol as <-.
  (* the same lookup after the shift *)
  assert (Halias' :
    header_by_alias (evaluate_integrity_method o properties_raise f2)
      "Elapsed Time" = Some time_alias).
  { unfold header_by_alias, preferred_aliases in *. rewrite Hv, Ha, Hfb.
    exact Halias. }
  exists (np_round 9 (t0 - t0)). split; [|apply np_round_origin].
  unfold column_by_alias. rewrite bool_decide_eq_false_2 by discriminate.
  rewrite Halias'. unfold column. rewrite Hhd. cbn [headers f2 f1 with_zero_col with_data].
  fold f0. rewrite Hguard.
  unfold data_at. cbn [Z.ltb Z.compare]. rewrite Hd.
  cbn [data f2 f1 with_zero_col with_data].
  rewrite named_columns_map, Hnamed. cbn [map snd].
  rewrite list_lookup_fmap, Ht0. reflexivity.
Qed.

Lemma reset_time_axis_origin_witness :
  offset (file_after (reset_time_axis headerless_outcome false sample_capture))
  = 0
  /\ height (file_after (reset_time_axis headerless_outcome false
                           sample_capture))
     = Z.of_nat (df_rows (data sample_capture))
  /\ exists first_timestamp,
       column_by_alias
         (file_after (reset_time_axis headerless_outcome false sample_capture))
         "Elapsed Time" (Some 0)
       = Some (Scalar first_timestamp)
       /\ (first_timestamp == 0)%Q.
Proof.
  apply (reset_time_axis_origin headerless_outcome false sample_capture
           (file_after (reset_time_axis headerless_outcome false
                          sample_capture))).
  vm_compute. reflexivity.
Defined.

(** X4.  When the alias of a phrase resolves to a header of the file that
    names exactly one column, and the window lies within that column (0
    <= offset <= height <= length), column_by_alias returns a series of
    exactly frames() = height - offset values, the i-th being the
    column's value at row offset + i. *)
Theorem column_by_alias_visible_rows
    (f : CaptureFile) (generic_phrase header : string) (col : list Q) :
  generic_phrase <> "None"%string ->
  header_by_alias f generic_phrase = Some header ->
  header ∈ headers f -> header <> "None"%string -> header <> "Index"%string ->
  named_columns (data f) header = [(header, col)] ->
  0 <= offset f <= height f -> height f <= Z.of_nat (length col) ->
  exists values,
    column_by_alias f generic_phrase None = Some (Series values)
    /\ Z.of_nat (length values) = frames f
    /\ forall i : nat,
         Z.of_nat i < frames f ->
         values !! i = col !! (Z.to_nat (offset f) + i)%nat.
Proof.
  intros Hphrase Halias Hin Hnone Hindex Hcol Hwin Hrows.
  exists (loc_rows (offset f) (height f - 1) col). split; [|split].
  - unfold column_by_alias. rewrite (bool_decide_eq_false_2 _ Hphrase), Halias.
    unfold column.
    rewrite bool_decide_eq_false_2 by (intros [H|H]; congruence).
    rewrite (bool_decide_eq_true_2 _ Hin). cbn [negb orb].
    unfold data_loc. rewrite Hcol. reflexivity.
  - unfold loc_rows, frames. rewrite length_drop, length_take. lia.
  - intros i Hi. unfold loc_rows, frames in *.
    rewrite lookup_drop, lookup_take_lt by lia. reflexivity.
Qed.

Lemma column_by_alias_visible_rows_witness :
  exists values,
    column_by_alias (with_window 1 4 sample_capture) "Frametimes" None
    = Some (Series values)
    /\ Z.of_nat (length values) = frames (with_window 1 4 sample_capture)
    /\ forall i : nat,
         Z.of_nat i < frames (with_window 1 4 sample_capture) ->
         values !! i
         = [inject_Z 16; inject_Z 17; inject_Z 16; inject_Z 18; inject_Z 16]
             !! (Z.to_nat (offset (with_window 1 4 sample_capture)) + i)%nat.
Proof.
  apply (column_by_alias_visible_rows (with_window 1 4 sample_capture)
           "Frametimes" "Frametime"
           [inject_Z 16; inject_Z 17; inject_Z 16; inject_Z 18; inject_Z 16]).
  - discriminate.
  - reflexivity.
  - right. left.
  - discriminate.
  - discriminate.
  - reflexivity.
  - simpl. lia.
  - simpl. lia.
Defined.

Lemma update_integrity_by_inspection_hash (recheck : bool) (f : CaptureFile) :
  integrity_hash (update_integrity_by_inspection recheck f) = integrity_hash f.
Proof.
  unfold update_integrity_by_inspection.
  destruct (negb _); [reflexivity |].
  destruct (passed_inspection f); [reflexivity |].
  destruct (major_items f); reflexivity.
Qed.

(** X5.  PresentMon.evaluate_integrity run a second time right after a first
    run changes nothing, whatever the inspection would find then: the
    hash of (height, offset) stored by the first run makes the second
    return at once. *)
Theorem evaluate_integrity_skips_unchanged_window
    (o o' : battery_outcome) (properties_raise properties_raise' : bool)
    (f : CaptureFile) :
  evaluate_integrity o' properties_raise' (evaluate_integrity o properties_raise f)
  = evaluate_integrity o properties_raise f.
Proof.
  set (f1 := evaluate_integrity o properties_raise f).
  assert (H : integrity_hash f1 = tuple_hash [height f1; offset f1]).
  { pose proof (evaluate_integrity_window o properties_raise f) as (Ho & Hh & _).
    fold f1 in Ho, Hh. rewrite Ho, Hh. subst f1. unfold evaluate_integrity.
    destruct (tuple_hash [height f; offset f] =? integrity_hash f) eqn:E.
    - apply Z.eqb_eq in E. symmetry. exact E.
    - destruct properties_raise; [reflexivity |].
      rewrite update_integrity_by_inspection_hash. reflexivity. }
  unfold evaluate_integrity at 1. rewrite <- H, Z.eqb_refl. reflexivity.
Qed.

(** ** The integrity signal *)

Lemma no_repeated_signal_snoc (emitted : list Integrity) (previous value : Integrity) :
  no_repeated_signal emitted -> last emitted = Some previous ->
  value <> previous -> no_repeated_signal (emitted ++ [value]).
Proof.
  intros Hno Hlast Hne i a b Ha Hb.
  destruct (decide (S i < length emitted)%nat) as [Hlt|Hge].
  - rewrite lookup_app_l in Ha by lia. rewrite lookup_app_l in Hb by lia.
    eapply Hno; eassumption.
  - assert (Hi : S i = length emitted).
    { apply lookup_lt_Some in Hb. rewrite length_app in Hb. simpl in Hb. lia. }
    rewrite lookup_app_l in Ha by lia.
    rewrite lookup_app_r in Hb by lia.
    rewrite Hi, Nat.sub_diag in Hb. simpl in Hb. injection Hb as <-.
    rewrite last_lookup in Hlast.
    replace (pred (length emitted)) with i in Hlast by lia.
    congruence.
Qed.

Lemma set_integrity_in_step (value : Integrity) (f : CaptureFile) :
  signals_in_step f -> signals_in_step (set_integrity value f).
Proof.
  intros (Hhead & Hlast & Hno). unfold set_integrity, signals_in_step.
  destruct (decide (value = integrity f)) as [E|E].
  - rewrite (bool_decide_eq_true_2 _ E). cbn [negb with_integrity_field signals integrity].
    rewrite E. auto.
  - rewrite (bool_decide_eq_false_2 _ E). cbn [negb with_integrity_field signals integrity].
    split; [|split].
    + destruct (signals f); [discriminate | exact Hhead].
    + apply last_snoc.
    + eapply no_repeated_signal_snoc; eassumption.
Qed.

Lemma update_integrity_by_inspection_in_step (recheck : bool) (f : CaptureFile) :
  signals_in_step f -> signals_in_step (update_integrity_by_inspection recheck f).
Proof.
  intros H. unfold update_integrity_by_inspection.
  destruct (negb _); [exact H |].
  destruct (passed_inspection f); [apply set_integrity_in_step, H |].
  destruct (major_items f); [apply set_integrity_in_step, H | exact H].
Qed.

Lemma evaluate_integrity_in_step
    (o : battery_outcome) (properties_raise : bool) (f : CaptureFile) :
  signals_in_step f -> signals_in_step (evaluate_integrity o properties_raise f).
Proof.
  intros H. unfold evaluate_integrity.
  destruct (_ =? _); [exact H |].
  destruct properties_raise; [exact H |].
  apply update_integrity_by_inspection_in_step. exact H.
Qed.

Lemma read_log_in_step (env : read_env) (f : CaptureFile) :
  signals_in_step f -> signals_in_step (snd (read_log env f)).
Proof.
  intros H. unfold read_log, process_mixed_dtypes.
  destruct (first_read env) as [frame dropped_errors|];
    [|apply set_integrity_in_step, H].
  destruct (bool_decide _); [|apply set_integrity_in_step, H].
  destruct dropped_errors; [|exact H].
  destruct (reread env); cbn [snd];
    repeat apply set_integrity_in_step; exact H.
Qed.

Lemma parse_file_in_step (env : read_env) (f : CaptureFile) :
  signals_in_step f -> signals_in_step (snd (parse_file env f)).
Proof.
  intros H. unfold parse_file.
  pose proof (read_log_in_step env f H) as H'.
  destruct (read_log env f) as [file_data f1]. cbn [snd] in H'.
  destruct (bool_decide _); exact H'.
Qed.

(** X6.  After PresentMon.__init__, whatever reading and inspection do: the
    first integrity signal emitted was Pending, the last one emitted
    carries the integrity the object now has, and no two consecutive
    signals carry the same grade. *)
Theorem presentmon_init_signals
    (cls : parser_class) (ver : string)
    (aliases : gmap string (gmap string string))
    (env : read_env) (o : battery_outcome) (properties_raise : bool) :
  let f := presentmon_init cls ver aliases env o properties_raise in
  head (signals f) = Some Pending
  /\ last (signals f) = Some (integrity f)
  /\ no_repeated_signal (signals f).
Proof.
  unfold presentmon_init.
  set (f0 := with_integrity_hash (-1)
               (set_integrity Pending (new_capture_file cls ver aliases))).
  assert (H0 : signals_in_step f0).
  { split; [reflexivity |]. split; [reflexivity |].
    intros i a b Ha Hb. destruct i; discriminate. }
  pose proof (parse_file_in_step env f0 H0) as H1.
  destruct (parse_file env f0) as [[[file_data hdrs] n] f1]. cbn [snd] in H1.
  apply (evaluate_integrity_in_step o properties_raise
           (with_parsed file_data hdrs n f1)).
  exact H1.
Qed.

(** ** The polling rate is a positive number *)

Lemma length_Qinsert (x : Q) (sorted : list Q) :
  length (Qinsert x sorted) = S (length sorted).
Proof.
  induction sorted as [|y rest IH]; [reflexivity |].
  simpl. destruct (Qle_bool x y); simpl; [reflexivity | rewrite IH; reflexivity].
Qed.

Lemma length_Qsort (values : list Q) : length (Qsort values) = length values.
Proof.
  induction values as [|x rest IH]; [reflexivity |].
  simpl. rewrite length_Qinsert, IH. reflexivity.
Qed.

Lemma window_median_defined (window : list Q) :
  window <> [] -> exists m, window_median window = Some m.
Proof.
  intros Hne. unfold window_median.
  pose proof (length_Qsort window) as Hlen.
  assert (Hpos : (0 < length (Qsort window))%nat).
  { rewrite Hlen. destruct window; [congruence | simpl; lia]. }
  destruct (length (Qsort window) =? 0)%nat eqn:Hz;
    [apply Nat.eqb_eq in Hz; lia |].
  destruct (Nat.odd (length (Qsort window))) eqn:Hodd.
  - apply lookup_lt_is_Some_2.
    apply Nat.Div0.div_lt_upper_bound. lia.
  - assert (Heven : (2 <= length (Qsort window))%nat).
    { destruct (length (Qsort window)) as [|[|k]]; [lia | discriminate | lia]. }
    assert (Hhalf : (length (Qsort window) / 2 < length (Qsort window))%nat)
      by (apply Nat.Div0.div_lt_upper_bound; lia).
    destruct (lookup_lt_is_Some_2 (Qsort window)
                (length (Qsort window) / 2 - 1)%nat ltac:(lia)) as [a Ha].
    destruct (lookup_lt_is_Some_2 (Qsort window)
                (length (Qsort window) / 2)%nat Hhalf) as [b Hb].
    rewrite Ha, Hb. eexists. reflexivity.
Qed.

(** The median lies between any bounds of the window. *)
Lemma window_median_between (window : list Q) (lo hi m : Q) :
  (forall x, x ∈ window -> (lo <= x <= hi)%Q) ->
  window_median window = Some m -> (lo <= m <= hi)%Q.
Proof.
  intros Hb. unfold window_median.
  assert (Hs : forall k a, Qsort window !! k = Some a -> (lo <= a <= hi)%Q).
  { intros k a Hk. apply Hb, Qsort_elem.
    eapply list_elem_of_lookup_2. exact Hk. }
  destruct (length (Qsort window) =? 0)%nat; [discriminate |].
  destruct (Nat.odd (length (Qsort window))).
  - intros Hm. eapply Hs. exact Hm.
  - destruct (Qsort window !! (length (Qsort window) / 2 - 1)%nat)
      as [a|] eqn:Ha; [|discriminate].
    destruct (Qsort window !! (length (Qsort window) / 2)%nat)
      as [b|] eqn:Hbb; [|discriminate].
    intros Hm. injection Hm as <-.
    apply Hs in Ha. apply Hs in Hbb. destruct Ha, Hbb. split.
    + apply Qle_shift_div_l; [reflexivity |].
      assert (E : (lo * 2 == lo + lo)%Q) by ring. rewrite E.
      apply Qplus_le_compat; assumption.
    + apply Qle_shift_div_r; [reflexivity |].
      assert (E : (hi * 2 == hi + hi)%Q) by ring. rewrite E.
      apply Qplus_le_compat; assumption.
Qed.

Lemma exists_least (values : list Q) :
  values <> [] ->
  exists least, least ∈ values /\ forall x, x ∈ values -> (least <= x)%Q.
Proof.
  induction values as [|x rest IH]; [congruence |]. intros _.
  destruct rest as [|y rest].
  - exists x. split; [left |]. intros z Hz.
    apply list_elem_of_singleton in Hz. subst. apply Qle_refl.
  - destruct (IH ltac:(discriminate)) as (m & Hm & Hall).
    destruct (Qlt_le_dec x m) as [Hlt|Hle].
    + exists x. split; [left |]. intros z Hz.
      apply elem_of_cons in Hz as [-> | Hz]; [apply Qle_refl |].
      apply Qlt_le_weak. eapply Qlt_le_trans; [exact Hlt | apply Hall, Hz].
    + exists m. split; [right; exact Hm |]. intros z Hz.
      apply elem_of_cons in Hz as [-> | Hz]; [exact Hle | apply Hall, Hz].
Qed.

Lemma exists_upper_bound (values : list Q) :
  exists hi, forall x, x ∈ values -> (x <= hi)%Q.
Proof.
  induction values as [|x rest [hi IH]].
  - exists 0%Q. inversion 1.
  - destruct (Qlt_le_dec hi x) as [H|H].
    + exists x. intros z Hz. apply elem_of_cons in Hz as [-> | Hz];
        [apply Qle_refl |].
      apply Qlt_le_weak. eapply Qle_lt_trans; [apply IH, Hz | exact H].
    + exists hi. intros z Hz. apply elem_of_cons in Hz as [-> | Hz];
        [exact H | apply IH, Hz].
Qed.

Lemma fold_Qmaximum_pos (values : list Q) (x : Q) :
  (0 < x)%Q -> (0 < fold_left Qmaximum values x)%Q.
Proof.
  revert x. induction values as [|y rest IH]; intros x Hx; [exact Hx |].
  simpl. apply IH. unfold Qmaximum.
  destruct (Qle_bool x y) eqn:E; [|exact Hx].
  apply Qle_bool_iff in E. eapply Qlt_le_trans; eassumption.
Qed.

Lemma filter_time_deltas_positive (positive_deltas : list Q) :
  positive_deltas <> [] ->
  (forall d, d ∈ positive_deltas -> (0 < d)%Q) ->
  exists rate, filter_time_deltas positive_deltas = Finite rate /\ (0 < rate)%Q.
Proof.
  intros Hne Hpos. unfold filter_time_deltas.
  set (polling_rates := map (fun d => (d / 1000000000)%Q) positive_deltas).
  assert (Hrates : forall x, x ∈ polling_rates -> (0 < x)%Q).
  { intros x Hx. apply list_elem_of_fmap in Hx as (d & -> & Hd).
    apply Qlt_shift_div_l; [reflexivity |]. rewrite Qmult_0_l. apply Hpos, Hd. }
  assert (Hne' : polling_rates <> []).
  { subst polling_rates. destruct positive_deltas; [congruence | discriminate]. }
  destruct (window_median_defined polling_rates Hne') as [median_rate Hmed].
  rewrite Hmed.
  destruct (Qlt_bool 0 (np_variance polling_rates)) eqn:Hvar.
  - apply Qlt_bool_iff in Hvar.
    destruct (exists_least polling_rates Hne') as (least & Hin & Hleast).
    assert (Hlow : (least <= median_rate)%Q).
    { destruct (exists_upper_bound polling_rates) as [hi Hhi].
      apply (window_median_between polling_rates least hi median_rate);
        [|exact Hmed].
      intros x Hx. split; [apply Hleast, Hx | apply Hhi, Hx]. }
    assert (Hkept : within_three_sigma median_rate (np_variance polling_rates)
                      least = true).
    { unfold within_three_sigma. apply orb_true_iff.
      destruct (Qlt_le_dec least median_rate) as [Hlt|Hge].
      - left. apply Qlt_bool_iff. apply Qlt_minus_iff in Hlt.
        apply Qlt_minus_iff.
        assert (E : (0 + - (least - median_rate) == median_rate + - least)%Q)
          by ring.
        rewrite E. exact Hlt.
      - right. apply Qlt_bool_iff.
        assert (Heq : (least == median_rate)%Q) by (apply Qle_antisym; assumption).
        assert (E : ((least - median_rate) * (least - median_rate) == 0)%Q)
          by (rewrite Heq; ring).
        rewrite E.
        assert (E9 : (0 == 9 * 0)%Q) by ring.
        rewrite E9 at 1.
        apply Qmult_lt_l; [reflexivity | exact Hvar]. }
    set (kept := filter _ polling_rates).
    assert (Hkne : kept <> []).
    { intros Hnil. assert (Hk : least ∈ kept).
      { apply list_elem_of_filter. split; [exact Hkept | exact Hin]. }
      rewrite Hnil in Hk. inversion Hk. }
    destruct (window_median_defined kept Hkne) as [m Hm]. rewrite Hm.
    exists m. split; [reflexivity |].
    apply (window_median_pos kept m); [|exact Hm].
    intros x Hx. apply Hrates.
    apply list_elem_of_filter in Hx as [_ Hx]. exact Hx.
  - exists median_rate. split; [reflexivity |].
    apply (window_median_pos polling_rates median_rate Hrates Hmed).
Qed.

(** X7.  Whatever the time data, also when it cannot be parsed,
    infer_polling_rate returns a finite rate greater than 0: never zero,
    negative, NaN or infinite. *)
Theorem infer_polling_rate_positive
    (parsed : option (list Q)) (f : CaptureFile) :
  exists rate,
    fst (infer_polling_rate parsed f) = Finite rate /\ (0 < rate)%Q.
Proof.
  unfold infer_polling_rate. destruct parsed as [datetimes|].
  2:{ exists 1%Q. split; reflexivity. }
  destruct ((length (positive_time_deltas datetimes) =? 0)%nat
            || _) eqn:Hfallback.
  { exists 1%Q. split; reflexivity. }
  apply orb_false_iff in Hfallback as [Hlen _]. cbn [fst].
  apply filter_time_deltas_positive.
  - intros Hnil. rewrite Hnil in Hlen. discriminate.
  - intros d Hd. unfold positive_time_deltas in Hd.
    apply list_elem_of_filter in Hd as [Hd _]. apply Qlt_bool_iff. exact Hd.
Qed.

(** ** Evenly sampled logs *)

Lemma Qsum_const (values : list Q) (c : Q) :
  (forall x, x ∈ values -> (x == c)%Q) ->
  (Qsum values == c * inject_Z (Z.of_nat (length values)))%Q.
Proof.
  induction values as [|x rest IH]; intros Hall.
  - simpl. ring.
  - cbn [Qsum fold_right length]. fold (Qsum rest).
    rewrite IH by (intros y Hy; apply Hall; right; exact Hy).
    rewrite (Hall x) by left.
    rewrite Nat2Z.inj_succ. unfold Z.succ. rewrite inject_Z_plus. ring.
Qed.

Lemma np_mean_const (values : list Q) (c : Q) :
  values <> [] -> (forall x, x ∈ values -> (x == c)%Q) ->
  (np_mean values == c)%Q.
Proof.
  intros Hne Hall. unfold np_mean. rewrite (Qsum_const values c Hall).
  assert (Hn : ~ (inject_Z (Z.of_nat (length values)) == 0)%Q).
  { intros H. unfold Qeq in H. cbn [Qnum Qden inject_Z] in H.
    destruct values; [congruence | cbn [length] in H; lia]. }
  field. exact Hn.
Qed.

Lemma np_variance_const (values : list Q) (c : Q) :
  values <> [] -> (forall x, x ∈ values -> (x == c)%Q) ->
  (np_variance values == 0)%Q.
Proof.
  intros Hne Hall. unfold np_variance.
  pose proof (np_mean_const values c Hne Hall) as Hmean.
  apply np_mean_const.
  - destruct values; [congruence | discriminate].
  - intros y Hy. apply list_elem_of_fmap in Hy as (x & -> & Hx).
    rewrite (Hall x Hx), Hmean. ring.
Qed.

Lemma window_median_const (window : list Q) (c m : Q) :
  (forall x, x ∈ window -> (x == c)%Q) ->
  window_median window = Some m -> (m == c)%Q.
Proof.
  intros Hall Hm.
  destruct (window_median_between window c c m) as [Hlo Hhi]; [|exact Hm |].
  - intros x Hx. rewrite (Hall x Hx). split; apply Qle_refl.
  - apply Qle_antisym; assumption.
Qed.

Lemma filter_keeps_all {A : Type} (P : A -> Prop) `{forall x, Decision (P x)}
    (l : list A) :
  (forall x, x ∈ l -> P x) -> filter P l = l.
Proof.
  induction l as [|x rest IH]; intros Hall; [reflexivity |].
  rewrite filter_cons, decide_True by (apply Hall; left).
  f_equal. apply IH. intros y Hy. apply Hall. right. exact Hy.
Qed.

(** X8.  For timestamps that are evenly spaced (every consecutive difference
    equals one positive period, in nanoseconds), infer_polling_rate
    returns period / 1e9 and leaves the file, its integrity included, as
    it is. *)
Theorem infer_polling_rate_uniform
    (datetimes : list Q) (period : Q) (f : CaptureFile) :
  consecutive_deltas datetimes <> [] ->
  (0 < period)%Q ->
  (forall delta, delta ∈ consecutive_deltas datetimes -> (delta == period)%Q) ->
  exists rate,
    infer_polling_rate (Some datetimes) f = (Finite rate, f)
    /\ (rate == period / 1000000000)%Q.
Proof.
  intros Hne Hperiod Hall. unfold infer_polling_rate.
  assert (Hpos : positive_time_deltas datetimes = consecutive_deltas datetimes).
  { unfold positive_time_deltas. apply filter_keeps_all.
    intros x Hx. apply Qlt_bool_iff. rewrite (Hall x Hx). exact Hperiod. }
  rewrite Hpos.
  destruct (consecutive_deltas datetimes) as [|d deltas] eqn:Hd; [congruence |].
  cbn [length Nat.eqb orb np_max].
  assert (Hmax : Qeq_bool (fold_left Qmaximum deltas d) 0 = false).
  { destruct (Qeq_bool (fold_left Qmaximum deltas d) 0) eqn:E; [|reflexivity].
    apply Qeq_bool_iff in E.
    assert (Hlt : (0 < fold_left Qmaximum deltas d)%Q).
    { apply fold_Qmaximum_pos. rewrite (Hall d) by left. exact Hperiod. }
    rewrite E in Hlt. exfalso. exact (Qlt_irrefl 0 Hlt). }
  rewrite Hmax. unfold filter_time_deltas.
  set (polling_rates := map (fun x => (x / 1000000000)%Q) (d :: deltas)).
  assert (Hrates : forall x, x ∈ polling_rates -> (x == period / 1000000000)%Q).
  { intros x Hx. apply list_elem_of_fmap in Hx as (y & -> & Hy).
    rewrite (Hall y Hy). reflexivity. }
  assert (Hne' : polling_rates <> []) by discriminate.
  destruct (window_median_defined polling_rates Hne') as [median_rate Hmed].
  rewrite Hmed.
  assert (Hvar : Qlt_bool 0 (np_variance polling_rates) = false).
  { apply Qlt_bool_false_iff.
    rewrite (np_variance_const polling_rates _ Hne' Hrates). apply Qle_refl. }
  rewrite Hvar. exists median_rate. split; [reflexivity |].
  apply (window_median_const polling_rates _ _ Hrates Hmed).
Qed.

Lemma infer_polling_rate_uniform_witness :
  exists rate,
    infer_polling_rate
      (Some [inject_Z 0; inject_Z 500000000; inject_Z 1000000000;
             inject_Z 1500000000])
      (new_capture_file OtherParser "1.0" ∅)
    = (Finite rate, new_capture_file OtherParser "1.0" ∅)
    /\ (rate == inject_Z 500000000 / 1000000000)%Q.
Proof.
  apply (infer_polling_rate_uniform
           [inject_Z 0; inject_Z 500000000; inject_Z 1000000000;
            inject_Z 1500000000]
           (inject_Z 500000000) (new_capture_file OtherParser "1.0" ∅)).
  - discriminate.
  - reflexivity.
  - intros delta Hdelta. cbn in Hdelta.
    repeat (apply elem_of_cons in Hdelta as [-> | Hdelta]; [reflexivity |]).
    inversion Hdelta.
Defined.

(** ** Bounds on the stutter statistics *)

Lemma fold_Qminimum_le (values : list Q) (x : Q) :
  (fold_left Qminimum values x <= x)%Q
  /\ forall y, y ∈ values -> (fold_left Qminimum values x <= y)%Q.
Proof.
  revert x. induction values as [|z rest IH]; intros x.
  - split; [apply Qle_refl | inversion 1].
  - cbn [fold_left]. destruct (IH (Qminimum x z)) as [Hm Hrest].
    assert (Hx : (Qminimum x z <= x)%Q /\ (Qminimum x z <= z)%Q).
    { unfold Qminimum. destruct (Qle_bool x z) eqn:E.
      - apply Qle_bool_iff in E. split; [apply Qle_refl | exact E].
      - apply Qle_bool_false_iff in E.
        split; [apply Qlt_le_weak; exact E | apply Qle_refl]. }
    destruct Hx as [Hx Hz]. split.
    + eapply Qle_trans; eassumption.
    + intros y Hy. apply elem_of_cons in Hy as [-> | Hy].
      * eapply Qle_trans; eassumption.
      * apply Hrest, Hy.
Qed.

Lemma fold_Qminimum_lower (values : list Q) (x lo : Q) :
  (lo <= x)%Q -> (forall y, y ∈ values -> (lo <= y)%Q) ->
  (lo <= fold_left Qminimum values x)%Q.
Proof.
  revert x. induction values as [|z rest IH]; intros x Hx Hall; [exact Hx |].
  cbn [fold_left]. apply IH.
  - unfold Qminimum. destruct (Qle_bool x z); [exact Hx | apply Hall; left].
  - intros y Hy. apply Hall. right. exact Hy.
Qed.

(** X9.  If no frame time is negative and one of them is zero,
    stutter_heuristic returns the all-zero result: one zero deviation
    per frame, total 0, proportion 0, average and maximum 0; no
    statistic is computed. *)
Theorem stutter_heuristic_zero_frametime
    (cfg : heuristic_settings) (frametimes : list Q) (zero : Q) :
  (forall x, x ∈ frametimes -> (0 <= x)%Q) ->
  zero ∈ frametimes -> (zero == 0)%Q ->
  stutter_heuristic cfg frametimes = invalid_stutter (length frametimes).
Proof.
  intros Hnn Hin Hzero. unfold stutter_heuristic.
  destruct frametimes as [|x rest]; [inversion Hin |].
  cbn [np_min].
  assert (Hmin : Qeq_bool (fold_left Qminimum rest x) 0 = true).
  { apply Qeq_bool_iff. apply Qle_antisym.
    - destruct (fold_Qminimum_le rest x) as [Hx Hrest].
      rewrite <- Hzero. apply elem_of_cons in Hin as [-> | Hin];
        [exact Hx | apply Hrest, Hin].
    - apply fold_Qminimum_lower; [apply Hnn; left |].
      intros y Hy. apply Hnn. right. exact Hy. }
  rewrite Hmin. reflexivity.
Qed.

Lemma stutter_heuristic_zero_frametime_witness :
  stutter_heuristic default_settings [inject_Z 16; 0%Q; inject_Z 17]
  = invalid_stutter 3.
Proof.
  apply (stutter_heuristic_zero_frametime default_settings
           [inject_Z 16; 0%Q; inject_Z 17] 0%Q).
  - intros x Hx.
    repeat (apply elem_of_cons in Hx as [-> | Hx]; [discriminate |]).
    inversion Hx.
  - right. left.
  - reflexivity.
Defined.

Lemma count_true_none (flags : list bool) :
  (forall b, b ∈ flags -> b = false) -> count_true flags = 0.
Proof.
  induction flags as [|b flags IH]; intros Hall; [reflexivity |].
  rewrite count_true_cons, IH by (intros c Hc; apply Hall; right; exact Hc).
  rewrite (Hall b) by left. reflexivity.
Qed.

Lemma no_oscillation (cfg : heuristic_settings) (r : Rolling) (num_frames : nat) :
  (0 < OscWarnPct cfg)%Q ->
  (forall i q3 q1,
      rolling_quantile (3 # 4) r !! i = Some q3 ->
      rolling_quantile (1 # 4) r !! i = Some q1 ->
      spec_window_oscillates (with_osc_delta_ms (OscDeltaMs cfg / 100) cfg) q3 q1
      = false) ->
  oscillation_heuristic cfg r num_frames = None.
Proof.
  intros Hwarn Hnone. rewrite oscillation_heuristic_characterised. cbn zeta.
  set (scaled := with_osc_delta_ms (OscDeltaMs cfg / 100) cfg) in *.
  assert (Hcount : spec_oscillating_windows scaled r = 0).
  { unfold spec_oscillating_windows. apply count_true_none.
    intros b Hb. apply elem_of_lookup_zip_with in Hb as (i & q3 & q1 & -> & H3 & H1).
    eapply Hnone; eassumption. }
  unfold spec_short_circuits. rewrite Hcount.
  destruct (num_frames =? 0)%nat; [reflexivity |]. cbn [negb andb].
  replace (Qle_bool (OscWarnPct scaled / 100)
             (inject_Z 0 / inject_Z (Z.of_nat num_frames))) with false;
    [reflexivity |].
  symmetry. apply Qle_bool_false_iff.
  assert (E : (inject_Z 0 / inject_Z (Z.of_nat num_frames) == 0)%Q)
    by (unfold Qdiv; ring).
  rewrite E.
  apply Qlt_shift_div_l; [reflexivity |]. rewrite Qmult_0_l. exact Hwarn.
Qed.

(** With no flagged frame the numeric result is the zero one over the
    computed deviations. *)
Lemma stutter_heuristic_unflagged
    (cfg : heuristic_settings) (frametimes : list Q) :
  TestForOscillation cfg = false
  \/ oscillation_heuristic cfg
       {| rolling_series := frametimes;
          rolling_window_size := StutterWindowSize cfg |}
       (length frametimes) = None ->
  (forall b,
      b ∈ stutter_frames cfg frametimes
            (rolling_median {| rolling_series := frametimes;
                               rolling_window_size := StutterWindowSize cfg |}) ->
      b = false) ->
  let result := stutter_heuristic cfg frametimes in
  total result = 0 /\ proportional result = 0%Q
  /\ average result = Number (Finite 0) /\ max result = Number (Finite 0)
  /\ exists values, deviations result = Deviations values.
Proof.
  intros Hosc Hflags. cbn zeta. unfold stutter_heuristic.
  destruct (match np_min frametimes with
            | Some least => Qeq_bool least 0
            | None => false
            end);
    [unfold invalid_stutter; cbn; repeat split; eexists; reflexivity |].
  destruct (StutterWindowSize cfg <? 0);
    [unfold invalid_stutter; cbn; repeat split; eexists; reflexivity |].
  assert (Hnone : (if TestForOscillation cfg
                   then oscillation_heuristic cfg
                          {| rolling_series := frametimes;
                             rolling_window_size := StutterWindowSize cfg |}
                          (length frametimes)
                   else None) = None).
  { destruct Hosc as [-> | ->]; [reflexivity |].
    destruct (TestForOscillation cfg); reflexivity. }
  rewrite Hnone. rewrite (count_true_none _ Hflags).
  cbn. repeat split. eexists. reflexivity.
Qed.

Lemma length_window_at (r : Rolling) (i : nat) :
  (length (window_at r i) <= length (rolling_series r))%nat.
Proof.
  unfold window_at. rewrite length_take, length_drop. lia.
Qed.

Lemma rolling_apply_short (stat : list Q -> option Q) (r : Rolling) (m : option Q) :
  Z.of_nat (length (rolling_series r)) < rolling_window_size r ->
  m ∈ rolling_apply stat r -> m = None.
Proof.
  intros Hshort Hm. unfold rolling_apply in Hm.
  apply list_elem_of_In, in_map_iff in Hm as (i & <- & _).
  pose proof (length_window_at r i).
  replace (rolling_window_size r <=? Z.of_nat (length (window_at r i)))
    with false; [reflexivity |].
  symmetry. apply Z.leb_gt. lia.
Qed.

(** X10.  With fewer frames than the rolling window (StutterWindowSize), and
    the oscillation test off or its warning percentage positive, no
    frame is flagged: total 0, proportion 0, average and maximum stutter
    0, and the deviations are numbers (not the oscillation marker). *)
Theorem stutter_heuristic_short_capture
    (cfg : heuristic_settings) (frametimes : list Q) :
  Z.of_nat (length frametimes) < StutterWindowSize cfg ->
  TestForOscillation cfg = false \/ (0 < OscWarnPct cfg)%Q ->
  let result := stutter_heuristic cfg frametimes in
  total result = 0 /\ proportional result = 0%Q
  /\ average result = Number (Finite 0) /\ max result = Number (Finite 0)
  /\ exists values, deviations result = Deviations values.
Proof.
  intros Hshort Hosc.
  set (r := {| rolling_series := frametimes;
               rolling_window_size := StutterWindowSize cfg |}).
  assert (Hmed : forall m, m ∈ rolling_median r -> m = None).
  { intros m. apply rolling_apply_short. exact Hshort. }
  apply stutter_heuristic_unflagged.
  - destruct Hosc as [Hoff | Hwarn]; [left; exact Hoff | right].
    apply no_oscillation; [exact Hwarn |].
    intros i q3 q1 H3 _.
    apply list_elem_of_lookup_2 in H3.
    apply (rolling_apply_short _ r) in H3; [|exact Hshort]. subst q3.
    reflexivity.
  - fold r. intros b Hb.
    rewrite stutter_frames_rowwise in Hb.
    + apply elem_of_lookup_zip_with in Hb as (i & x & m & -> & _ & Hm).
      apply list_elem_of_lookup_2, Hmed in Hm. subst m. reflexivity.
    + apply Forall_forall. intros m Hm.
      rewrite (Hmed m Hm).
      intros q Hq. discriminate.
Qed.

Lemma stutter_heuristic_short_capture_witness :
  total (stutter_heuristic default_settings
           [inject_Z 10; inject_Z 40; inject_Z 10]) = 0.
Proof.
  destruct (stutter_heuristic_short_capture default_settings
              [inject_Z 10; inject_Z 40; inject_Z 10]) as (Htotal & _).
  - reflexivity.
  - right. reflexivity.
  - exact Htotal.
Defined.

Lemma window_quantile_const (quantile : Q) (window : list Q) (c v : Q) :
  (forall x, x ∈ window -> (x == c)%Q) ->
  window_quantile quantile window = Some v -> (v == c)%Q.
Proof.
  intros Hall. unfold window_quantile.
  assert (Hs : forall k a, Qsort window !! k = Some a -> (a == c)%Q).
  { intros k a Hk. apply Hall, Qsort_elem.
    eapply list_elem_of_lookup_2. exact Hk. }
  destruct (length (Qsort window) =? 0)%nat; [discriminate |].
  destruct (Qeq_bool _ _).
  - intros Hv. eapply Hs. exact Hv.
  - destruct (Qsort window !! _) as [vlow|] eqn:Hlow; [|discriminate].
    destruct (Qsort window !! S _) as [vhigh|] eqn:Hhigh; [|discriminate].
    intros Hv. injection Hv as <-.
    rewrite (Hs _ _ Hlow), (Hs _ _ Hhigh). ring.
Qed.

Lemma rolling_apply_const
    (stat : list Q -> option Q) (r : Rolling) (c : Q) :
  (forall window v,
      (forall x, x ∈ window -> (x == c)%Q) -> stat window = Some v ->
      (v == c)%Q) ->
  (forall x, x ∈ rolling_series r -> (x == c)%Q) ->
  forall v, Some v ∈ rolling_apply stat r -> (v == c)%Q.
Proof.
  intros Hstat Hall v Hv. unfold rolling_apply in Hv.
  apply list_elem_of_In, in_map_iff in Hv as (i & Hi & _).
  destruct (rolling_window_size r <=? Z.of_nat (length (window_at r i)));
    [|discriminate].
  apply (Hstat (window_at r i)); [|exact Hi].
  intros x Hx. eapply Hall, window_at_elem, Hx.
Qed.

(** X11.  For a capture whose frame times all equal one positive value, with
    StutterDeltaMs not negative and the oscillation test off or with
    positive OscDeltaPct and OscWarnPct, stutter_heuristic flags
    nothing: total 0, proportion 0, average and maximum stutter 0. *)
Theorem stutter_heuristic_steady
    (cfg : heuristic_settings) (frametimes : list Q) (c : Q) :
  (0 < c)%Q -> (forall x, x ∈ frametimes -> (x == c)%Q) ->
  (0 <= StutterDeltaMs cfg)%Q ->
  TestForOscillation cfg = false
  \/ ((0 < OscDeltaPct cfg)%Q /\ (0 < OscWarnPct cfg)%Q) ->
  let result := stutter_heuristic cfg frametimes in
  total result = 0 /\ proportional result = 0%Q
  /\ average result = Number (Finite 0) /\ max result = Number (Finite 0)
  /\ exists values, deviations result = Deviations values.
Proof.
  intros Hc Hall Hms Hosc.
  set (r := {| rolling_series := frametimes;
               rolling_window_size := StutterWindowSize cfg |}).
  assert (Hpos : forall x, x ∈ frametimes -> (0 < x)%Q).
  { intros x Hx. rewrite (Hall x Hx). exact Hc. }
  apply stutter_heuristic_unflagged.
  - destruct Hosc as [Hoff | [Hpct Hwarn]]; [left; exact Hoff | right].
    apply no_oscillation; [exact Hwarn |].
    intros i [q3|] [q1|] H3 H1; try reflexivity.
    apply list_elem_of_lookup_2 in H3, H1.
    apply (rolling_apply_const _ r c
             (fun window v => window_quantile_const (3 # 4) window c v)) in H3;
      [|exact Hall].
    apply (rolling_apply_const _ r c
             (fun window v => window_quantile_const (1 # 4) window c v)) in H1;
      [|exact Hall].
    unfold spec_window_oscillates, fdiv.
    assert (Hq1 : Qeq_bool q1 0 = false).
    { destruct (Qeq_bool q1 0) eqn:E; [|reflexivity].
      apply Qeq_bool_iff in E. rewrite H1 in E. rewrite E in Hc.
      exfalso. exact (Qlt_irrefl 0 Hc). }
    rewrite Hq1. cbn [fsub_const fge with_osc_delta_ms OscDeltaPct].
    replace (Qle_bool (OscDeltaPct cfg / 100) (q3 / q1 - 1)) with false;
      [reflexivity |].
    symmetry. apply Qle_bool_false_iff.
    assert (Hratio : (q3 / q1 - 1 == 0)%Q).
    { rewrite H3, H1. field. intros E. rewrite E in Hc.
      exact (Qlt_irrefl 0 Hc). }
    rewrite Hratio.
    apply Qlt_shift_div_l; [reflexivity |]. rewrite Qmult_0_l. exact Hpct.
  - fold r. intros b Hb.
    rewrite stutter_frames_rowwise in Hb by (apply rolling_median_pos, Hpos).
    apply elem_of_lookup_zip_with in Hb as (i & x & m & -> & Hx & Hm).
    destruct m as [m|]; [|reflexivity].
    apply list_elem_of_lookup_2 in Hx, Hm.
    apply (rolling_apply_const _ r c
             (fun window v => window_median_const window c v)) in Hm;
      [|exact Hall].
    unfold spec_is_stutter_frame. apply andb_false_iff. right.
    apply Qlt_bool_false_iff.
    assert (Hd : (Qabs (x - m) == 0)%Q).
    { rewrite (Hall x Hx), Hm.
      assert (E : (c - c == 0)%Q) by ring. rewrite E. reflexivity. }
    rewrite Hd. exact Hms.
Qed.

Lemma stutter_heuristic_steady_witness :
  total (stutter_heuristic default_settings (repeat (inject_Z 16) 40)) = 0.
Proof.
  destruct (stutter_heuristic_steady default_settings
              (repeat (inject_Z 16) 40) (inject_Z 16)) as (Htotal & _).
  - reflexivity.
  - intros x Hx. apply list_elem_of_In, repeat_spec in Hx. subst x. reflexivity.
  - discriminate.
  - right. split; reflexivity.
  - exact Htotal.
Defined.






(** ** The metadata store *)

Lemma dict_truthy_false {V : Type} (d : gmap string V) :
  dict_truthy d = false -> d = ∅.
Proof.
  unfold dict_truthy. rewrite negb_false_iff. intros H.
  apply Nat.eqb_eq in H. apply map_size_empty_iff. exact H.
Qed.

(** X13.  With storage enabled and a section other than Record, reading a
    section right after update_record wrote it does not raise and
    returns the written properties merged over what the section held
    before (written keys win; a section that was not stored counts as
    empty). *)
Theorem update_record_then_read
    (now later : Z) (m : metadata_store) (file_hash section : string)
    (properties : gmap string json_value) :
  _STORAGE_DISABLED m = false -> section <> "Record"%string ->
  exists m',
    read_record later file_hash section
      (update_record now file_hash properties section m)
    = Some (properties ∪ stored_section m file_hash section, m').
Proof.
  intros Hon Hsec. unfold update_record. rewrite Hon.
  set (stamp := <["Last Accessed"%string := JInt now]>
                  {["Last Updated"%string := JInt now]} : gmap string json_value).
  assert (Hread : forall record,
    record !! "Record"%string = Some stamp ->
    record !! section
    = Some (properties ∪ stored_section m file_hash section) ->
    exists m',
      read_record later file_hash section
        (with_storage (<[file_hash := record]> (_STORAGE m)) m)
      = Some (properties ∪ stored_section m file_hash section, m')).
  { intros record Hstamp Hcontent. unfold read_record, record_exists.
    cbn [with_storage _STORAGE_DISABLED _STORAGE]. rewrite Hon.
    rewrite lookup_insert_eq. cbv beta iota. rewrite Hcontent. cbn [negb andb].
    destruct (dict_truthy (properties ∪ stored_section m file_hash section))
      eqn:Htruthy; cbn [negb].
    - cbn [mbind option_bind]. rewrite Hstamp. cbn [mbind option_bind].
      rewrite lookup_insert_ne by (intros E; apply Hsec; symmetry; exact E).
      rewrite Hcontent. cbn [mbind option_bind]. eexists. reflexivity.
    - apply dict_truthy_false in Htruthy. rewrite Htruthy.
      eexists. reflexivity. }
  unfold stored_section in *.
  destruct (_STORAGE m !! file_hash) as [record|] eqn:Hrecord;
    cbn [mbind option_bind default] in *.
  - destruct ((<["Record"%string := stamp]> record) !! section)
      as [content|] eqn:Hcontent.
    + rewrite lookup_insert_ne in Hcontent by congruence.
      rewrite Hcontent in *. cbn [default] in *.
      apply Hread.
      * rewrite lookup_insert_ne by congruence. apply lookup_insert_eq.
      * apply lookup_insert_eq.
    + rewrite lookup_insert_ne in Hcontent by congruence.
      rewrite Hcontent in *. cbn [default] in *.
      apply Hread.
      * rewrite lookup_insert_ne by congruence. apply lookup_insert_eq.
      * rewrite lookup_insert_eq. f_equal. symmetry. apply (right_id ∅ (∪)).
  - apply Hread.
    + rewrite lookup_insert_ne by congruence. apply lookup_singleton_eq.
    + rewrite lookup_insert_eq. f_equal. symmetry. apply (right_id ∅ (∪)).
Qed.

Lemma update_record_then_read_witness :
  exists m',
    read_record 200 "abc" "Time"
      (update_record 100 "abc" {["Offset"%string := JInt 3]} "Time"
         {| _STORAGE_DISABLED := false; _STORAGE := ∅ |})
    = Some ({["Offset"%string := JInt 3]}
              ∪ stored_section {| _STORAGE_DISABLED := false; _STORAGE := ∅ |}
                  "abc" "Time",
            m').
Proof.
  apply (update_record_then_read 100 200
           {| _STORAGE_DISABLED := false; _STORAGE := ∅ |} "abc" "Time"
           {["Offset"%string := JInt 3]}).
  - reflexivity.
  - discriminate.
Defined.

(** [update_record] keeps the records stamped. *)
Lemma update_record_well_stamped
    (now : Z) (m : metadata_store) (file_hash section : string)
    (properties : gmap string json_value) :
  section <> "Record"%string -> well_stamped m ->
  well_stamped (update_record now file_hash properties section m).
Proof.
  intros Hsec Hwf. unfold update_record.
  destruct (_STORAGE_DISABLED m); [exact Hwf |].
  destruct (_STORAGE m !! file_hash) as [record|] eqn:Hrecord;
    intros h r; cbn [with_storage _STORAGE];
    (destruct (decide (h = file_hash)) as [->|Hne];
     [rewrite lookup_insert_eq; intros Hr; injection Hr as <-
     | rewrite lookup_insert_ne by congruence; apply Hwf]).
  - destruct (_ !! section);
      rewrite lookup_insert_ne by congruence;
      rewrite lookup_insert_eq; eexists; reflexivity.
  - rewrite lookup_insert_ne by congruence.
    rewrite lookup_singleton_eq. eexists. reflexivity.
Qed.

(** X14.  On a store whose records all carry their Record stamps,
    remove_record for a section other than Record returns normally;
    afterwards record_exists is false for that file and section, every
    other section of every file holds what it held, all records still
    carry their stamps, and, if record_exists held for the section
    before, the file's record is dropped altogether exactly when it held
    no further section besides Record. *)
Theorem remove_record_forgets
    (now : Z) (m : metadata_store) (file_hash section : string) :
  well_stamped m -> section <> "Record"%string ->
  exists m',
    remove_record now file_hash section m = StoreReturns m'
    /\ record_exists m' file_hash section = false
    /\ (forall h s, h <> file_hash \/ s <> section -> s <> "Record"%string ->
          stored_section m' h s = stored_section m h s)
    /\ well_stamped m'
    /\ (record_exists m file_hash section = true ->
        (_STORAGE m' !! file_hash = None <->
         forall s, s <> section -> s <> "Record"%string ->
                   (record ← _STORAGE m !! file_hash; record !! s) = None)).
Proof.
  intros Hwf Hsec. unfold remove_record.
  destruct (record_exists m file_hash section) eqn:Hexists; cbn [negb].
  2:{ exists m. split; [reflexivity |]. split; [exact Hexists |].
      split; [reflexivity |]. split; [exact Hwf | discriminate]. }
  pose proof Hexists as Hex. unfold record_exists in Hex.
  apply andb_true_iff in Hex as [Hon Hex].
  destruct (_STORAGE m !! file_hash) as [record|] eqn:Hrecord; [|discriminate].
  destruct (record !! section) as [content|] eqn:Hcontent; [|discriminate].
  destruct (Hwf file_hash record Hrecord) as [stamp Hstamp].
  assert (Hstamp' : delete section record !! "Record"%string = Some stamp).
  { rewrite lookup_delete_ne by exact Hsec. exact Hstamp. }
  assert (Hsize : (1 < size (delete section record))%nat
                  <-> exists s, s <> section /\ s <> "Record"%string
                                /\ is_Some (record !! s)).
  { rewrite <- (insert_id (delete section record) "Record"%string stamp Hstamp').
    rewrite <- insert_delete_eq.
    rewrite map_size_insert_None by apply lookup_delete_eq.
    split.
    - intros Hlt.
      assert (Hne : size (delete "Record"%string (delete section record)) <> 0%nat)
        by lia.
      apply map_size_ne_0_lookup in Hne as [s [x Hs]].
      apply lookup_delete_Some in Hs as [Hs1 Hs].
      apply lookup_delete_Some in Hs as [Hs2 Hs].
      exists s. repeat split; try congruence. eexists. exact Hs.
    - intros (s & Hs1 & Hs2 & [x Hs]).
      assert (Hne : size (delete "Record"%string (delete section record)) <> 0%nat).
      { apply map_size_ne_0_lookup. exists s, x.
        rewrite lookup_delete_ne by congruence.
        rewrite lookup_delete_ne by congruence. exact Hs. }
      lia. }
  rewrite Hstamp'.
  destruct (1 <? size (delete section record))%nat eqn:Hmany.
  - eexists. split; [reflexivity |].
    unfold record_exists, stored_section, well_stamped.
    cbn [with_storage _STORAGE _STORAGE_DISABLED].
    split; [|split; [|split]].
    + rewrite lookup_insert_eq.
      rewrite lookup_insert_ne by congruence.
      rewrite lookup_delete_eq. apply andb_false_r.
    + intros h s Hhs Hs.
      destruct (decide (h = file_hash)) as [->|Hne].
      * rewrite lookup_insert_eq, Hrecord. cbn [mbind option_bind].
        rewrite lookup_insert_ne by congruence.
        destruct Hhs as [Hhs | Hhs]; [congruence |].
        rewrite lookup_delete_ne by congruence. reflexivity.
      * rewrite lookup_insert_ne by congruence. reflexivity.
    + intros h r. destruct (decide (h = file_hash)) as [->|Hne].
      * rewrite lookup_insert_eq. intros Hr. injection Hr as <-.
        rewrite lookup_insert_eq. eexists. reflexivity.
      * rewrite lookup_insert_ne by congruence. apply Hwf.
    + intros _. rewrite lookup_insert_eq. split; [discriminate |].
      intros Hnone. exfalso.
      apply Nat.ltb_lt in Hmany.
      destruct (proj1 Hsize Hmany) as (s & Hs1 & Hs2 & [x Hs]).
      specialize (Hnone s Hs1 Hs2). cbn [mbind option_bind] in Hnone.
      congruence.
  - eexists. split; [reflexivity |].
    unfold record_exists, stored_section, well_stamped.
    cbn [with_storage _STORAGE _STORAGE_DISABLED].
    split; [|split; [|split]].
    + rewrite lookup_delete_eq. apply andb_false_r.
    + intros h s Hhs Hs.
      destruct (decide (h = file_hash)) as [->|Hne].
      * rewrite lookup_delete_eq, Hrecord. cbn [mbind option_bind default].
        destruct Hhs as [Hhs | Hhs]; [congruence |].
        destruct (record !! s) as [x|] eqn:Hx; [|reflexivity].
        exfalso.
        assert (Hfalse : (1 <? size (delete section record))%nat = true).
        { apply Nat.ltb_lt, Hsize. exists s. repeat split; try assumption.
          eexists. exact Hx. }
        congruence.
      * rewrite lookup_delete_ne by congruence. reflexivity.
    + intros h r. destruct (decide (h = file_hash)) as [->|Hne].
      * rewrite lookup_delete_eq. discriminate.
      * rewrite lookup_delete_ne by congruence. apply Hwf.
    + intros _. rewrite lookup_delete_eq. split; [|reflexivity].
      intros _ s Hs1 Hs2. cbn [mbind option_bind].
      destruct (record !! s) as [x|] eqn:Hx; [|reflexivity].
      exfalso.
      assert (Hfalse : (1 <? size (delete section record))%nat = true).
      { apply Nat.ltb_lt, Hsize. exists s. repeat split; try assumption.
        eexists. exact Hx. }
      congruence.
Qed.

Lemma remove_record_forgets_witness :
  exists m',
    remove_record 300 "abc" "Time"
      (update_record 100 "abc" {["Offset"%string := JInt 3]} "Time"
         {| _STORAGE_DISABLED := false; _STORAGE := ∅ |})
    = StoreReturns m'
    /\ record_exists m' "abc" "Time" = false.
Proof.
  destruct (remove_record_forgets 300
              (update_record 100 "abc" {["Offset"%string := JInt 3]} "Time"
                 {| _STORAGE_DISABLED := false; _STORAGE := ∅ |})
              "abc" "Time") as (m' & Hreturns & Hgone & _).
  - apply update_record_well_stamped; [discriminate |].
    intros h r Hr. cbn in Hr. rewrite lookup_empty in Hr. discriminate.
  - discriminate.
  - exists m'. split; [exact Hreturns | exact Hgone].
Defined.

(** X15.  At start-up, when every loaded record has a numeric Last Accessed
    stamp, the store holds a record exactly when storage is enabled (the
    expiration setting is not 0), the record was in the file, and its
    last access lies at most the expiration time (days * 86400 seconds)
    before now. *)
Theorem load_storage_keeps_unexpired
    (expiration_days now : Z)
    (records : gmap string (gmap string (gmap string json_value)))
    (file_hash : string) (record : gmap string (gmap string json_value)) :
  (forall h r, records !! h = Some r -> is_Some (last_accessed r)) ->
  _STORAGE (load_storage expiration_days (Some records) now) !! file_hash
  = Some record
  <-> expiration_days <> 0
      /\ records !! file_hash = Some record
      /\ exists accessed,
           last_accessed record = Some accessed
           /\ (inject_Z now - accessed <= inject_Z (expiration_days * 86400))%Q.
Proof.
  intros Hreadable. unfold load_storage. cbn [_STORAGE].
  destruct (expiration_days * 86400 =? 0) eqn:Hdisabled.
  - apply Z.eqb_eq in Hdisabled. rewrite lookup_empty.
    split; [discriminate | intros (H & _); lia].
  - apply Z.eqb_neq in Hdisabled.
    assert (Hall : forallb
                     (fun kv => bool_decide (is_Some (last_accessed (snd kv))))
                     (map_to_list records) = true).
    { apply forallb_forall. intros [h r] Hin.
      apply list_elem_of_In, elem_of_map_to_list in Hin.
      apply bool_decide_eq_true_2. eapply Hreadable. exact Hin. }
    rewrite Hall. rewrite map_lookup_filter_Some. cbn [snd].
    unfold unexpired. split.
    + intros [Hr Hkeep]. split; [lia |]. split; [exact Hr |].
      destruct (last_accessed record) as [accessed|]; [|discriminate].
      exists accessed. split; [reflexivity |]. apply Qle_bool_iff. exact Hkeep.
    + intros (_ & Hr & accessed & Hla & Hle). split; [exact Hr |].
      rewrite Hla. apply Qle_bool_iff. exact Hle.
Qed.

Lemma load_storage_keeps_unexpired_witness :
  _STORAGE
    (load_storage 7
       (Some {[ "abc"%string :=
                  {[ "Record"%string :=
                       {[ "Last Accessed"%string := JInt 1000 ]} ]} ]})
       2000) !! "abc"%string
  = Some {[ "Record"%string := {[ "Last Accessed"%string := JInt 1000 ]} ]}.
Proof.
  apply (load_storage_keeps_unexpired 7 2000
           {[ "abc"%string :=
                {[ "Record"%string :=
                     {[ "Last Accessed"%string := JInt 1000 ]} ]} ]}
           "abc"
           {[ "Record"%string := {[ "Last Accessed"%string := JInt 1000 ]} ]}).
  - intros h r Hr. apply lookup_singleton_Some in Hr as [_ <-].
    eexists. reflexivity.
  - split; [lia |]. split; [apply lookup_singleton_eq |].
    exists (inject_Z 1000). split; [reflexivity |]. discriminate.
Defined.

(** ** Marks on edited properties *)

Lemma endswith_star_nonempty (s : string) :
  endswith_star s = true -> s <> EmptyString.
Proof. destruct s; [discriminate | discriminate]. Qed.

Lemma length_drop_last (s : string) :
  s <> EmptyString -> S (String.length (drop_last s)) = String.length s.
Proof.
  induction s as [|c rest IH]; [congruence |]. intros _.
  destruct rest as [|d rest]; [reflexivity |].
  change (S (S (String.length (drop_last (String d rest))))
          = S (String.length (String d rest))).
  rewrite IH by discriminate. reflexivity.
Qed.

(** With fuel for every character the loop stops on its own test: the
    result carries no trailing asterisk. *)
Lemma strip_marks_loop_unmarked (fuel : nat) (s : string) :
  (String.length s <= fuel)%nat ->
  endswith_star (strip_marks_loop fuel s) = false.
Proof.
  revert s. induction fuel as [|fuel IH]; intros s Hlen.
  - destruct s; [reflexivity | simpl in Hlen; lia].
  - cbn [strip_marks_loop]. destruct (endswith_star s) eqn:Hmark; [|exact Hmark].
    apply IH. pose proof (length_drop_last s (endswith_star_nonempty s Hmark)).
    lia.
Qed.

Lemma strip_marks_unmarked (s : string) : endswith_star (strip_marks s) = false.
Proof. apply strip_marks_loop_unmarked. lia. Qed.

Lemma strip_marks_loop_id (fuel : nat) (s : string) :
  endswith_star s = false -> strip_marks_loop fuel s = s.
Proof. intros H. destruct fuel; [reflexivity |]. simpl. rewrite H. reflexivity. Qed.

Lemma endswith_star_app (s : string) : endswith_star (s ++ "*") = true.
Proof.
  induction s as [|c rest IH]; [reflexivity |].
  cbn [append]. destruct rest as [|d rest]; [reflexivity |]. exact IH.
Qed.

Lemma drop_last_app (s : string) : drop_last (s ++ "*") = s.
Proof.
  induction s as [|c rest IH]; [reflexivity |].
  cbn [append]. destruct rest as [|d rest]; [reflexivity |].
  change (String c (drop_last (String d rest ++ "*")) = String c (String d rest)).
  rewrite IH. reflexivity.
Qed.

Lemma length_app_star (s : string) :
  String.length (s ++ "*") = S (String.length s).
Proof. induction s as [|c rest IH]; [reflexivity |]. simpl. rewrite IH. reflexivity. Qed.

(** More fuel than characters changes nothing. *)
Lemma strip_marks_loop_enough (fuel fuel' : nat) (s : string) :
  (String.length s <= fuel)%nat -> (String.length s <= fuel')%nat ->
  strip_marks_loop fuel s = strip_marks_loop fuel' s.
Proof.
  revert fuel' s. induction fuel as [|fuel IH]; intros fuel' s H H'.
  - destruct s; [|simpl in H; lia]. destruct fuel'; reflexivity.
  - destruct fuel' as [|fuel'].
    + destruct s; [reflexivity | simpl in H'; lia].
    + cbn [strip_marks_loop].
      destruct (endswith_star s) eqn:Hmark; [|reflexivity].
      pose proof (length_drop_last s (endswith_star_nonempty s Hmark)).
      apply IH; lia.
Qed.

Lemma strip_marks_loop_fuel (fuel : nat) (s : string) :
  (String.length s <= fuel)%nat -> strip_marks_loop fuel s = strip_marks s.
Proof. intros H. apply strip_marks_loop_enough; [exact H | lia]. Qed.

Lemma strip_marks_app_star (s : string) :
  strip_marks (s ++ "*") = strip_marks s.
Proof.
  unfold strip_marks at 1. rewrite length_app_star.
  cbn [strip_marks_loop]. rewrite endswith_star_app, drop_last_app.
  reflexivity.
Qed.

Lemma strip_marks_idempotent (s : string) :
  strip_marks (strip_marks s) = strip_marks s.
Proof. apply strip_marks_loop_id, strip_marks_unmarked. Qed.

(** X16.  When the edited value holds something besides asterisks and
    surrounding blanks, preserve_marks returns a value that ends with an
    asterisk exactly when the stripped previous value did, and that,
    trailing asterisks apart, is the stripped new value. *)
Theorem preserve_marks_keeps_mark (previous_value new_value : string) :
  remove_stars (strip new_value) <> EmptyString ->
  endswith_star (preserve_marks previous_value new_value)
  = endswith_star (strip previous_value)
  /\ strip_marks (preserve_marks previous_value new_value)
     = strip_marks (strip new_value).
Proof.
  intros Hcontent. unfold preserve_marks.
  destruct (String.eqb_spec (remove_stars (strip new_value)) "") as [E|_];
    [congruence |].
  destruct (endswith_star (strip previous_value)) eqn:Hprev,
           (endswith_star (strip new_value)) eqn:Hnew; cbn [andb negb].
  - split; [exact Hnew | reflexivity].
  - split; [apply endswith_star_app | apply strip_marks_app_star].
  - split; [apply strip_marks_unmarked | apply strip_marks_idempotent].
  - split; [exact Hnew | reflexivity].
Qed.

Lemma preserve_marks_keeps_mark_witness :
  endswith_star (preserve_marks "Cyberpunk*" "  Cyberpunk 2077 ")
  = endswith_star (strip "Cyberpunk*")
  /\ strip_marks (preserve_marks "Cyberpunk*" "  Cyberpunk 2077 ")
     = strip_marks (strip "  Cyberpunk 2077 ").
Proof.
  apply (preserve_marks_keeps_mark "Cyberpunk*" "  Cyberpunk 2077 ").
  vm_compute. discriminate.
Defined.

(** An edit that leaves nothing but asterisks and blanks is dropped. *)
Lemma preserve_marks_blank (previous_value new_value : string) :
  remove_stars (strip new_value) = EmptyString ->
  preserve_marks previous_value new_value = strip previous_value.
Proof.
  intros H. unfold preserve_marks. rewrite H. reflexivity.
Qed.

(** ** Saved properties *)

Lemma verify_property_spec (properties : gmap string json_value)
    (name : string) (verified : bool) (text : string) :
  properties !! name = Some (JString text) ->
  exists text',
    verify_property properties name verified
    = Verified (<[name := JString text']> properties)
    /\ endswith_star text' = negb verified
    /\ strip_marks text' = strip_marks text.
Proof.
  intros Hlook. unfold verify_property. rewrite Hlook.
  destruct verified, (endswith_star text) eqn:Hmark; cbn [negb andb].
  - exists (strip_marks text). split; [reflexivity |].
    split; [apply strip_marks_unmarked | apply strip_marks_idempotent].
  - exists text. rewrite insert_id by exact Hlook. auto.
  - exists text. rewrite insert_id by exact Hlook. auto.
  - exists (text ++ "*")%string. split; [reflexivity |].
    split; [apply endswith_star_app | apply strip_marks_app_star].
Qed.

Lemma verify_pairs_spec (pairs : list (string * bool))
    (properties : gmap string json_value) :
  NoDup pairs.*1 ->
  (forall name, name ∈ pairs.*1 ->
     exists text, properties !! name = Some (JString text)) ->
  exists properties',
    verify_pairs pairs properties = Verified properties'
    /\ (forall name verified, (name, verified) ∈ pairs ->
          exists text text',
            properties !! name = Some (JString text)
            /\ properties' !! name = Some (JString text')
            /\ endswith_star text' = negb verified
            /\ strip_marks text' = strip_marks text)
    /\ (forall key, key ∉ pairs.*1 -> properties' !! key = properties !! key).
Proof.
  revert properties.
  induction pairs as [|[name verified] rest IH]; intros properties Hnd Htext.
  - exists properties. split; [reflexivity |]. split; [|reflexivity].
    intros name verified Hin. inversion Hin.
  - cbn [fmap list_fmap fst] in Hnd, Htext.
    apply NoDup_cons in Hnd as [Hfresh Hnd].
    destruct (Htext name ltac:(left)) as [text Hlook].
    destruct (verify_property_spec properties name verified text Hlook)
      as (text' & Hstep & Hmark & Hkept).
    cbn [verify_pairs]. rewrite Hstep.
    destruct (IH (<[name := JString text']> properties) Hnd)
      as (properties' & Hrun & Hnames & Hothers).
    { intros other Hother.
      destruct (Htext other ltac:(right; exact Hother)) as [t Ht].
      exists t. rewrite lookup_insert_ne; [exact Ht |].
      intros ->. exact (Hfresh Hother). }
    exists properties'. split; [exact Hrun |]. split.
    + intros other v Hin. apply elem_of_cons in Hin as [Heq | Hin].
      * injection Heq as -> ->. exists text, text'.
        split; [exact Hlook |]. split; [|auto].
        rewrite (Hothers name Hfresh). apply lookup_insert_eq.
      * assert (Hne : name <> other).
        { intros ->. apply Hfresh. apply list_elem_of_fmap.
          exists (other, v). auto. }
        destruct (Hnames other v Hin) as (t & t' & Ht & Ht' & Hm & Hk).
        rewrite lookup_insert_ne in Ht by exact Hne.
        exists t, t'. auto.
    + intros key Hkey. cbn [fmap list_fmap fst] in Hkey.
      apply not_elem_of_cons in Hkey as [Hne Hkey].
      rewrite (Hothers key Hkey). apply lookup_insert_ne. congruence.
Qed.

(** X17.  When the saved Application, Resolution, Runtime and GPU properties
    are strings, verify_saved_properties returns normally; afterwards
    each of the four ends with an asterisk exactly when one of the
    inspection entries it is checked against is missing or falsy (an
    InspectionItem counts as true whether it passed or not), its text
    apart from trailing asterisks is unchanged, and no other property is
    touched. *)
Theorem verify_saved_properties_marks
    (f : CaptureFile) (properties : gmap string json_value) :
  (forall name, name ∈ ["Application"; "Resolution"; "Runtime"; "GPU"]%string ->
     exists text, properties !! name = Some (JString text)) ->
  exists properties',
    verify_saved_properties f properties = Verified properties'
    /\ (forall name verified, (name, verified) ∈ verification_pairs f ->
          exists text text',
            properties !! name = Some (JString text)
            /\ properties' !! name = Some (JString text')
            /\ endswith_star text' = negb verified
            /\ strip_marks text' = strip_marks text)
    /\ (forall key,
          key ∉ ["Application"; "Resolution"; "Runtime"; "GPU"]%string ->
          properties' !! key = properties !! key).
Proof.
  intros Htext. apply verify_pairs_spec; [|exact Htext].
  apply (bool_decide_unpack _). vm_compute. reflexivity.
Qed.

Lemma verify_saved_properties_marks_witness :
  exists properties',
    verify_saved_properties failed_gpu_capture saved_properties
    = Verified properties'
    /\ (forall name verified,
          (name, verified) ∈ verification_pairs failed_gpu_capture ->
          exists text text',
            saved_properties !! name = Some (JString text)
            /\ properties' !! name = Some (JString text')
            /\ endswith_star text' = negb verified
            /\ strip_marks text' = strip_marks text)
    /\ (forall key,
          key ∉ ["Application"; "Resolution"; "Runtime"; "GPU"]%string ->
          properties' !! key = saved_properties !! key).
Proof.
  apply (verify_saved_properties_marks failed_gpu_capture saved_properties).
  intros name Hin.
  repeat (apply elem_of_cons in Hin as [-> | Hin];
          [eexists; vm_compute; reflexivity |]).
  inversion Hin.
Defined.

(** ** FRAPS logs *)

Lemma np_item_first (values : list Q) :
  values <> [] -> np_item values 0 = values !! 0%nat.
Proof.
  intros Hne. unfold np_item.
  destruct values; [congruence |]. cbn [length].
  replace (0 <=? 0) with true by reflexivity.
  replace (0 <? Z.of_nat (S (length values))) with true
    by (symmetry; apply Z.ltb_lt; lia).
  reflexivity.
Qed.

Lemma np_item_defined (values : list Q) (i : Z) :
  - Z.of_nat (length values) <= i < Z.of_nat (length values) ->
  is_Some (np_item values i).
Proof.
  intros Hi. unfold np_item.
  destruct (0 <=? i) eqn:Hsign; cbn [andb].
  - replace (i <? Z.of_nat (length values)) with true
      by (symmetry; apply Z.ltb_lt; lia).
    apply lookup_lt_is_Some_2. apply Z.leb_le in Hsign. lia.
  - apply Z.leb_gt in Hsign.
    replace (- Z.of_nat (length values) <=? i) with true
      by (symmetry; apply Z.leb_le; lia).
    replace (i <? 0) with true by (symmetry; apply Z.ltb_lt; lia).
    cbn [andb]. apply lookup_lt_is_Some_2. lia.
Qed.

Lemma segment_slope_defined (frames : list Q) (x : Z) :
  frames <> [] -> 0 <= x < 5 ->
  is_Some (segment_slope frames (Z.of_nat (length frames) / 5) x).
Proof.
  intros Hne Hx. unfold segment_slope.
  set (n := Z.of_nat (length frames)).
  assert (Hn : 0 < n) by (subst n; destruct frames; [congruence | cbn [length]; lia]).
  assert (Hstep : 0 <= n / 5) by (apply Z.div_pos; lia).
  assert (Hmul : 5 * (n / 5) <= n) by (apply Z.mul_div_le; lia).
  destruct (np_item_defined frames (x * (n / 5) + n / 5 - 1)) as [y2 ->];
    [fold n; nia |].
  destruct (np_item_defined frames (x * (n / 5))) as [y1 ->];
    [fold n; nia |].
  eexists. reflexivity.
Qed.

Lemma all_slopes_defined (frames : list Q) (segments : list Z) :
  frames <> [] -> (forall x, x ∈ segments -> 0 <= x < 5) ->
  is_Some (all_slopes frames (Z.of_nat (length frames) / 5) segments).
Proof.
  intros Hne. induction segments as [|x rest IH]; intros Hall.
  - eexists. reflexivity.
  - cbn [all_slopes].
    destruct (segment_slope_defined frames x Hne (Hall x ltac:(left))) as [s ->].
    destruct IH as [ss ->]; [intros y Hy; apply Hall; right; exact Hy |].
    eexists. reflexivity.
Qed.

Lemma length_accumulate (values : list Q) (total : Q) :
  length (accumulate values total) = S (length values).
Proof.
  revert total. induction values as [|x rest IH]; intros total; [reflexivity |].
  cbn [accumulate length]. rewrite IH. reflexivity.
Qed.

Lemma length_all_but_last (values : list Q) :
  length (all_but_last values) = (length values - 1)%nat.
Proof. unfold all_but_last. rewrite length_take. lia. Qed.

Lemma length_frame_differences (frames : list Q) :
  length (frame_differences frames) = (length frames - 1)%nat.
Proof.
  unfold frame_differences. rewrite length_zip_with, length_drop. lia.
Qed.

Lemma frame_differences_lookup (frames : list Q) (i : nat) (d : Q) :
  frame_differences frames !! i = Some d ->
  exists cur next,
    frames !! i = Some cur /\ frames !! S i = Some next /\ d = (next - cur)%Q.
Proof.
  unfold frame_differences. intros H.
  apply lookup_zip_with_Some in H as (cur & next & -> & Hc & Hn).
  rewrite lookup_drop in Hn. exists cur, next. auto.
Qed.

(** The two shapes of a successful parse. *)
Lemma fraps_parse_file_modes (frames : list Q) (f : CaptureFile) :
  frames <> [] ->
  fraps_parse_file (TimeColumn frames) f
  = ((Z.of_nat (length frames),
      fraps_frame frames
        (map (fun t => (t / 1000)%Q) (accumulate (all_but_last frames) 0))),
     set_integrity Ideal f)
  \/ fraps_parse_file (TimeColumn frames) f
     = ((Z.of_nat (length (frame_differences frames)),
         fraps_frame (frame_differences frames)
           (map (fun t => (t / 1000)%Q) (all_but_last frames))),
        set_integrity Ideal f).
Proof.
  intros Hne. unfold fraps_parse_file.
  destruct (all_slopes_defined frames [0; 1; 2; 3; 4] Hne) as [slopes ->].
  { intros x Hx.
    repeat (apply elem_of_cons in Hx as [-> | Hx]; [lia |]). inversion Hx. }
  destruct (forallb id slopes); [right | left]; reflexivity.
Qed.

Lemma Qlt_bool_irrefl_diff (y : Q) :
  Qlt_bool 0 (y - y) = false /\ Qlt_bool (y - y) 0 = false.
Proof.
  split; apply Qlt_bool_false_iff; assert (E : (y - y == 0)%Q) by ring;
    rewrite E; apply Qle_refl.
Qed.

Lemma segment_slope_unit_step (frames : list Q) (x : Z) :
  is_Some (segment_slope frames 1 x) -> segment_slope frames 1 x = Some false.
Proof.
  unfold segment_slope.
  replace (x * 1 + 1 - 1) with (x * 1) by lia.
  destruct (np_item frames (x * 1)) as [y|]; [|intros [? ?]; discriminate].
  intros _. unfold fdiv. cbn [inject_Z Z.sub Z.add Z.opp Z.pos_sub].
  replace (Qeq_bool (inject_Z (1 - 1)) 0) with true by reflexivity.
  destruct (Qlt_bool_irrefl_diff y) as [-> ->]. reflexivity.
Qed.

Lemma np_item_last (values : list Q) :
  values <> [] -> np_item values (-1) = last values.
Proof.
  intros Hne. unfold np_item.
  assert (Hn : 0 < Z.of_nat (length values))
    by (destruct values; [congruence | cbn [length]; lia]).
  replace (0 <=? -1) with false by reflexivity. cbn [andb].
  replace (- Z.of_nat (length values) <=? -1) with true
    by (symmetry; apply Z.leb_le; lia).
  replace (-1 <? 0) with true by reflexivity. cbn [andb].
  rewrite last_lookup. f_equal. lia.
Qed.

Lemma segment_slope_zero_step (frames : list Q) (x : Z) (first final : Q) :
  frames !! 0%nat = Some first -> last frames = Some final ->
  (first - final <= 1 # 10)%Q ->
  segment_slope frames 0 x = Some false.
Proof.
  intros Hfirst Hlast Hle. unfold segment_slope.
  assert (Hne : frames <> []) by (intros ->; discriminate).
  replace (x * 0 + 0 - 1) with (-1) by lia. replace (x * 0) with 0 by lia.
  rewrite np_item_last, np_item_first, Hfirst, Hlast by exact Hne.
  unfold fdiv. replace (Qeq_bool (inject_Z (0 - 1)) 0) with false by reflexivity.
  cbn [fgt]. f_equal. apply Qlt_bool_false_iff.
  assert (E : ((final - first) / inject_Z (0 - 1) == first - final)%Q)
    by (change (inject_Z (0 - 1)) with (-1 # 1)%Q; field).
  rewrite E. exact Hle.
Qed.

Lemma all_slopes_false (frames : list Q) (step : Z) (segments : list Z) :
  (forall x, x ∈ segments -> segment_slope frames step x = Some false) ->
  all_slopes frames step segments = Some (map (fun _ => false) segments).
Proof.
  induction segments as [|x rest IH]; intros Hall; [reflexivity |].
  cbn [all_slopes map]. rewrite (Hall x) by left.
  rewrite IH by (intros y Hy; apply Hall; right; exact Hy). reflexivity.
Qed.

Lemma fraps_single_row (row : Q) (f : CaptureFile) :
  fraps_parse_file (TimeColumn [row]) f
  = ((1, fraps_frame [row] [(0 / 1000)%Q]), set_integrity Ideal f).
Proof.
  unfold fraps_parse_file.
  rewrite (all_slopes_false [row] _ [0; 1; 2; 3; 4]); [reflexivity |].
  intros x _. apply (segment_slope_zero_step [row] x row row);
    [reflexivity | reflexivity |].
  assert (E : (row - row == 0)%Q) by ring. rewrite E. discriminate.
Qed.

Lemma accumulate_first (values : list Q) (total : Q) :
  accumulate values total !! 0%nat = Some total.
Proof. destruct values; reflexivity. Qed.

(** X18.  For a readable FRAPS log with at least one row, parse_file sets
    the integrity to Ideal and returns a table of at least one row whose
    two columns have the same length, with the height equal to that
    length.  The table has one of two shapes.  Read as discrete
    measurements, the frame times are the log's values, one per row, and
    the first timestamp is zero.  Read as cumulative, there is one frame
    time less than the log has rows, and each frame time is positive
    exactly when the log's value increases from its row to the next. *)
Theorem fraps_parse_file_table (frames : list Q) (f : CaptureFile) :
  frames <> [] ->
  exists frametimes time,
    fraps_parse_file (TimeColumn frames) f
    = ((Z.of_nat (length frametimes), fraps_frame frametimes time),
       set_integrity Ideal f)
    /\ length time = length frametimes
    /\ (1 <= length frametimes)%nat
    /\ ((frametimes = frames
         /\ exists start, time !! 0%nat = Some start /\ (start == 0)%Q)
        \/ (S (length frametimes) = length frames
            /\ forall i frametime,
                 frametimes !! i = Some frametime ->
                 exists cur next,
                   frames !! i = Some cur /\ frames !! S i = Some next
                   /\ ((0 < frametime)%Q <-> (cur < next)%Q))).
Proof.
  intros Hne.
  destruct frames as [|row [|row' rest]]; [congruence | |].
  - exists [row], [(0 / 1000)%Q]. rewrite fraps_single_row.
    split; [reflexivity |]. split; [reflexivity |].
    split; [cbn [length]; lia |]. left. split; [reflexivity |].
    exists (0 / 1000)%Q. split; reflexivity.
  - set (log := row :: row' :: rest) in *.
    assert (Hrows : (2 <= length log)%nat) by (subst log; cbn [length]; lia).
    destruct (fraps_parse_file_modes log f Hne) as [-> | ->].
    + eexists _, _. split; [reflexivity |].
      split.
      { rewrite length_map, length_accumulate, length_all_but_last. lia. }
      split; [lia |]. left. split; [reflexivity |].
      exists (0 / 1000)%Q. split; [|reflexivity].
      rewrite list_lookup_fmap, accumulate_first. reflexivity.
    + eexists _, _. split; [reflexivity |].
      split.
      { rewrite length_map, length_all_but_last, length_frame_differences.
        reflexivity. }
      rewrite length_frame_differences.
      split; [lia |]. right. split; [lia |].
      intros i frametime Hd.
      apply frame_differences_lookup in Hd as (cur & next & Hc & Hn & ->).
      exists cur, next. split; [exact Hc |]. split; [exact Hn |].
      rewrite <- (Qlt_minus_iff cur next). reflexivity.
Qed.

Lemma fraps_parse_file_table_witness :
  exists frametimes time,
    fraps_parse_file
      (TimeColumn (map inject_Z [0; 16; 33; 50; 66; 83; 100; 116; 133; 150]))
      (new_capture_file OtherParser "3.5.99" ∅)
    = ((Z.of_nat (length frametimes), fraps_frame frametimes time),
       set_integrity Ideal (new_capture_file OtherParser "3.5.99" ∅))
    /\ length time = length frametimes
    /\ (1 <= length frametimes)%nat
    /\ ((frametimes
         = map inject_Z [0; 16; 33; 50; 66; 83; 100; 116; 133; 150]
         /\ exists start, time !! 0%nat = Some start /\ (start == 0)%Q)
        \/ (S (length frametimes)
            = length (map inject_Z [0; 16; 33; 50; 66; 83; 100; 116; 133; 150])
            /\ forall i frametime,
                 frametimes !! i = Some frametime ->
                 exists cur next,
                   map inject_Z [0; 16; 33; 50; 66; 83; 100; 116; 133; 150] !! i
                   = Some cur
                   /\ map inject_Z [0; 16; 33; 50; 66; 83; 100; 116; 133; 150]
                      !! S i = Some next
                   /\ ((0 < frametime)%Q <-> (cur < next)%Q))).
Proof.
  apply (fraps_parse_file_table
           (map inject_Z [0; 16; 33; 50; 66; 83; 100; 116; 133; 150])
           (new_capture_file OtherParser "3.5.99" ∅)).
  discriminate.
Defined.

(** The log of the example above counts up, and is read as cumulative:
    nine frame times for ten rows. *)
Example fraps_cumulative_log :
  (fraps_parse_file
     (TimeColumn (map inject_Z [0; 16; 33; 50; 66; 83; 100; 116; 133; 150]))
     (new_capture_file OtherParser "3.5.99" ∅)).1.1 = 9.
Proof. vm_compute. reflexivity. Qed.

(** X19.  A FRAPS log of one to nine rows is read as discrete measurements
    (its values are kept as the frame times and the timestamps are their
    running sums / 1000), provided, when it has fewer than five rows,
    that its first value does not exceed its last by more than 0.1; with
    five to nine rows this holds whatever the values. *)
Theorem fraps_short_log_discrete
    (frames : list Q) (first final : Q) (f : CaptureFile) :
  (length frames < 10)%nat ->
  frames !! 0%nat = Some first -> last frames = Some final ->
  ((length frames < 5)%nat -> (first - final <= 1 # 10)%Q) ->
  fraps_parse_file (TimeColumn frames) f
  = ((Z.of_nat (length frames),
      fraps_frame frames
        (map (fun t => (t / 1000)%Q) (accumulate (all_but_last frames) 0))),
     set_integrity Ideal f).
Proof.
  intros Hshort Hfirst Hlast Hflat.
  assert (Hne : frames <> []) by (intros ->; discriminate).
  unfold fraps_parse_file.
  assert (Hslopes :
    all_slopes frames (Z.of_nat (length frames) / 5) [0; 1; 2; 3; 4]
    = Some [false; false; false; false; false]).
  { apply (all_slopes_false frames _ [0; 1; 2; 3; 4]). intros x Hx.
    destruct (decide (length frames < 5)%nat) as [Hlt|Hge].
    - replace (Z.of_nat (length frames) / 5) with 0
        by (symmetry; apply Z.div_small; lia).
      apply (segment_slope_zero_step frames x first final Hfirst Hlast).
      exact (Hflat Hlt).
    - assert (Hstep : Z.of_nat (length frames) / 5 = 1).
      { symmetry. apply (Z.div_unique _ 5 1 (Z.of_nat (length frames) - 5)); lia. }
      pose proof (segment_slope_defined frames x Hne) as Hdef.
      rewrite Hstep in Hdef |- *. apply segment_slope_unit_step, Hdef.
      repeat (apply elem_of_cons in Hx as [-> | Hx]; [lia |]). inversion Hx. }
  rewrite Hslopes. reflexivity.
Qed.

Lemma fraps_short_log_discrete_witness :
  fraps_parse_file
    (TimeColumn (map inject_Z [0; 16; 33; 50; 66; 83; 100]))
    (new_capture_file OtherParser "3.5.99" ∅)
  = ((Z.of_nat (length (map inject_Z [0; 16; 33; 50; 66; 83; 100])),
      fraps_frame (map inject_Z [0; 16; 33; 50; 66; 83; 100])
        (map (fun t => (t / 1000)%Q)
           (accumulate
              (all_but_last (map inject_Z [0; 16; 33; 50; 66; 83; 100])) 0))),
     set_integrity Ideal (new_capture_file OtherParser "3.5.99" ∅)).
Proof.
  apply (fraps_short_log_discrete
           (map inject_Z [0; 16; 33; 50; 66; 83; 100])
           (inject_Z 0) (inject_Z 100)
           (new_capture_file OtherParser "3.5.99" ∅)).
  - simpl. lia.
  - reflexivity.
  - reflexivity.
  - simpl. lia.
Defined.

(** ** Settings *)

Lemma restore_sections_spec (table : list (string * list (string * string)))
    (p : config_parser) :
  NoDup table.*1 ->
  (forall key, key ∈ table.*1 -> key <> EmptyString /\ key <> "DEFAULT"%string) ->
  _defaults (restore_sections table p) = _defaults p
  /\ (forall key options, (key, options) ∈ table ->
        _sections (restore_sections table p) !! key = Some (list_to_map options))
  /\ (forall key, key ∉ table.*1 ->
        _sections (restore_sections table p) !! key = _sections p !! key).
Proof.
  revert p. induction table as [|[key options] rest IH]; intros p Hnd Hkeys.
  - split; [reflexivity |]. split; [|reflexivity].
    intros key options Hin. inversion Hin.
  - cbn [fmap list_fmap fst] in Hnd, Hkeys.
    apply NoDup_cons in Hnd as [Hfresh Hnd].
    destruct (Hkeys key ltac:(left)) as [Hne Hnd'].
    unfold restore_sections. cbn [fold_left fst snd].
    fold (restore_sections rest (parser_setitem p key (list_to_map options))).
    destruct (IH (parser_setitem p key (list_to_map options)) Hnd)
      as (Hd & Hin & Hout).
    { intros k Hk. apply Hkeys. right. exact Hk. }
    assert (Hstep : parser_setitem p key (list_to_map options)
                    = {| _defaults := _defaults p;
                         _sections := <[key := list_to_map options]>
                                        (_sections p) |}).
    { unfold parser_setitem.
      rewrite (bool_decide_eq_false_2 _ Hnd'), (bool_decide_eq_false_2 _ Hne).
      reflexivity. }
    split; [rewrite Hd, Hstep; reflexivity |]. split.
    + intros k o Hk. apply elem_of_cons in Hk as [Heq | Hk].
      * injection Heq as -> ->. rewrite (Hout key Hfresh), Hstep.
        apply lookup_insert_eq.
      * apply Hin, Hk.
    + intros k Hk. cbn [fmap list_fmap fst] in Hk.
      apply not_elem_of_cons in Hk as [Hne' Hk].
      rewrite (Hout k Hk), Hstep. apply lookup_insert_ne. congruence.
Qed.

Lemma DEFAULTS_keys :
  NoDup DEFAULTS.*1
  /\ forall key, key ∈ DEFAULTS.*1 -> key <> EmptyString /\ key <> "DEFAULT"%string.
Proof.
  split.
  - apply (bool_decide_unpack _). vm_compute. reflexivity.
  - intros key Hin. split; intros ->; revert Hin;
      apply (bool_decide_unpack _); vm_compute; reflexivity.
Qed.

Lemma default_of_section (section option_name value : string) :
  default_of section option_name = Some value ->
  exists options,
    (section, options) ∈ DEFAULTS
    /\ (list_to_map options : gmap string string) !! option_name = Some value.
Proof.
  unfold default_of.
  destruct ((list_to_map DEFAULTS : gmap string (list (string * string)))
              !! section) as [options|] eqn:Hs; [|discriminate].
  intros Ho. exists options. split; [|exact Ho].
  apply elem_of_list_to_map_2 in Hs. exact Hs.
Qed.

Lemma set_defaults_sections (run_from_exe : bool) (p : config_parser) :
  exists p',
    set_defaults run_from_exe EmptyString p = ConfigDone p'
    /\ _defaults p' = _defaults p
    /\ (forall key options, (key, options) ∈ DEFAULTS ->
          _sections p' !! key
          = if run_from_exe && bool_decide (key = "Development"%string)
            then None else Some (list_to_map options))
    /\ (forall key, key ∉ DEFAULTS.*1 -> _sections p' !! key = _sections p !! key).
Proof.
  destruct DEFAULTS_keys as [Hnd Hkeys].
  destruct (restore_sections_spec DEFAULTS p Hnd Hkeys) as (Hd & Hin & Hout).
  unfold set_defaults. rewrite bool_decide_eq_true_2 by reflexivity.
  eexists. split; [reflexivity |].
  unfold save_config. destruct run_from_exe; cbn [_defaults _sections andb].
  - split; [exact Hd |]. split.
    + intros key options Hk.
      destruct (bool_decide_reflect (key = "Development"%string)) as [-> | Hne].
      * apply lookup_delete_eq.
      * rewrite lookup_delete_ne by congruence. apply Hin, Hk.
    + intros key Hk. rewrite lookup_delete_ne; [apply Hout, Hk |].
      intros <-. apply Hk. apply (bool_decide_unpack _). vm_compute. reflexivity.
  - split; [exact Hd |]. split; [|exact Hout].
    intros key options Hk. apply Hin, Hk.
Qed.

Lemma parser_get_set (p p' : config_parser) (section option_name value : string) :
  section <> EmptyString -> section <> "DEFAULT"%string ->
  parser_set p section option_name value = Some p' ->
  parser_get p' section option_name = Some value.
Proof.
  intros Hne Hnd. unfold parser_set.
  rewrite bool_decide_eq_false_2 by (intros [H|H]; congruence).
  destruct (_sections p !! section) as [options|] eqn:Hs; [|discriminate].
  intros H. injection H as <-. unfold parser_get. cbn [_sections _defaults].
  rewrite lookup_insert_eq, lookup_insert_eq. reflexivity.
Qed.

Lemma write_back_stored (run_from_exe : bool) (section option_name value d : string)
    (p : config_parser) :
  default_of section option_name = Some d ->
  run_from_exe = false \/ section <> "Development"%string ->
  (_sections p !! section = None -> value = d) ->
  fst (write_back run_from_exe section option_name value p) = Some value
  /\ parser_get (snd (write_back run_from_exe section option_name value p))
       section option_name = Some value.
Proof.
  intros Hd Hdev Hmissing.
  destruct (default_of_section _ _ _ Hd) as (options & Hin & Hopt).
  destruct DEFAULTS_keys as [_ Hkeys].
  destruct (Hkeys section) as [Hne Hnd].
  { apply list_elem_of_fmap. exists (section, options). auto. }
  unfold write_back.
  destruct (parser_set p section option_name value) as [p'|] eqn:Hset; cbn [fst snd].
  - split; [reflexivity |]. eapply parser_get_set; eassumption.
  - split; [reflexivity |].
    assert (Hs : _sections p !! section = None).
    { unfold parser_set in Hset.
      rewrite bool_decide_eq_false_2 in Hset by (intros [H|H]; congruence).
      destruct (_sections p !! section); [discriminate | reflexivity]. }
    rewrite (Hmissing Hs).
    destruct (set_defaults_sections run_from_exe p) as (p' & -> & _ & Hsec & _).
    cbn [parser_after]. unfold parser_get. rewrite (Hsec section options Hin).
    assert (Hkeep : run_from_exe && bool_decide (section = "Development"%string)
                    = false).
    { destruct Hdev as [-> | Hdev]; [reflexivity |].
      rewrite (bool_decide_eq_false_2 _ Hdev). apply andb_false_r. }
    rewrite Hkeep, Hopt. reflexivity.
Qed.

Lemma write_back_value (run_from_exe : bool)
    (section option_name value : string) (p : config_parser) :
  fst (write_back run_from_exe section option_name value p) = Some value.
Proof.
  unfold write_back.
  destruct (parser_set p section option_name value); reflexivity.
Qed.

(** What [setting] returns for an option the table knows. *)
Lemma setting_value
    (run_from_exe : bool) (section option_name d : string) (p : config_parser) :
  default_of section option_name = Some d ->
  run_from_exe = false \/ section <> "Development"%string ->
  fst (setting run_from_exe section option_name false p)
  = Some (default d (parser_get p section option_name)).
Proof.
  intros Hd Hdev. unfold setting. rewrite Hd. cbn [orb].
  assert (Hkeep : run_from_exe && bool_decide (section = "Development"%string)
                  = false).
  { destruct Hdev as [-> | Hdev]; [reflexivity |].
    rewrite (bool_decide_eq_false_2 _ Hdev). apply andb_false_r. }
  rewrite Hkeep.
  destruct (parser_get p section option_name) as [stored|]; cbn [default].
  - destruct (bool_decide (strip stored = EmptyString));
      [apply write_back_value | reflexivity].
  - apply write_back_value.
Qed.

(** X20.  For an option of the DEFAULTS table (the Development section of a
    frozen executable apart), setting does not raise: it returns the
    value the parser holds for the option, also when that value is
    blank, and the default when the parser holds none; afterwards the
    parser holds the returned value under that option. *)
Theorem setting_stored_or_default
    (run_from_exe : bool) (section option_name d : string) (p : config_parser) :
  default_of section option_name = Some d ->
  run_from_exe = false \/ section <> "Development"%string ->
  fst (setting run_from_exe section option_name false p)
  = Some (default d (parser_get p section option_name))
  /\ parser_get (snd (setting run_from_exe section option_name false p))
       section option_name
     = Some (default d (parser_get p section option_name)).
Proof.
  intros Hd Hdev. unfold setting. rewrite Hd. cbn [orb].
  assert (Hkeep : run_from_exe && bool_decide (section = "Development"%string)
                  = false).
  { destruct Hdev as [-> | Hdev]; [reflexivity |].
    rewrite (bool_decide_eq_false_2 _ Hdev). apply andb_false_r. }
  rewrite Hkeep.
  destruct (parser_get p section option_name) as [stored|] eqn:Hget; cbn [default].
  - destruct (bool_decide (strip stored = EmptyString)).
    + apply (write_back_stored run_from_exe section option_name stored d p Hd Hdev).
      intros Hs. unfold parser_get in Hget. rewrite Hs in Hget.
      destruct (default_of_section _ _ _ Hd) as (options & Hin & _).
      destruct DEFAULTS_keys as [_ Hkeys].
      destruct (Hkeys section) as [_ Hnd].
      { apply list_elem_of_fmap. exists (section, options). auto. }
      rewrite (bool_decide_eq_false_2 _ Hnd) in Hget. discriminate.
    + cbn [fst snd]. auto.
  - apply (write_back_stored run_from_exe section option_name d d p Hd Hdev).
    reflexivity.
Qed.

Lemma setting_stored_or_default_witness :
  fst (setting false "StutterHeuristic" "StutterWindowSize" false
         customised_parser)
  = Some (default "19"%string
            (parser_get customised_parser "StutterHeuristic"
               "StutterWindowSize"))
  /\ parser_get
       (snd (setting false "StutterHeuristic" "StutterWindowSize" false
               customised_parser))
       "StutterHeuristic" "StutterWindowSize"
     = Some (default "19"%string
               (parser_get customised_parser "StutterHeuristic"
                  "StutterWindowSize")).
Proof.
  apply (setting_stored_or_default false "StutterHeuristic" "StutterWindowSize"
           "19" customised_parser).
  - vm_compute. reflexivity.
  - left. reflexivity.
Defined.

(** X21.  When the parser lacks the section of a requested option of
    DEFAULTS, setting returns the default and every section of DEFAULTS
    is replaced by its default options, whatever it held; running from a
    frozen executable, the Development section is removed instead. *)
Theorem setting_missing_section_restores_defaults
    (run_from_exe : bool) (section option_name d : string)
    (p : config_parser) :
  default_of section option_name = Some d ->
  run_from_exe = false \/ section <> "Development"%string ->
  _sections p !! section = None ->
  fst (setting run_from_exe section option_name false p) = Some d
  /\ forall key options, (key, options) ∈ DEFAULTS ->
       _sections (snd (setting run_from_exe section option_name false p)) !! key
       = if run_from_exe && bool_decide (key = "Development"%string)
         then None else Some (list_to_map options).
Proof.
  intros Hd Hdev Hmissing.
  destruct (default_of_section _ _ _ Hd) as (options & Hin & _).
  destruct DEFAULTS_keys as [_ Hkeys].
  destruct (Hkeys section) as [Hne Hnd].
  { apply list_elem_of_fmap. exists (section, options). auto. }
  assert (Hget : parser_get p section option_name = None).
  { unfold parser_get. rewrite Hmissing, (bool_decide_eq_false_2 _ Hnd).
    reflexivity. }
  assert (Hset : parser_set p section option_name d = None).
  { unfold parser_set.
    rewrite bool_decide_eq_false_2 by (intros [H|H]; congruence).
    rewrite Hmissing. reflexivity. }
  unfold setting. rewrite Hd. cbn [orb].
  assert (Hkeep : run_from_exe && bool_decide (section = "Development"%string)
                  = false).
  { destruct Hdev as [-> | Hdev]; [reflexivity |].
    rewrite (bool_decide_eq_false_2 _ Hdev). apply andb_false_r. }
  rewrite Hkeep, Hget. unfold write_back. rewrite Hset. cbn [fst snd].
  split; [reflexivity |].
  destruct (set_defaults_sections run_from_exe p) as (p' & -> & _ & Hsec & _).
  exact Hsec.
Qed.

Lemma setting_missing_section_restores_defaults_witness :
  fst (setting true "Metadata" "ExpirationTime" false customised_parser)
  = Some "7"%string
  /\ forall key options, (key, options) ∈ DEFAULTS ->
       _sections (snd (setting true "Metadata" "ExpirationTime" false
                         customised_parser)) !! key
       = if true && bool_decide (key = "Development"%string)
         then None else Some (list_to_map options).
Proof.
  apply (setting_missing_section_restores_defaults true "Metadata"
           "ExpirationTime" "7" customised_parser).
  - vm_compute. reflexivity.
  - right. discriminate.
  - reflexivity.
Defined.

(** X22.  If the parser has the section, set_value of a value without a dot
    returns normally, setting then returns exactly that value for the
    option (an option of DEFAULTS, the Development section of a frozen
    executable apart), and the other sections are unchanged. *)
Theorem set_value_then_setting
    (float_round3 : string -> option string) (run_from_exe : bool)
    (section option_name new_value d : string) (p : config_parser) :
  default_of section option_name = Some d ->
  run_from_exe = false \/ section <> "Development"%string ->
  has_dot new_value = false ->
  is_Some (_sections p !! section) ->
  exists p',
    set_value float_round3 section option_name new_value p = ConfigDone p'
    /\ fst (setting run_from_exe section option_name false p') = Some new_value
    /\ forall other, other <> section ->
         _sections p' !! other = _sections p !! other.
Proof.
  intros Hd Hdev Hdot [options Hs].
  destruct (default_of_section _ _ _ Hd) as (defaults & Hin & _).
  destruct DEFAULTS_keys as [_ Hkeys].
  destruct (Hkeys section) as [Hne Hnd].
  { apply list_elem_of_fmap. exists (section, defaults). auto. }
  unfold set_value.
  destruct (bool_decide_reflect
              (parser_get p section option_name = Some new_value)) as [Heq|Hneq].
  - exists p. split; [reflexivity |]. split; [|reflexivity].
    rewrite (setting_value run_from_exe section option_name d p Hd Hdev).
    rewrite Heq. reflexivity.
  - rewrite Hdot. unfold parser_set.
    rewrite bool_decide_eq_false_2 by (intros [H|H]; congruence).
    rewrite Hs. eexists. split; [reflexivity |]. split.
    + match goal with
      | |- fst (setting _ _ _ _ ?q) = _ =>
        rewrite (setting_value run_from_exe section option_name d q Hd Hdev);
        assert (Hget : parser_get q section option_name = Some new_value)
      end.
      { unfold parser_get. cbn [_sections _defaults].
        rewrite lookup_insert_eq, lookup_insert_eq. reflexivity. }
      rewrite Hget. reflexivity.
    + intros other Hother. cbn [_sections].
      apply lookup_insert_ne. congruence.
Qed.

Lemma set_value_then_setting_witness :
  exists p',
    set_value (fun _ => None) "StutterHeuristic" "StutterWindowSize" "25"
      customised_parser
    = ConfigDone p'
    /\ fst (setting false "StutterHeuristic" "StutterWindowSize" false p')
       = Some "25"%string
    /\ forall other, other <> "StutterHeuristic"%string ->
         _sections p' !! other = _sections customised_parser !! other.
Proof.
  apply (set_value_then_setting (fun _ => None) false "StutterHeuristic"
           "StutterWindowSize" "25" "19" customised_parser).
  - vm_compute. reflexivity.
  - left. reflexivity.
  - reflexivity.
  - eexists. reflexivity.
Defined.

(** ** Fallback headers *)

(** X23.  When the class's fallback table has a header for the phrase under
    the file's version, register_fallback_header makes header_by_alias
    return that fallback for the phrase and leaves every other phrase as
    it was; remove_fallback_header then makes header_by_alias return the
    preferred header again. *)
Theorem fallback_header_round_trip
    (tables : gmap string (gmap string string))
    (aliases : gmap string string) (generic_phrase fallback_header : string)
    (f : CaptureFile) :
  tables !! version f = Some aliases ->
  aliases !! generic_phrase = Some fallback_header ->
  is_Some (HEADER_ALIASES f !! version f) ->
  exists f',
    register_fallback_header (Some tables) generic_phrase f = Completed f'
    /\ header_by_alias f' generic_phrase = Some fallback_header
    /\ (forall other, other <> generic_phrase ->
          header_by_alias f' other = header_by_alias f other)
    /\ header_by_alias (remove_fallback_header generic_phrase f') generic_phrase
       = preferred_aliases f generic_phrase
    /\ (forall other, other <> generic_phrase ->
          header_by_alias (remove_fallback_header generic_phrase f') other
          = header_by_alias f other).
Proof.
  intros Htable Halias [table Hpref].
  unfold register_fallback_header. rewrite Htable, Halias.
  eexists. split; [reflexivity |].
  unfold remove_fallback_header, header_by_alias, preferred_aliases.
  cbn [with_fallbacks_in_use fallbacks_in_use HEADER_ALIASES version].
  rewrite Hpref, !lookup_insert_eq.
  cbn [with_fallbacks_in_use fallbacks_in_use HEADER_ALIASES version].
  rewrite Hpref, lookup_delete_eq.
  split; [reflexivity |]. split.
  - intros other Hother. rewrite lookup_insert_ne by congruence. reflexivity.
  - split; [reflexivity |].
    intros other Hother.
    rewrite lookup_delete_ne, lookup_insert_ne by congruence. reflexivity.
Qed.

Lemma fallback_header_round_trip_witness :
  exists f',
    register_fallback_header
      (Some {[ "1.4"%string :=
                 {[ "System Latency"%string :=
                      "MsRenderPresentLatency"%string ]} ]})
      "System Latency"
      (new_capture_file FrameView "1.4"
         {[ "1.4"%string :=
              {[ "System Latency"%string := "MsPCLatency"%string ]} ]})
    = Completed f'
    /\ header_by_alias f' "System Latency" = Some "MsRenderPresentLatency"%string
    /\ (forall other, other <> "System Latency"%string ->
          header_by_alias f' other
          = header_by_alias
              (new_capture_file FrameView "1.4"
                 {[ "1.4"%string :=
                      {[ "System Latency"%string := "MsPCLatency"%string ]} ]})
              other)
    /\ header_by_alias (remove_fallback_header "System Latency" f')
         "System Latency"
       = preferred_aliases
           (new_capture_file FrameView "1.4"
              {[ "1.4"%string :=
                   {[ "System Latency"%string := "MsPCLatency"%string ]} ]})
           "System Latency"
    /\ (forall other, other <> "System Latency"%string ->
          header_by_alias (remove_fallback_header "System Latency" f') other
          = header_by_alias
              (new_capture_file FrameView "1.4"
                 {[ "1.4"%string :=
                      {[ "System Latency"%string := "MsPCLatency"%string ]} ]})
              other).
Proof.
  apply (fallback_header_round_trip
           {[ "1.4"%string :=
                {[ "System Latency"%string :=
                     "MsRenderPresentLatency"%string ]} ]}
           {[ "System Latency"%string := "MsRenderPresentLatency"%string ]}
           "System Latency" "MsRenderPresentLatency"
           (new_capture_file FrameView "1.4"
              {[ "1.4"%string :=
                   {[ "System Latency"%string := "MsPCLatency"%string ]} ]})).
  - reflexivity.
  - reflexivity.
  - eexists. reflexivity.
Defined.

(** ** Restoring saved properties happens once *)

Lemma update_integrity_by_inspection_saved (recheck : bool) (f : CaptureFile) :
  uses_saved_properties (update_integrity_by_inspection recheck f)
  = uses_saved_properties f.
Proof.
  unfold update_integrity_by_inspection.
  destruct (negb _); [reflexivity |].
  destruct (passed_inspection f); [reflexivity |].
  destruct (major_items f); reflexivity.
Qed.

Lemma evaluate_integrity_method_saved
    (o : battery_outcome) (properties_raise : bool) (f : CaptureFile) :
  uses_saved_properties (evaluate_integrity_method o properties_raise f)
  = uses_saved_properties f.
Proof.
  unfold evaluate_integrity_method, evaluate_integrity.
  destruct (parser f); [| |reflexivity];
    (destruct (_ =? _); [reflexivity |];
     destruct properties_raise; [reflexivity |];
     rewrite update_integrity_by_inspection_saved; reflexivity).
Qed.

Lemma reset_time_axis_saved
    (o : battery_outcome) (properties_raise : bool) (f : CaptureFile) :
  uses_saved_properties (file_after (reset_time_axis o properties_raise f))
  = uses_saved_properties f.
Proof.
  unfold reset_time_axis, start_time_at_zero.
  set (f0 := with_window 0 (Z.of_nat (df_rows (data f))) f).
  assert (H0 : uses_saved_properties f0 = uses_saved_properties f) by reflexivity.
  destruct (header_by_alias f0 "Elapsed Time") as [time_alias|];
    [|exact H0].
  destruct (column f0 time_alias (Some (offset f0))); try exact H0.
  cbn [and_then]. unfold resize_zero_column.
  destruct (frames _ <? 0); cbn [and_then file_after]; [exact H0 |].
  rewrite evaluate_integrity_method_saved. exact H0.
Qed.

Lemma offset_time_axis_saved (time_offset : Q) (f : CaptureFile) :
  uses_saved_properties (file_after (offset_time_axis time_offset f))
  = uses_saved_properties f.
Proof.
  unfold offset_time_axis. destruct (Qeq_bool time_offset 0); [reflexivity |].
  destruct (header_by_alias f "Elapsed Time"); [|reflexivity].
  destruct (named_columns (data f) s); reflexivity.
Qed.

(** What the [try] block leaves: the stored answer when it completes, the
    file's earlier answer when it raises. *)
Lemma restore_time_and_properties_saved
    (stored_time : option time_record) (stored_properties : bool)
    (o : battery_outcome) (properties_raise : bool) (f : CaptureFile) :
  match restore_time_and_properties stored_time stored_properties o
          properties_raise f with
  | Completed f' => uses_saved_properties f' = Some stored_properties
  | Raised f' => uses_saved_properties f' = uses_saved_properties f
  end.
Proof.
  unfold restore_time_and_properties.
  destruct stored_time as [record|]; [|reflexivity].
  destruct (stored_offset record) as [time_offset|]; [|reflexivity].
  destruct (stored_start record) as [start|]; [|reflexivity].
  destruct (stored_end record) as [stop|]; [|reflexivity].
  destruct ((start <? stop) && (1 <? stop - start)).
  - destruct (elapsed_time f) as [elapsed|]; [|reflexivity].
    destruct (np_max elapsed) as [latest|]; [|reflexivity].
    destruct (Qlt_bool 0 (latest + time_offset)).
    + pose proof (offset_time_axis_saved time_offset f) as H.
      destruct (offset_time_axis time_offset f); cbn [and_then file_after] in *;
        [reflexivity | exact H].
    + pose proof (reset_time_axis_saved o properties_raise f) as H.
      destruct (reset_time_axis o properties_raise f);
        cbn [and_then file_after] in *; [reflexivity | exact H].
  - pose proof (reset_time_axis_saved o properties_raise f) as H.
    destruct (reset_time_axis o properties_raise f);
      cbn [and_then file_after] in *; [reflexivity | exact H].
Qed.

Lemma restore_time_and_properties_rows
    (stored_time : option time_record) (stored_properties : bool)
    (o : battery_outcome) (properties_raise : bool) (f : CaptureFile) :
  df_rows (data (file_after
                   (restore_time_and_properties stored_time stored_properties o
                      properties_raise f)))
  = df_rows (data f).
Proof.
  assert (Hreset : df_rows (data (file_after
                     (reset_time_axis o properties_raise f)))
                   = df_rows (data f))
    by apply reset_time_axis_window.
  assert (Hoffset : forall time_offset,
            df_rows (data (file_after (offset_time_axis time_offset f)))
            = df_rows (data f)).
  { intros time_offset. unfold offset_time_axis.
    destruct (Qeq_bool time_offset 0); [reflexivity |].
    destruct (header_by_alias f "Elapsed Time"); [|reflexivity].
    destruct (named_columns (data f) s); reflexivity. }
  unfold restore_time_and_properties.
  destruct stored_time as [record|]; [|reflexivity].
  destruct (stored_offset record) as [time_offset|]; [|reflexivity].
  destruct (stored_start record) as [start|]; [|reflexivity].
  destruct (stored_end record) as [stop|]; [|reflexivity].
  destruct ((start <? stop) && (1 <? stop - start)).
  - destruct (elapsed_time f) as [elapsed|]; [|reflexivity].
    destruct (np_max elapsed) as [latest|]; [|reflexivity].
    destruct (Qlt_bool 0 (latest + time_offset)).
    + specialize (Hoffset time_offset).
      destruct (offset_time_axis time_offset f); cbn [and_then file_after] in *;
        exact Hoffset.
    + destruct (reset_time_axis o properties_raise f);
        cbn [and_then file_after] in *; exact Hreset.
  - destruct (reset_time_axis o properties_raise f);
      cbn [and_then file_after] in *; exact Hreset.
Qed.

(** X24.  When define_properties does not raise, restore_saved_properties
    leaves uses_saved_properties decided (not None): for a file not yet
    decided it is the truth value of the stored properties, or it is
    False and the window is the whole table (offset 0, height = rows),
    which is how a restore that raised ends; any later call returns at
    once and changes nothing. *)
Theorem restore_saved_properties_decides_once
    (stored_time : option time_record) (stored_properties : bool)
    (o : battery_outcome) (f : CaptureFile) :
  let f' :=
    file_after
      (restore_saved_properties stored_time stored_properties o false f) in
  (uses_saved_properties f = None ->
     uses_saved_properties f' = Some stored_properties
     \/ (uses_saved_properties f' = Some false
         /\ offset f' = 0 /\ height f' = Z.of_nat (df_rows (data f))))
  /\ is_Some (uses_saved_properties f')
  /\ forall stored_time' stored_properties' o' properties_raise',
       restore_saved_properties stored_time' stored_properties' o'
         properties_raise' f'
       = Completed f'.
Proof.
  intros f'.
  assert (Hfirst : uses_saved_properties f = None ->
            uses_saved_properties f' = Some stored_properties
            \/ (uses_saved_properties f' = Some false
                /\ offset f' = 0 /\ height f' = Z.of_nat (df_rows (data f)))).
  { intros Hnone. subst f'. unfold restore_saved_properties. rewrite Hnone.
    pose proof (restore_time_and_properties_saved stored_time stored_properties
                  o false f) as Hsaved.
    pose proof (restore_time_and_properties_rows stored_time stored_properties
                  o false f) as Hrows.
    destruct (restore_time_and_properties stored_time stored_properties o
                false f) as [f1|f1]; cbn [file_after] in *.
    - left. exact Hsaved.
    - right. rewrite reset_time_axis_saved.
      split; [reflexivity |].
      destruct (reset_time_axis_window o false
                  (with_uses_saved_properties (Some false) f1))
        as (Ho & Hh & _).
      split; [exact Ho |]. rewrite Hh. cbn [with_uses_saved_properties data].
      rewrite Hrows. reflexivity. }
  assert (Hsome : is_Some (uses_saved_properties f')).
  { destruct (uses_saved_properties f) as [b|] eqn:Hu.
    - subst f'. unfold restore_saved_properties. rewrite Hu.
      cbn [file_after]. rewrite Hu. eexists. reflexivity.
    - destruct (Hfirst eq_refl) as [-> | [-> _]]; eexists; reflexivity. }
  split; [exact Hfirst |]. split; [exact Hsome |].
  intros stored_time' stored_properties' o' properties_raise'.
  unfold restore_saved_properties at 1.
  destruct Hsome as [b ->]. reflexivity.
Qed.

(** ** A second pass over the statistics *)

Lemma set_section_metrics_file (none_hash : Z) (sec : stats_section)
    (s : session) :
  file (plot_object (set_section_metrics none_hash sec s))
  = file (plot_object s).
Proof.
  unfold set_section_metrics, use_cached_stats.
  destruct (section_guard sec _); [reflexivity |].
  destruct (_cache_hits s !! section_name sec) as [[hits calls]|];
    [|reflexivity].
  destruct (bool_decide _); reflexivity.
Qed.

Lemma set_section_metrics_counters (none_hash : Z) (sec : stats_section)
    (s : session) (section : string) :
  _cache_hits s !! section = None ->
  _cache_hits (set_section_metrics none_hash sec s) !! section = None.
Proof.
  intros Hnone. unfold set_section_metrics, use_cached_stats.
  destruct (section_guard sec _); [exact Hnone |].
  destruct (_cache_hits s !! section_name sec) as [[hits calls]|] eqn:Hc;
    [|exact Hnone].
  assert (Hne : section_name sec <> section) by congruence.
  destruct (bool_decide _); cbn [_cache_hits];
    rewrite ?lookup_insert_ne by exact Hne; exact Hnone.
Qed.

Lemma set_section_metrics_other_hash (none_hash : Z) (sec : stats_section)
    (s : session) (section : string) :
  section_name sec <> section ->
  _hashes (plot_object (set_section_metrics none_hash sec s)) !! section
  = _hashes (plot_object s) !! section.
Proof.
  intros Hne. unfold set_section_metrics, use_cached_stats.
  destruct (section_guard sec _); [reflexivity |].
  destruct (_cache_hits s !! section_name sec) as [[hits calls]|];
    [|reflexivity].
  destruct (bool_decide _); cbn [plot_object _hashes]; [reflexivity |].
  apply lookup_insert_ne. exact Hne.
Qed.

Lemma set_section_metrics_settles (none_hash : Z) (sec : stats_section)
    (s : session) :
  settled none_hash sec (set_section_metrics none_hash sec s).
Proof.
  unfold settled. rewrite set_section_metrics_file.
  destruct (section_guard sec (file (plot_object s))) eqn:Hguard; [auto |].
  right. unfold set_section_metrics. rewrite Hguard. unfold use_cached_stats.
  destruct (_cache_hits s !! section_name sec) as [[hits calls]|] eqn:Hc;
    [|left; exact Hc].
  right. destruct (bool_decide _) eqn:Hhit; cbn [plot_object _hashes file].
  - apply bool_decide_eq_true_1 in Hhit. exact Hhit.
  - apply lookup_insert_eq.
Qed.

Lemma set_section_metrics_keeps_settled (none_hash : Z)
    (sec other : stats_section) (s : session) :
  section_name other <> section_name sec ->
  settled none_hash sec s ->
  settled none_hash sec (set_section_metrics none_hash other s).
Proof.
  intros Hne [Hguard | [Hnone | Hhash]]; unfold settled;
    rewrite set_section_metrics_file.
  - auto.
  - right. left. apply set_section_metrics_counters. exact Hnone.
  - right. right. rewrite set_section_metrics_other_hash by exact Hne.
    exact Hhash.
Qed.

(** Setting a settled section changes neither the plot object nor any
    section's misses. *)
Lemma set_section_metrics_settled (none_hash : Z) (sec : stats_section)
    (s : session) :
  settled none_hash sec s ->
  plot_object (set_section_metrics none_hash sec s) = plot_object s
  /\ forall section,
       misses section (set_section_metrics none_hash sec s) = misses section s.
Proof.
  intros Hsettled. unfold set_section_metrics.
  destruct (section_guard sec (file (plot_object s))) eqn:Hguard; [auto |].
  destruct Hsettled as [Hg | [Hnone | Hhash]]; [congruence | |].
  - unfold use_cached_stats. rewrite Hnone. auto.
  - unfold use_cached_stats.
    destruct (_cache_hits s !! section_name sec) as [[hits calls]|] eqn:Hc;
      [|auto].
    rewrite (bool_decide_eq_true_2 _ Hhash). cbn [fst snd plot_object].
    split; [reflexivity |].
    intros section. unfold misses. cbn [_cache_hits].
    destruct (decide (section = section_name sec)) as [-> | Hne].
    + rewrite lookup_insert_eq, Hc. lia.
    + rewrite !lookup_insert_ne by congruence. reflexivity.
Qed.

Lemma run_sections_keeps_settled (none_hash : Z)
    (sections : list stats_section) (sec : stats_section) (s : session) :
  section_name sec ∉ map section_name sections ->
  settled none_hash sec s ->
  settled none_hash sec (run_sections none_hash sections s).
Proof.
  revert s. induction sections as [|other rest IH]; intros s Hfresh Hs;
    [exact Hs |].
  cbn [map] in Hfresh. apply not_elem_of_cons in Hfresh as [Hne Hfresh].
  unfold run_sections. cbn [fold_left].
  apply IH; [exact Hfresh |].
  apply set_section_metrics_keeps_settled; [congruence | exact Hs].
Qed.

Lemma run_sections_settles (none_hash : Z) (sections : list stats_section)
    (s : session) :
  NoDup (map section_name sections) ->
  forall sec, sec ∈ sections ->
              settled none_hash sec (run_sections none_hash sections s).
Proof.
  revert s. induction sections as [|first rest IH]; intros s Hnd sec Hin;
    [inversion Hin |].
  cbn [map] in Hnd. apply NoDup_cons in Hnd as [Hfresh Hnd].
  unfold run_sections. cbn [fold_left].
  apply elem_of_cons in Hin as [-> | Hin].
  - apply run_sections_keeps_settled; [exact Hfresh |].
    apply set_section_metrics_settles.
  - apply IH; assumption.
Qed.

Lemma run_sections_settled (none_hash : Z) (sections : list stats_section)
    (s : session) :
  NoDup (map section_name sections) ->
  (forall sec, sec ∈ sections -> settled none_hash sec s) ->
  plot_object (run_sections none_hash sections s) = plot_object s
  /\ forall section,
       misses section (run_sections none_hash sections s) = misses section s.
Proof.
  revert s. induction sections as [|first rest IH]; intros s Hnd Hall;
    [auto |].
  cbn [map] in Hnd. apply NoDup_cons in Hnd as [Hfresh Hnd].
  unfold run_sections. cbn [fold_left].
  destruct (set_section_metrics_settled none_hash first s
              (Hall first ltac:(left))) as [Hobj Hmiss].
  destruct (IH (set_section_metrics none_hash first s) Hnd) as [Hobj' Hmiss'].
  { intros sec Hin. apply set_section_metrics_keeps_settled.
    - intros Heq. apply Hfresh. rewrite Heq. apply list_elem_of_fmap.
      exists sec. auto.
    - apply Hall. right. exact Hin. }
  fold (run_sections none_hash rest (set_section_metrics none_hash first s)).
  split; [rewrite Hobj'; exact Hobj |].
  intros section. rewrite Hmiss'. apply Hmiss.
Qed.

(** X25.  Running the seven hashed statistics sections of calculate_stats a
    second time right after a first run, with the same settings, changes
    neither the file, the statistics cells nor the stored hashes, and
    leaves every section's miss count (calls minus hits) as it was. *)
Theorem calculate_hashed_stats_twice
    (none_hash : Z) (env : stats_environment) (s : session) :
  plot_object (calculate_hashed_stats none_hash env
                 (calculate_hashed_stats none_hash env s))
  = plot_object (calculate_hashed_stats none_hash env s)
  /\ forall section,
       misses section (calculate_hashed_stats none_hash env
                         (calculate_hashed_stats none_hash env s))
       = misses section (calculate_hashed_stats none_hash env s).
Proof.
  assert (Hnd : NoDup (map section_name (hashed_sections env))).
  { cbn. apply (bool_decide_unpack _). vm_compute. reflexivity. }
  unfold calculate_hashed_stats.
  apply run_sections_settled; [exact Hnd |].
  intros sec Hin. apply run_sections_settles; assumption.
Qed.

(** ** The data sources offered for plotting *)

#[global] Instance string_le_total : Total string_le.
Proof. intros a b. apply String.leb_total. Qed.

Lemma fromkeys_scan (keys unique : list string) :
  NoDup unique ->
  exists added,
    fold_left
      (fun unique key => if bool_decide (key ∈ unique) then unique
                         else unique ++ [key])
      keys unique
    = unique ++ added
    /\ NoDup (unique ++ added)
    /\ forall key, key ∈ added <-> key ∈ keys /\ key ∉ unique.
Proof.
  revert unique. induction keys as [|key rest IH]; intros unique Hnd.
  - exists []. rewrite app_nil_r. split; [reflexivity |].
    split; [exact Hnd |]. intros key. split; [inversion 1 |].
    intros [H _]. inversion H.
  - cbn [fold_left].
    destruct (bool_decide_reflect (key ∈ unique)) as [Hin|Hout].
    + destruct (IH unique Hnd) as (added & -> & Hnd' & Hadded).
      exists added. split; [reflexivity |]. split; [exact Hnd' |].
      intros k. rewrite Hadded. split.
      * intros [Hk Hu]. split; [right; exact Hk | exact Hu].
      * intros [Hk Hu]. split; [|exact Hu].
        apply elem_of_cons in Hk as [-> | Hk]; [contradiction | exact Hk].
    + assert (Hnd1 : NoDup (unique ++ [key])).
      { apply NoDup_app. split; [exact Hnd |]. split.
        - intros x Hx Hk. apply list_elem_of_singleton in Hk. subst.
          contradiction.
        - apply NoDup_singleton. }
      destruct (IH (unique ++ [key]) Hnd1) as (added & -> & Hnd' & Hadded).
      exists (key :: added). rewrite <- app_assoc in *. cbn [app] in *.
      split; [reflexivity |]. split; [exact Hnd' |].
      intros k. rewrite elem_of_cons, Hadded. split.
      * intros [-> | [Hk Hu]].
        -- split; [left | exact Hout].
        -- split; [right; exact Hk |]. intros Hku. apply Hu.
           apply elem_of_app. left. exact Hku.
      * intros [Hk Hu]. apply elem_of_cons in Hk as [-> | Hk]; [left; reflexivity |].
        destruct (decide (k = key)) as [-> | Hne]; [left; reflexivity |].
        right. split; [exact Hk |]. intros Hku.
        apply elem_of_app in Hku as [Hku | Hku]; [contradiction |].
        apply list_elem_of_singleton in Hku. contradiction.
Qed.

Lemma fromkeys_scan_distinct (keys unique : list string) :
  NoDup (unique ++ keys) ->
  fold_left
    (fun unique key => if bool_decide (key ∈ unique) then unique
                       else unique ++ [key])
    keys unique
  = unique ++ keys.
Proof.
  revert unique. induction keys as [|key rest IH]; intros unique Hnd.
  - rewrite app_nil_r. reflexivity.
  - cbn [fold_left].
    assert (Hout : key ∉ unique).
    { apply NoDup_app in Hnd as (_ & Hdisjoint & _).
      intros Hin. apply (Hdisjoint key Hin). left. }
    rewrite (bool_decide_eq_false_2 _ Hout).
    rewrite IH by (rewrite <- app_assoc; exact Hnd).
    rewrite <- app_assoc. reflexivity.
Qed.

Lemma dict_fromkeys_spec (unique_data_sources headers : list string) :
  NoDup unique_data_sources ->
  exists added,
    dict_fromkeys (unique_data_sources ++ headers)
    = unique_data_sources ++ added
    /\ NoDup (unique_data_sources ++ added)
    /\ forall key, key ∈ added <->
                   key ∈ headers /\ key ∉ unique_data_sources.
Proof.
  intros Hnd. unfold dict_fromkeys. rewrite fold_left_app.
  rewrite (fromkeys_scan_distinct unique_data_sources []) by exact Hnd.
  apply fromkeys_scan. exact Hnd.
Qed.

(** X26.  If unique_data_sources has no repeats, then after
    collect_file_headers it still has none and holds exactly the old
    sources and the file's headers; it is left as it was when the file
    brings no new header, and is sorted when it brings one. *)
Theorem collect_file_headers_complete
    (unique_data_sources headers : list string) :
  NoDup unique_data_sources ->
  NoDup (collect_file_headers unique_data_sources headers)
  /\ (forall source,
        source ∈ collect_file_headers unique_data_sources headers
        <-> source ∈ unique_data_sources \/ source ∈ headers)
  /\ ((forall header, header ∈ headers -> header ∈ unique_data_sources) ->
      collect_file_headers unique_data_sources headers = unique_data_sources)
  /\ ((exists header, header ∈ headers /\ header ∉ unique_data_sources) ->
      Sorted string_le (collect_file_headers unique_data_sources headers)).
Proof.
  intros Hnd.
  destruct (dict_fromkeys_spec unique_data_sources headers Hnd)
    as (added & Hmerged & Hnd' & Hadded).
  unfold collect_file_headers. rewrite Hmerged, length_app.
  destruct added as [|first added].
  - rewrite bool_decide_eq_false_2 by (cbn [length]; lia).
    split; [exact Hnd |]. split; [|split].
    + intros source. split; [auto |]. intros [H | H]; [exact H |].
      destruct (decide (source ∈ unique_data_sources)) as [Hin | Hout];
        [exact Hin |].
      pose proof (proj2 (Hadded source) (conj H Hout)) as Hx. inversion Hx.
    + reflexivity.
    + intros (header & Hin & Hout).
      pose proof (proj2 (Hadded header) (conj Hin Hout)) as Hx. inversion Hx.
  - rewrite bool_decide_eq_true_2 by (cbn [length]; lia).
    set (merged := unique_data_sources ++ first :: added) in *.
    pose proof (merge_sort_Permutation string_le merged) as Hperm.
    split; [rewrite Hperm; exact Hnd' |]. split; [|split].
    + intros source. rewrite Hperm. subst merged. rewrite elem_of_app, Hadded.
      split.
      * intros [H | [H _]]; auto.
      * intros [H | H]; [left; exact H |].
        destruct (decide (source ∈ unique_data_sources)); auto.
    + intros Hall. exfalso.
      destruct (proj1 (Hadded first) ltac:(left)) as [Hin Hout].
      exact (Hout (Hall first Hin)).
    + intros _. apply Sorted_merge_sort. apply _.
Qed.

Lemma collect_file_headers_complete_witness :
  NoDup (collect_file_headers ["Time (ms)"; "Frametimes"]%string
           ["Frametimes"; "Application"]%string)
  /\ (forall source,
        source ∈ collect_file_headers ["Time (ms)"; "Frametimes"]%string
                   ["Frametimes"; "Application"]%string
        <-> source ∈ ["Time (ms)"; "Frametimes"]%string
            \/ source ∈ ["Frametimes"; "Application"]%string)
  /\ ((forall header, header ∈ ["Frametimes"; "Application"]%string ->
                      header ∈ ["Time (ms)"; "Frametimes"]%string) ->
      collect_file_headers ["Time (ms)"; "Frametimes"]%string
        ["Frametimes"; "Application"]%string
      = ["Time (ms)"; "Frametimes"]%string)
  /\ ((exists header, header ∈ ["Frametimes"; "Application"]%string
                      /\ header ∉ ["Time (ms)"; "Frametimes"]%string) ->
      Sorted string_le
        (collect_file_headers ["Time (ms)"; "Frametimes"]%string
           ["Frametimes"; "Application"]%string)).
Proof.
  apply (collect_file_headers_complete ["Time (ms)"; "Frametimes"]%string
           ["Frametimes"; "Application"]%string).
  apply (bool_decide_unpack _). vm_compute. reflexivity.
Defined.

(** ** Setup and tainted frame times *)

(** X27.  When valid_file_setup completes and leaves the integrity at Ideal,
    tainted_frametimes (the method of the base class) returns False on
    the resulting file: a file whose frame times are missing or contain
    a zero does not come out of the setup as Ideal. *)
Theorem valid_file_setup_ideal_untainted
    (stored_time : option time_record) (stored_properties : bool)
    (o : battery_outcome) (properties_raise : bool) (f f' : CaptureFile) :
  valid_file_setup stored_time stored_properties o properties_raise f
  = Completed f' ->
  integrity f' = Ideal ->
  base_tainted_frametimes f' = Some false.
Proof.
  unfold valid_file_setup. intros Hsetup Hideal.
  destruct (reset_time_axis o properties_raise f) as [f1|f1];
    cbn [and_then] in Hsetup; [|discriminate].
  destruct (restore_saved_properties stored_time stored_properties o
              properties_raise f1) as [f2|f2];
    cbn [and_then] in Hsetup; [|discriminate].
  set (f3 := find_duplicate_headers f2) in *.
  destruct (base_tainted_frametimes f3) as [tainted|] eqn:Htainted;
    [|discriminate].
  injection Hsetup as <-.
  destruct tainted; cbn [andb] in *; [|exact Htainted].
  destruct (bool_decide_reflect (integrity f3 = Ideal)) as [Hi|Hi].
  - unfold set_integrity in Hideal. cbn in Hideal. discriminate.
  - contradiction.
Qed.

Lemma valid_file_setup_ideal_untainted_witness :
  base_tainted_frametimes
    (file_after
       (valid_file_setup None false headerless_outcome false sample_capture))
  = Some false.
Proof.
  apply (valid_file_setup_ideal_untainted None false headerless_outcome false
           sample_capture
           (file_after
              (valid_file_setup None false headerless_outcome false
                 sample_capture))).
  - vm_compute. reflexivity.
  - vm_compute. reflexivity.
Defined.
